(** * A shallow embedding of the raw-TCP HTTP server

    The development follows the layout of the repository:

    - [Js]: the few JavaScript / Node primitives the code relies on
      (Buffer slicing, [copyWithin], string [split], [trim], [parseInt], ...);
    - [BufferUtils]: [bufPop], [bufpush], [splitLines] (buffer-utils);
    - [HttpParser]: [cutMessage], [parseHTTPReq], [parseRequestLine],
      [validateHeader] (http-parser.ts);
    - [DistHttpParser]: the compiled copy of [parseHTTPReq] / [cutMessage];
    - [Server]: [soRead], [soWrite], [fieldGet], [parseDec], [encodeHTTPResp],
      the body readers, [readerFromReq], [handleReq], [writeHTTPResp] and
      [serverClient].

    Bytes and JavaScript characters are both [ascii] (8 bits): every string
    the code manipulates comes from an ['ascii'] or ['latin1'] decoding of a
    Buffer, so its code units are all below 256.

    A JavaScript number is a double.  The numbers of this program are
    integers (sizes, indices, a parsed [Content-Length]) or an infinity
    (where [parseInt] overflows); they are modelled by [Z], with the
    rounding of a double written out where a number comes from a peer
    ([Js.toDouble], [Js.sub]) and [Js.Infinity] standing for the infinite
    value.  Sizes and indices of byte arrays stay far below 2^53, where
    double arithmetic on integers is exact.  [NaN] is the [None] of an
    [option Z]. *)

From Stdlib Require Import ZArith List Ascii String Lia Bool DecimalString.
From Stdlib Require DecimalPos DecimalZ.
Import ListNotations.
Local Open Scope Z_scope.

Definition Buffer := list ascii.
Definition JsString := list ascii.

(** Literals. *)
Definition str (s : string) : list ascii := list_ascii_of_string s.

Definition blen (b : list ascii) : Z := Z.of_nat (List.length b).
Definition code (c : ascii) : Z := Z.of_N (N_of_ascii c).

Definition CR : ascii := "013"%char.
Definition LF : ascii := "010"%char.
Definition CRLF : list ascii := [CR; LF].

Fixpoint beq (a b : list ascii) : bool :=
  match a, b with
  | [], [] => true
  | x :: a', y :: b' => Ascii.eqb x y && beq a' b'
  | _, _ => false
  end.

(** ** Exceptions *)

Inductive JsError : Type :=
| HTTPError (status : Z) (message : JsString)
| Error (message : JsString)
| TypeError
| SocketError.

Inductive jsres (A : Type) : Type :=
| Ok (a : A)
| Throw (e : JsError).
Arguments Ok {A} a.
Arguments Throw {A} e.

Definition jbind {A B} (r : jsres A) (k : A -> jsres B) : jsres B :=
  match r with
  | Ok a => k a
  | Throw e => Throw e
  end.

(** ** JavaScript primitives *)
Module Js.

(** [buf.toString('ascii')]: Node clears the high bit of every byte. *)
Definition mask7 (c : ascii) : ascii :=
  match c with
  | Ascii b0 b1 b2 b3 b4 b5 b6 _ => Ascii b0 b1 b2 b3 b4 b5 b6 false
  end.
Definition toString_ascii (b : Buffer) : JsString := map mask7 b.

(** [buf.toString('latin1')] and [Buffer.from(s, 'latin1')]: one code unit
    per byte, unchanged. *)
Definition toString_latin1 (b : Buffer) : JsString := b.
Definition from_latin1 (s : JsString) : Buffer := s.

(** [Buffer.from(s, 'ascii')]: when encoding, Node treats ['ascii'] as
    ['latin1']. *)
Definition from_ascii (s : JsString) : Buffer := from_latin1 s.

(** Index clamping shared by [subarray], [slice] and [copyWithin]. *)
Definition clampIndex (len r : Z) : Z :=
  if r <? 0 then Z.max (len + r) 0 else Z.min r len.

Definition subarray (b : Buffer) (start end_ : Z) : Buffer :=
  let len := blen b in
  let s := clampIndex len start in
  let e := clampIndex len end_ in
  firstn (Z.to_nat (e - s)) (skipn (Z.to_nat s) b).

(** [TypedArray.prototype.copyWithin(target, start, end)]. *)
Definition copyWithin (b : Buffer) (target start end_ : Z) : Buffer :=
  let len := blen b in
  let to := clampIndex len target in
  let from := clampIndex len start in
  let final := clampIndex len end_ in
  let count := Z.min (final - from) (len - to) in
  if 0 <? count then
    firstn (Z.to_nat to) b
      ++ firstn (Z.to_nat count) (skipn (Z.to_nat from) b)
      ++ skipn (Z.to_nat (to + count)) b
  else b.

(** [String.prototype.substring]: arguments clamped to [0, len], swapped
    when out of order. *)
Definition substring (s : JsString) (a b : Z) : JsString :=
  let len := blen s in
  let a' := Z.min (Z.max a 0) len in
  let b' := Z.min (Z.max b 0) len in
  let lo := Z.min a' b' in
  let hi := Z.max a' b' in
  firstn (Z.to_nat (hi - lo)) (skipn (Z.to_nat lo) s).
Definition substringFrom (s : JsString) (a : Z) : JsString :=
  substring s a (blen s).

Fixpoint prefixb (p s : list ascii) : bool :=
  match p, s with
  | [], _ => true
  | x :: p', y :: s' => Ascii.eqb x y && prefixb p' s'
  | _ :: _, [] => false
  end.

(** [indexOf]: first position at which the needle occurs, -1 when absent. *)
Fixpoint indexOf_from (hay needle : list ascii) (i : Z) : Z :=
  match hay with
  | [] => if prefixb needle [] then i else -1
  | _ :: t => if prefixb needle hay then i else indexOf_from t needle (i + 1)
  end.
Definition indexOf (hay needle : list ascii) : Z := indexOf_from hay needle 0.

Definition startsWith (s p : JsString) : bool := prefixb p s.

(** [s.split(sep)] for a one-character separator. *)
Fixpoint split (sep : ascii) (s : JsString) : list JsString :=
  match s with
  | [] => [[]]
  | c :: t =>
      if Ascii.eqb c sep then [] :: split sep t
      else match split sep t with
           | p :: ps => (c :: p) :: ps
           | [] => [[c]]
           end
  end.

(** [arr.join(sep)]. *)
Fixpoint join (sep : JsString) (l : list JsString) : JsString :=
  match l with
  | [] => []
  | [x] => x
  | x :: t => x ++ sep ++ join sep t
  end.

(** White space and line terminators below 256, as stripped by [trim] and
    skipped by [parseInt]. *)
Definition is_space (c : ascii) : bool :=
  let n := code c in
  ((9 <=? n) && (n <=? 13)) || (n =? 32) || (n =? 160).

Fixpoint dropWhile (p : ascii -> bool) (s : list ascii) : list ascii :=
  match s with
  | [] => []
  | c :: t => if p c then dropWhile p t else s
  end.
Fixpoint takeWhile (p : ascii -> bool) (s : list ascii) : list ascii :=
  match s with
  | [] => []
  | c :: t => if p c then c :: takeWhile p t else []
  end.

Definition trim (s : JsString) : JsString :=
  rev (dropWhile is_space (rev (dropWhile is_space s))).

(** [toLowerCase] on code units below 256. *)
Definition lower (c : ascii) : ascii :=
  let n := code c in
  if ((65 <=? n) && (n <=? 90))
     || ((192 <=? n) && (n <=? 222) && negb (n =? 215))
  then ascii_of_N (Z.to_N (n + 32)) else c.
Definition toLowerCase (s : JsString) : JsString := map lower s.

Definition is_digit (c : ascii) : bool :=
  let n := code c in (48 <=? n) && (n <=? 57).
Definition digit_val (c : ascii) : Z := code c - 48.
Definition dec_value (ds : list ascii) : Z :=
  fold_left (fun acc c => 10 * acc + digit_val c) ds 0.

(** *** Numbers *)

(** [Infinity], placed above every finite double: comparisons and
    [Math.min] are then those of [Z]. *)
Definition Infinity : Z := 2 ^ 1024.

(** Up to [2^53] every integer is a double. *)
Definition two53 : Z := 2 ^ 53.

(** The double nearest to an integer: 53 significant bits, ties to the even
    significand, an infinity from [2^1024 - 2^970] on. *)
Definition toDouble (z : Z) : Z :=
  let a := Z.abs z in
  let e := Z.log2 a in
  let r :=
    if e <? 53 then a
    else
      let sh := e - 52 in
      let q := Z.shiftr a sh in
      let rest := a - Z.shiftl q sh in
      let half := Z.shiftl 1 (sh - 1) in
      let q' :=
        if (half <? rest) || ((half =? rest) && Z.odd q) then q + 1 else q in
      Z.shiftl q' sh in
  Z.sgn z * Z.min r Infinity.

(** [a - b] on doubles, [b] finite: an infinity stays what it is, a finite
    difference is rounded. *)
Definition sub (a b : Z) : Z :=
  if Z.abs a =? Infinity then a else toDouble (a - b).

(** [parseInt(s, 10)]: skip leading white space, read an optional sign,
    then the longest run of decimal digits; [NaN] ([None]) when that run is
    empty, and otherwise the double nearest to the value of the run. *)
Definition parseInt10 (s : JsString) : option Z :=
  let s1 := dropWhile is_space s in
  let '(sign, s2) :=
    match s1 with
    | c :: t =>
        if Ascii.eqb c "-"%char then (-1, t)
        else if Ascii.eqb c "+"%char then (1, t)
        else (1, s1)
    | [] => (1, s1)
    end in
  match takeWhile is_digit s2 with
  | [] => None
  | ds => Some (toDouble (sign * dec_value ds))
  end.

(** Plain decimal notation, with a minus sign for a negative integer. *)
Definition decimal (n : Z) : JsString :=
  str (NilZero.string_of_int (Z.to_int n)).

(** [Number::toString] beyond [2^53].  The digits are those of the least
    number [k] of significant digits [s] for which [s * 10^(n - k)] still
    reads as the double [x]; among several such [s] the one nearest to [x],
    the even one on a tie. *)
Definition fits (x k n s : Z) : bool :=
  (10 ^ (k - 1) <=? s) && (s <? 10 ^ k) && (toDouble (s * 10 ^ (n - k)) =? x).

Definition nearer (x k : Z) (c1 c2 : Z * Z) : Z * Z :=
  let d1 := Z.abs (fst c1 * 10 ^ (snd c1 - k) - x) in
  let d2 := Z.abs (fst c2 * 10 ^ (snd c2 - k) - x) in
  if d1 <? d2 then c1
  else if d2 <? d1 then c2
  else if Z.even (fst c1) then c1 else c2.

(** The [k]-digit candidates [(s, n)] around [x], which has [nd] digits:
    [x] cut after [k] digits, rounded down or up, the latter possibly
    reaching the next power of ten. *)
Definition candidates (x k nd : Z) : list (Z * Z) :=
  filter (fun c => fits x k (snd c) (fst c))
    [ (x / 10 ^ (nd - k), nd); (x / 10 ^ (nd - k) + 1, nd);
      (x / 10 ^ (nd + 1 - k) + 1, nd + 1) ].

Definition pick (x k nd : Z) : option (Z * Z) :=
  match candidates x k nd with
  | [] => None
  | c :: cs => Some (fold_left (nearer x k) cs c)
  end.

(** Seventeen digits always suffice for a double. *)
Fixpoint shortest (x nd k : Z) (fuel : nat) : Z * Z * Z :=
  match fuel with
  | O => (x, nd, nd)
  | S fuel' =>
      match pick x k nd with
      | Some (s, n) => (s, k, n)
      | None => shortest x nd (k + 1) fuel'
      end
  end.

Definition zeros (n : Z) : JsString := repeat "0"%char (Z.to_nat n).

(** Below [10^21] the digits are padded with zeros; from there on the
    exponent form is used ([1e+21]). *)
Definition positiveToString (x : Z) : JsString :=
  if x =? Infinity then str "Infinity"
  else
    let '(s, k, n) := shortest x (blen (decimal x)) 1 17 in
    if n <=? 21 then decimal s ++ zeros (n - k)
    else
      let ds := decimal s in
      firstn 1 ds
        ++ (if k =? 1 then [] else "."%char :: skipn 1 ds)
        ++ str "e+" ++ decimal (n - 1).

(** Template literal [${n}] for an integer-valued number: plain decimal
    digits up to [2^53]. *)
Definition numToString (n : Z) : JsString :=
  if Z.abs n <=? two53 then decimal n
  else if n <? 0 then "-"%char :: positiveToString (- n)
  else positiveToString n.

End Js.

(** ** Shared types (types.ts) *)

Module DynBuf.
Record t : Type := mk { data : Buffer; length : Z }.
End DynBuf.

Module HTTPReq.
Record t : Type := mk {
  method : JsString;
  uri : Buffer;
  version : JsString;
  headers : list Buffer
}.
End HTTPReq.

(** ** buffer-utils *)
Module BufferUtils.
Import DynBuf.

Definition bufPop (buf : DynBuf.t) (len : Z) : DynBuf.t :=
  {| data := Js.copyWithin (data buf) 0 len (length buf);
     length := length buf - len |}.

Definition bufpush (buf : DynBuf.t) (d : Buffer) : DynBuf.t :=
  let data' := data buf ++ d in
  {| data := data'; length := blen data' |}.

Definition byte_is (o : option ascii) (c : ascii) : bool :=
  match o with
  | Some x => Ascii.eqb x c
  | None => false
  end.

(** The [for] loop of [splitLines]: [steps] iterations remain, [i] is the
    loop index, [start] the beginning of the current line. *)
Fixpoint splitLines_loop (d : Buffer) (steps i start : nat)
    (lines : list Buffer) : list Buffer * nat :=
  match steps with
  | O => (lines, start)
  | S steps' =>
      if byte_is (nth_error d i) LF then
        let end_ :=
          if (0 <? i)%nat && byte_is (nth_error d (i - 1)) CR
          then (i - 1)%nat else i in
        splitLines_loop d steps' (S i) (S i)
          (lines ++ [Js.subarray d (Z.of_nat start) (Z.of_nat end_)])
      else splitLines_loop d steps' (S i) start lines
  end.

Definition splitLines (d : Buffer) : list Buffer :=
  let '(lines, start) := splitLines_loop d (List.length d) 0 0 [] in
  if (start <? List.length d)%nat
  then lines ++ [Js.subarray d (Z.of_nat start) (blen d)]
  else lines.

End BufferUtils.


(** ** http-parser.ts *)
Module HttpParser.
Import HTTPReq.

Definition kMaxHeaderSize : Z := 1024 * 8.

Definition is_empty (s : list ascii) : bool :=
  match s with
  | [] => true
  | _ :: _ => false
  end.

Definition validMethods : list JsString :=
  map str ["GET"; "POST"; "PUT"; "DELETE"; "HEAD"; "OPTIONS"; "PATCH"; "TRACE"]%string.

(** [arr.includes(x)] on strings. *)
Definition includes (l : list JsString) (x : JsString) : bool :=
  existsb (beq x) l.

(** The regular expression [/^HTTP\/\d+\.\d+$/]: the digit runs are greedy
    and ['.'] is not a digit, so matching is deterministic. *)
Definition match_version (v : JsString) : bool :=
  if Js.prefixb (str "HTTP/") v then
    let r := skipn 5 v in
    match Js.takeWhile Js.is_digit r, Js.dropWhile Js.is_digit r with
    | _ :: _, dot :: r2 =>
        Ascii.eqb dot "."%char && negb (is_empty r2) && forallb Js.is_digit r2
    | _, _ => false
    end
  else false.

Definition parseRequestLine (line : Buffer)
  : jsres (JsString * Buffer * JsString) :=
  let lineStr := Js.toString_ascii line in
  let parts := Js.split " "%char lineStr in
  match parts with
  | [method; uri; version] =>
      if is_empty method || is_empty uri || is_empty version then
        Throw (HTTPError 400 (str "Missing request line components"))
      else if negb (includes validMethods method) then
        Throw (HTTPError 405 (str "Method Not Allowed: " ++ method))
      else if negb (Js.startsWith uri (str "/")) then
        Throw (HTTPError 400 (str "Invalid URI format"))
      else if negb (match_version version) then
        Throw (HTTPError 400 (str "Invalid HTTP version"))
      else Ok (method, Js.from_ascii uri, version)
  | _ => Throw (HTTPError 400 (str "Bad Request: Invalid request line format"))
  end.

Definition is_upper (c : ascii) : bool := (65 <=? code c) && (code c <=? 90).
Definition is_lower (c : ascii) : bool := (97 <=? code c) && (code c <=? 122).

(** Character class of [tokenRegex]. *)
Definition is_token_char (c : ascii) : bool :=
  existsb (Ascii.eqb c) (str "!#$%&'*+-.^_`|~")
  || Js.is_digit c || is_upper c || is_lower c.

(** [/^[!#$%&'*+\-.0-9A-Z^_`a-z|~]+$/] *)
Definition tokenRegex (s : JsString) : bool :=
  negb (is_empty s) && forallb is_token_char s.

(** [/^[\x09\x20-\x7E\x80-\xFF]*$/] *)
Definition is_value_char (c : ascii) : bool :=
  let n := code c in
  (n =? 9) || ((32 <=? n) && (n <=? 126)) || ((128 <=? n) && (n <=? 255)).
Definition valueRegex (s : JsString) : bool := forallb is_value_char s.

Definition validateHeader (header : Buffer) : bool :=
  let headerStr := Js.toString_ascii header in
  let colonIndex := Js.indexOf headerStr (str ":") in
  if colonIndex =? -1 then false
  else
    let name := Js.trim (Js.substring headerStr 0 colonIndex) in
    let value := Js.trim (Js.substringFrom headerStr (colonIndex + 1)) in
    if negb (tokenRegex name) then false
    else if negb (valueRegex value) then false
    else if existsb (fun c => (code c <? 32) && negb (code c =? 9)) value
    then false
    else true.

Definition badHeader (line : Buffer) : JsError :=
  HTTPError 400
    (str "Bad Request: Invalid header format - " ++ Js.toString_ascii line).

(** The header loop of [parseHTTPReq]: stops at the first empty line. *)
Fixpoint collectHeaders (lines headers : list Buffer) : jsres (list Buffer) :=
  match lines with
  | [] => Ok headers
  | line :: rest =>
      if blen line =? 0 then Ok headers
      else if negb (validateHeader line) then Throw (badHeader line)
      else collectHeaders rest (headers ++ [line])
  end.

Definition parseHTTPReq (d : Buffer) : jsres HTTPReq.t :=
  match BufferUtils.splitLines d with
  | [] => Throw TypeError
  | line0 :: rest =>
      jbind (parseRequestLine line0) (fun '(m, u, v) =>
      jbind (collectHeaders rest []) (fun hs =>
      Ok {| method := m; uri := u; version := v; headers := hs |}))
  end.

(** [cutMessage] returns the parsed message (or [None] for [null]) together
    with the buffer after the in-place [bufPop]. *)
Definition cutMessage_with (parse : Buffer -> jsres HTTPReq.t)
    (buf : DynBuf.t) : jsres (option HTTPReq.t * DynBuf.t) :=
  let idx :=
    Js.indexOf (Js.subarray (DynBuf.data buf) 0 (DynBuf.length buf))
      (CRLF ++ CRLF) in
  if idx <? 0 then
    if DynBuf.length buf >? kMaxHeaderSize then
      Throw (HTTPError 413 (str "Request Entity Too Large"))
    else Ok (None, buf)
  else
    jbind (parse (Js.subarray (DynBuf.data buf) 0 (idx + 4))) (fun msg =>
    Ok (Some msg, BufferUtils.bufPop buf (idx + 4))).

Definition cutMessage : DynBuf.t -> jsres (option HTTPReq.t * DynBuf.t) :=
  cutMessage_with parseHTTPReq.

End HttpParser.

(** ** dist/http-parser.js, the compiled copy

    [parseRequestLine], [validateHeader] and the body of [cutMessage] are the
    same text as in http-parser.ts; [parseHTTPReq] differs: its loop runs over
    every line after the request line. *)
Module DistHttpParser.
Import HTTPReq.

Definition parseRequestLine := HttpParser.parseRequestLine.
Definition validateHeader := HttpParser.validateHeader.

Fixpoint collectHeaders (lines headers : list Buffer) : jsres (list Buffer) :=
  match lines with
  | [] => Ok headers
  | h :: rest =>
      if negb (validateHeader h) then Throw (HttpParser.badHeader h)
      else collectHeaders rest (headers ++ [h])
  end.

Definition parseHTTPReq (d : Buffer) : jsres HTTPReq.t :=
  match BufferUtils.splitLines d with
  | [] => Throw TypeError
  | line0 :: rest =>
      jbind (parseRequestLine line0) (fun '(m, u, v) =>
      jbind (collectHeaders rest []) (fun hs =>
      Ok {| method := m; uri := u; version := v; headers := hs |}))
  end.

Definition cutMessage : DynBuf.t -> jsres (option HTTPReq.t * DynBuf.t) :=
  HttpParser.cutMessage_with parseHTTPReq.

End DistHttpParser.


(** ** The server: connection wrapper, body readers, engine *)

Module BodyReader.
(** The variables captured by a reader's [read] closure. *)
Inductive closure : Type :=
| FromMemory (data : Buffer) (done : bool)
| FromConnLength (remain : Z).
Record t : Type := mk { length : Z; read : closure }.
End BodyReader.

Module HTTPRes.
(** [body] is a reference to a reader object: the handler may hand back the
    very reader it was given. *)
Record t : Type := mk { code : Z; headers : list Buffer; body : nat }.
End HTTPRes.

Module TCPConn.
(** What the paused socket delivers next, once a read resumes it. *)
Inductive event : Type :=
| EvData (d : Buffer)
| EvEnd
| EvError.
(** [socket_in]: the events still to come; [socket_out]: the chunks passed
    to [socket.write], oldest first; [reads]: how many times [soRead] was
    called (a counter kept for the proofs only). *)
Record t : Type := mk {
  err : option JsError;
  ended : bool;
  socket_in : list event;
  socket_out : list Buffer;
  reads : nat
}.
End TCPConn.

Module Server.

(** Everything one connection owns: the wrapper, the receive buffer of
    [serverClient], and the reader objects allocated so far. *)
Record World : Type := mkWorld {
  conn : TCPConn.t;
  buf : DynBuf.t;
  heap : list BodyReader.t
}.

(** Outcome of an [async] computation: it returns, it throws, its promise
    never settles because the socket delivers nothing more ([Wait]), or the
    model ran out of loop iterations ([Fuel]). *)
Inductive outcome (A : Type) : Type :=
| Ret (a : A) (w : World)
| Raise (e : JsError) (w : World)
| Wait (w : World)
| Fuel.
Arguments Ret {A} a w.
Arguments Raise {A} e w.
Arguments Wait {A} w.
Arguments Fuel {A}.

Definition M (A : Type) : Type := World -> outcome A.

Definition ret {A} (a : A) : M A := fun w => Ret a w.
Definition throw {A} (e : JsError) : M A := fun w => Raise e w.
Definition bind {A B} (m : M A) (k : A -> M B) : M B :=
  fun w =>
    match m w with
    | Ret a w' => k a w'
    | Raise e w' => Raise e w'
    | Wait w' => Wait w'
    | Fuel => Fuel
    end.

Notation "x <- m ;; k" := (bind m (fun x => k))
  (at level 61, m at next level, right associativity).
Notation "m ;;; k" := (bind m (fun _ => k))
  (at level 61, right associativity).

Definition getBuf : M DynBuf.t := fun w => Ret (buf w) w.
Definition setBuf (b : DynBuf.t) : M unit :=
  fun w => Ret tt {| conn := conn w; buf := b; heap := heap w |}.
Definition getConn : M TCPConn.t := fun w => Ret (conn w) w.
Definition setConn (c : TCPConn.t) : M unit :=
  fun w => Ret tt {| conn := c; buf := buf w; heap := heap w |}.
Definition lift {A} (r : jsres A) : M A :=
  match r with
  | Ok a => ret a
  | Throw e => throw e
  end.

(** *** soRead / soWrite *)

Definition soRead : M Buffer :=
  c0 <- getConn ;;
  let c := {| TCPConn.err := TCPConn.err c0;
              TCPConn.ended := TCPConn.ended c0;
              TCPConn.socket_in := TCPConn.socket_in c0;
              TCPConn.socket_out := TCPConn.socket_out c0;
              TCPConn.reads := S (TCPConn.reads c0) |} in
  setConn c ;;;
  match TCPConn.err c with
  | Some e => throw e
  | None =>
      if TCPConn.ended c then ret []
      else
        match TCPConn.socket_in c with
        | [] => fun w => Wait w
        | TCPConn.EvData d :: rest =>
            setConn {| TCPConn.err := None;
                       TCPConn.ended := false;
                       TCPConn.socket_in := rest;
                       TCPConn.socket_out := TCPConn.socket_out c;
                       TCPConn.reads := TCPConn.reads c |} ;;;
            ret d
        | TCPConn.EvEnd :: rest =>
            setConn {| TCPConn.err := None;
                       TCPConn.ended := true;
                       TCPConn.socket_in := rest;
                       TCPConn.socket_out := TCPConn.socket_out c;
                       TCPConn.reads := TCPConn.reads c |} ;;;
            ret []
        | TCPConn.EvError :: rest =>
            setConn {| TCPConn.err := Some SocketError;
                       TCPConn.ended := false;
                       TCPConn.socket_in := rest;
                       TCPConn.socket_out := TCPConn.socket_out c;
                       TCPConn.reads := TCPConn.reads c |} ;;;
            throw SocketError
        end
  end.

(** The socket accepts every write; [console.assert] only logs. *)
Definition soWrite (d : Buffer) : M unit :=
  c <- getConn ;;
  match TCPConn.err c with
  | Some e => throw e
  | None =>
      setConn {| TCPConn.err := TCPConn.err c;
                 TCPConn.ended := TCPConn.ended c;
                 TCPConn.socket_in := TCPConn.socket_in c;
                 TCPConn.socket_out := TCPConn.socket_out c ++ [d];
                 TCPConn.reads := TCPConn.reads c |}
  end.

(** *** Header utilities *)

Fixpoint fieldGet (headers : list Buffer) (key : JsString) : option Buffer :=
  let lowerKey := Js.toLowerCase key in
  match headers with
  | [] => None
  | header :: rest =>
      let headerStr := Js.toString_latin1 header in
      let colonIndex := Js.indexOf headerStr (str ":") in
      if 0 <? colonIndex then
        let fieldName :=
          Js.toLowerCase (Js.trim (Js.substring headerStr 0 colonIndex)) in
        if beq fieldName lowerKey then
          Some (Js.from_latin1
                  (Js.trim (Js.substringFrom headerStr (colonIndex + 1))))
        else fieldGet rest key
      else fieldGet rest key
  end.

Definition parseDec (s : JsString) : option Z := Js.parseInt10 s.

Definition encodeHTTPResp (resp : HTTPRes.t) : Buffer :=
  let lines :=
    [str "HTTP/1.1 " ++ Js.numToString (HTTPRes.code resp) ++ str " OK"]
      ++ map Js.toString_latin1 (HTTPRes.headers resp)
      ++ [[]] in
  Js.from_latin1 (Js.join CRLF lines).

(** *** Body readers *)

Definition alloc (r : BodyReader.t) : M nat :=
  fun w =>
    Ret (List.length (heap w))
        {| conn := conn w; buf := buf w; heap := heap w ++ [r] |}.

Fixpoint update {A} (l : list A) (i : nat) (x : A) : list A :=
  match l, i with
  | [], _ => []
  | _ :: t, O => x :: t
  | y :: t, S i' => y :: update t i' x
  end.

Definition setClosure (r : nat) (c : BodyReader.closure) : M unit :=
  fun w =>
    match nth_error (heap w) r with
    | Some rd =>
        Ret tt {| conn := conn w; buf := buf w;
                  heap := update (heap w) r
                            {| BodyReader.length := BodyReader.length rd;
                               BodyReader.read := c |} |}
    | None => Raise TypeError w
    end.

Definition deref (r : nat) : M BodyReader.t :=
  fun w =>
    match nth_error (heap w) r with
    | Some rd => Ret rd w
    | None => Raise TypeError w
    end.

Definition readerFromMemory (d : Buffer) : M nat :=
  alloc {| BodyReader.length := blen d;
           BodyReader.read := BodyReader.FromMemory d false |}.

Definition readerFromConnLength (remain : Z) : M nat :=
  alloc {| BodyReader.length := remain;
           BodyReader.read := BodyReader.FromConnLength remain |}.

Definition unexpectedEOF : JsError :=
  Error (str "Unexpected EOF from HTTP body").

(** The [read] closure of [readerFromConnLength]; returns the chunk and the
    new value of the captured [remain]. *)
Definition connLength_read (remain : Z) : M (Buffer * Z) :=
  if remain =? 0 then ret ([], remain)
  else
    b0 <- getBuf ;;
    (if DynBuf.length b0 =? 0 then
       d <- soRead ;;
       setBuf (BufferUtils.bufpush b0 d) ;;;
       if blen d =? 0 then throw unexpectedEOF else ret tt
     else ret tt) ;;;
    b <- getBuf ;;
    let consume := Z.min (DynBuf.length b) remain in
    let remain' := Js.sub remain consume in
    let d := Js.subarray (DynBuf.data b) 0 consume in
    setBuf (BufferUtils.bufPop b consume) ;;;
    ret (d, remain').

(** [reader.read()] through a reference. *)
Definition read (r : nat) : M Buffer :=
  rd <- deref r ;;
  match BodyReader.read rd with
  | BodyReader.FromMemory d done =>
      if done then ret []
      else setClosure r (BodyReader.FromMemory d true) ;;; ret d
  | BodyReader.FromConnLength remain =>
      res <- connLength_read remain ;;
      setClosure r (BodyReader.FromConnLength (snd res)) ;;;
      ret (fst res)
  end.

Definition readerFromReq (req : HTTPReq.t) : M nat :=
  let contentLen := fieldGet (HTTPReq.headers req) (str "Content-Length") in
  bodyLen <-
    match contentLen with
    | Some v =>
        match parseDec (Js.toString_latin1 v) with
        | None => throw (HTTPError 400 (str "bad Content-Length."))
        | Some n => ret n
        end
    | None => ret (-1)
    end ;;
  let bodyAllowed :=
    negb (beq (HTTPReq.method req) (str "GET")
          || beq (HTTPReq.method req) (str "HEAD")) in
  let chunked :=
    match fieldGet (HTTPReq.headers req) (str "Transfer-Encoding") with
    | Some v => beq v (str "chunked")
    | None => false
    end in
  if negb bodyAllowed && ((bodyLen >? 0) || chunked) then
    throw (HTTPError 400 (str "HTTP body not allowed."))
  else
    let bodyLen := if negb bodyAllowed then 0 else bodyLen in
    if bodyLen >=? 0 then readerFromConnLength bodyLen
    else if chunked then throw (HTTPError 501 (str "TODO: chunked encoding"))
    else throw (HTTPError 501 (str "TODO: read until EOF")).

(** *** Handler and response writer *)

Definition handleReq (req : HTTPReq.t) (body : nat) : M HTTPRes.t :=
  resp <-
    (if beq (Js.toString_latin1 (HTTPReq.uri req)) (str "/echo") then ret body
     else readerFromMemory (str "hello world." ++ [LF])) ;;
  ret {| HTTPRes.code := 200;
         HTTPRes.headers := [str "Server: my_first_http_server"];
         HTTPRes.body := resp |}.

(** [while (true) { data = await body.read(); if (!data.length) break;
    await soWrite(conn, data) }] *)
Fixpoint writeBody (fuel : nat) (body : nat) : M unit :=
  match fuel with
  | O => fun _ => Fuel
  | S fuel' =>
      d <- read body ;;
      if blen d =? 0 then ret tt
      else soWrite d ;;; writeBody fuel' body
  end.

Definition writeHTTPResp (fuel : nat) (resp : HTTPRes.t) : M unit :=
  rd <- deref (HTTPRes.body resp) ;;
  if BodyReader.length rd <? 0 then
    throw (Error (str "TODO: chunked encoding"))
  else
    let resp' :=
      {| HTTPRes.code := HTTPRes.code resp;
         HTTPRes.headers :=
           HTTPRes.headers resp
             ++ [str "Content-Length: "
                   ++ Js.numToString (BodyReader.length rd)];
         HTTPRes.body := HTTPRes.body resp |} in
    soWrite (encodeHTTPResp resp') ;;;
    writeBody fuel (HTTPRes.body resp).

(** [while ((await reqBody.read()).length > 0) {}] *)
Fixpoint drain (fuel : nat) (body : nat) : M unit :=
  match fuel with
  | O => fun _ => Fuel
  | S fuel' =>
      d <- read body ;;
      if blen d >? 0 then drain fuel' body else ret tt
  end.

(** *** The per-connection loop

    [cut] is the [cutMessage] the server was linked with. *)
Fixpoint serverLoop (cut : DynBuf.t -> jsres (option HTTPReq.t * DynBuf.t))
    (fuel : nat) : M unit :=
  match fuel with
  | O => fun _ => Fuel
  | S fuel' =>
      b <- getBuf ;;
      res <- lift (cut b) ;;
      setBuf (snd res) ;;;
      match fst res with
      | None =>
          d <- soRead ;;
          b1 <- getBuf ;;
          setBuf (BufferUtils.bufpush b1 d) ;;;
          c <- getConn ;;
          if (blen d =? 0) && TCPConn.ended c then ret tt
          else
            if (blen d =? 0)
               && match TCPConn.err c with Some _ => true | None => false end
            then throw (HTTPError 400 (str "Unexpected EOF."))
            else serverLoop cut fuel'
      | Some msg =>
          reqBody <- readerFromReq msg ;;
          resp <- handleReq msg reqBody ;;
          writeHTTPResp fuel' resp ;;;
          if beq (HTTPReq.version msg) (str "1.0") then ret tt
          else drain fuel' reqBody ;;; serverLoop cut fuel'
      end
  end.

Definition emptyBuf : DynBuf.t := {| DynBuf.data := []; DynBuf.length := 0 |}.

(** [serverClient(conn)]: a fresh buffer, then the loop. *)
Definition serverClient
    (cut : DynBuf.t -> jsres (option HTTPReq.t * DynBuf.t))
    (fuel : nat) (c : TCPConn.t) : outcome unit :=
  serverLoop cut fuel {| conn := c; buf := emptyBuf; heap := [] |}.

Definition freshConn (events : list TCPConn.event) : TCPConn.t :=
  {| TCPConn.err := None; TCPConn.ended := false;
     TCPConn.socket_in := events; TCPConn.socket_out := [];
     TCPConn.reads := 0 |}.

End Server.


(** ** Vocabulary used to state the properties *)

(** The bytes a [DynBuf] currently holds: [buf.data.subarray(0, buf.length)]. *)
Definition valid (b : DynBuf.t) : Buffer :=
  Js.subarray (DynBuf.data b) 0 (DynBuf.length b).

(** A call of [bufPop]: its body has no [throw], and [copyWithin] and the
    subtraction accept any numbers, so the call always completes. *)
Definition bufPop_call (b : DynBuf.t) (len : Z) : jsres DynBuf.t :=
  Ok (BufferUtils.bufPop b len).

Definition digit (c : ascii) : Prop := Js.is_digit c = true.

(** The version syntax [HTTP/<digits>.<digits>], stated on its own. *)
Definition is_http_version (v : JsString) : Prop :=
  exists d1 d2 : list ascii,
    d1 <> [] /\ d2 <> [] /\ Forall digit d1 /\ Forall digit d2
    /\ v = str "HTTP/" ++ d1 ++ ["."%char] ++ d2.

Definition is_400 {A} (r : jsres A) : Prop :=
  exists msg, r = Throw (HTTPError 400 msg).
Definition is_405 {A} (r : jsres A) : Prop :=
  exists msg, r = Throw (HTTPError 405 msg).

(** A reader with nothing left to give. *)
Definition exhausted (rd : BodyReader.t) : Prop :=
  match BodyReader.read rd with
  | BodyReader.FromMemory _ done => done = true
  | BodyReader.FromConnLength remain => remain = 0
  end.

(** [n] successive calls of [read] on the same reader, collecting the chunks. *)
Fixpoint read_n (n : nat) (r : nat) : Server.M (list Buffer) :=
  match n with
  | O => Server.ret []
  | S n' =>
      Server.bind (Server.read r) (fun d =>
      Server.bind (read_n n' r) (fun ds => Server.ret (d :: ds)))
  end.

(** One iteration of the [for] loop of [splitLines], at index [i]. *)
Definition splitLines_step (d : Buffer) (i : nat)
    (st : list Buffer * nat) : list Buffer * nat :=
  let '(lines, start) := st in
  if BufferUtils.byte_is (nth_error d i) LF then
    let end_ :=
      if (0 <? i)%nat && BufferUtils.byte_is (nth_error d (i - 1)) CR
      then (i - 1)%nat else i in
    (lines ++ [Js.subarray d (Z.of_nat start) (Z.of_nat end_)], S i)
  else (lines, start).

(** *** Sample inputs *)

Definition filler (n : Z) : Buffer := repeat "a"%char (Z.to_nat n).

Definition quietConn : TCPConn.t := Server.freshConn [].

(** A world whose only reader is a memory reader that was already read. *)
Definition servedWorld : Server.World :=
  {| Server.conn := quietConn;
     Server.buf := Server.emptyBuf;
     Server.heap :=
       [{| BodyReader.length := 3;
           BodyReader.read := BodyReader.FromMemory (str "abc") true |}] |}.

(** The header block of an echo request announcing a 5-byte body. *)
Definition echoHeader5 : Buffer :=
  str "POST /echo HTTP/1.1" ++ CRLF ++ str "Content-Length: 5" ++ CRLF ++ CRLF.

Definition echoReq5 : HTTPReq.t :=
  {| HTTPReq.method := str "POST";
     HTTPReq.uri := str "/echo";
     HTTPReq.version := str "HTTP/1.1";
     HTTPReq.headers := [str "Content-Length: 5"] |}.

(** The engine's state right after it cut [echoHeader5] out of the buffer
    and built the body reader, when the body has not arrived yet: the
    buffer is logically empty but still holds the 42 bytes of the header,
    and the socket will deliver the two bytes "ab" next. *)
Definition staleWorld : Server.World :=
  {| Server.conn := Server.freshConn [TCPConn.EvData (str "ab")];
     Server.buf := {| DynBuf.data := echoHeader5; DynBuf.length := 0 |};
     Server.heap :=
       [{| BodyReader.length := 5;
           BodyReader.read := BodyReader.FromConnLength 5 |}] |}.

Definition okHeader (n : Z) : Buffer :=
  str "HTTP/1.1 200 OK" ++ CRLF
    ++ str "Server: my_first_http_server" ++ CRLF
    ++ str "Content-Length: " ++ Js.numToString n ++ CRLF.

Definition withBuf (w : Server.World) (b : DynBuf.t) : Server.World :=
  {| Server.conn := Server.conn w; Server.buf := b;
     Server.heap := Server.heap w |}.

(** The locals of [readerFromReq], as functions of the request. *)
Definition contentLen (req : HTTPReq.t) : option Buffer :=
  Server.fieldGet (HTTPReq.headers req) (str "Content-Length").

Definition chunked (req : HTTPReq.t) : bool :=
  match Server.fieldGet (HTTPReq.headers req) (str "Transfer-Encoding") with
  | Some v => beq v (str "chunked")
  | None => false
  end.

Definition bodiless (req : HTTPReq.t) : Prop :=
  HTTPReq.method req = str "GET" \/ HTTPReq.method req = str "HEAD".

(** The reader object [readerFromConnLength(conn, buf, 0)] creates. *)
Definition zeroReader : BodyReader.t :=
  {| BodyReader.length := 0;
     BodyReader.read := BodyReader.FromConnLength 0 |}.

Definition withReader (w : Server.World) (rd : BodyReader.t) : Server.World :=
  {| Server.conn := Server.conn w; Server.buf := Server.buf w;
     Server.heap := Server.heap w ++ [rd] |}.

Definition bodyNotAllowed : JsError :=
  HTTPError 400 (str "HTTP body not allowed.").
Definition badLength : JsError := HTTPError 400 (str "bad Content-Length.").

(** A request with version HTTP/1.1 and a single header line. *)
Definition mkReq (m u h : string) : HTTPReq.t :=
  {| HTTPReq.method := str m; HTTPReq.uri := str u;
     HTTPReq.version := str "HTTP/1.1"; HTTPReq.headers := [str h] |}.

Definition helloReq : HTTPReq.t :=
  {| HTTPReq.method := str "GET"; HTTPReq.uri := str "/hello";
     HTTPReq.version := str "HTTP/1.1"; HTTPReq.headers := [] |}.

Definition helloBody : Buffer := str "hello world." ++ [LF].

(** The engine's state when it calls the handler for [helloReq]: nothing
    buffered, and the request's (empty) body reader at reference 0. *)
Definition helloWorld : Server.World :=
  {| Server.conn := quietConn;
     Server.buf := Server.emptyBuf;
     Server.heap := [zeroReader] |}.

(** An HTTP/1.0 echo request with its 3-byte body, and a second request
    already buffered behind it. *)
Definition http10Input : Buffer :=
  str "POST /echo HTTP/1.0" ++ CRLF ++ str "Content-Length: 3" ++ CRLF ++ CRLF
    ++ str "abc"
    ++ str "GET /hello HTTP/1.0" ++ CRLF ++ CRLF.

(** A request line none of whose bytes is a space or spells a method:
    [GET], the two spaces and nothing else carry the high bit (0xC7 0xC5
    0xD4, 0xA0). *)
Definition highBitLine : Buffer :=
  ["199"%char; "197"%char; "212"%char; "160"%char; "/"%char; "160"%char]
    ++ str "HTTP/1.1".

(** All bytes below 128. *)
Definition sevenBit (b : Buffer) : Prop := Forall (fun c => code c < 128) b.

(** *** Vocabulary for the remaining properties *)

(** The receive buffer's invariant: the logical length lies within the
    array. *)
Definition buf_inv (b : DynBuf.t) : Prop :=
  0 <= DynBuf.length b <= blen (DynBuf.data b).

(** A line held in reverse, without the CR that ends it (if any). *)
Definition dropCR (cur : list ascii) : list ascii :=
  match cur with
  | x :: cur' => if Ascii.eqb x CR then cur' else cur
  | [] => []
  end.

(** Splitting at every LF, by recursion on the bytes: [cur] is the current
    line in reverse; a line ended by LF loses one CR before it; bytes after
    the last LF form a final line when there are any. *)
Fixpoint scanLines (cur rest : list ascii) : list Buffer :=
  match rest with
  | [] =>
      match cur with
      | [] => []
      | _ :: _ => [rev cur]
      end
  | c :: t =>
      if Ascii.eqb c LF then rev (dropCR cur) :: scanLines [] t
      else scanLines (c :: cur) t
  end.

(** A line terminator: CR LF, or a bare LF. *)
Definition eol (crlf : bool) : list ascii := if crlf then CRLF else [LF].

(** Lines written one after the other, each with its terminator. *)
Definition joinLines (ls : list (Buffer * bool)) : Buffer :=
  List.concat (map (fun p => fst p ++ eol (snd p)) ls).

(** A header block on the wire: the request line and every header line
    followed by CR LF, then the empty line. *)
Definition httpBlock (line0 : Buffer) (hs : list Buffer) : Buffer :=
  line0 ++ CRLF ++ List.concat (map (fun h => h ++ CRLF) hs) ++ CRLF.

Definition goodHeader (h : Buffer) : Prop :=
  HttpParser.validateHeader h = true /\ ~ In LF h.

(** An echo request with its body, and the start of a second request
    behind it. *)
Definition pipelined : Buffer :=
  httpBlock (str "POST /echo HTTP/1.1") [str "Content-Length: 5"]
    ++ str "helloGET / HTTP/1.1".

(** The characters of a decimal numeral, most significant digit first. *)
Definition digitsOf (d : Decimal.uint) : list ascii :=
  str (NilEmpty.string_of_uint d).

(** A reader of 5 bytes over a buffer that holds the first three, the
    socket being about to deliver two more. *)
Definition bodyWorld : Server.World :=
  {| Server.conn := Server.freshConn [TCPConn.EvData (str "lo")];
     Server.buf := BufferUtils.bufpush Server.emptyBuf (str "hel");
     Server.heap :=
       [{| BodyReader.length := 5;
           BodyReader.read := BodyReader.FromConnLength 5 |}] |}.

(** [bodyWorld] after one read. *)
Definition bodyWorld1 : Server.World :=
  {| Server.conn := Server.freshConn [TCPConn.EvData (str "lo")];
     Server.buf := {| DynBuf.data := str "hel"; DynBuf.length := 0 |};
     Server.heap :=
       [{| BodyReader.length := 5;
           BodyReader.read := BodyReader.FromConnLength 2 |}] |}.

(** The response with the length header appended, as [writeHTTPResp]
    encodes it. *)
Definition withLength (resp : HTTPRes.t) (n : Z) : HTTPRes.t :=
  {| HTTPRes.code := HTTPRes.code resp;
     HTTPRes.headers :=
       HTTPRes.headers resp ++ [str "Content-Length: " ++ Js.numToString n];
     HTTPRes.body := HTTPRes.body resp |}.

Definition echoResp : HTTPRes.t :=
  {| HTTPRes.code := 200;
     HTTPRes.headers := [str "Server: my_first_http_server"];
     HTTPRes.body := 0%nat |}.

Definition statusLine (code : Z) : JsString :=
  str "HTTP/1.1 " ++ Js.numToString code ++ str " OK".

(** The world after [d] was handed to [socket.write]. *)
Definition wrote (w : Server.World) (d : Buffer) : Server.World :=
  {| Server.conn :=
       {| TCPConn.err := TCPConn.err (Server.conn w);
          TCPConn.ended := TCPConn.ended (Server.conn w);
          TCPConn.socket_in := TCPConn.socket_in (Server.conn w);
          TCPConn.socket_out := TCPConn.socket_out (Server.conn w) ++ [d];
          TCPConn.reads := TCPConn.reads (Server.conn w) |};
     Server.buf := Server.buf w;
     Server.heap := Server.heap w |}.

(** The world after the reader object at [r] changed to [rd]. *)
Definition setReader (w : Server.World) (r : nat) (rd : BodyReader.t)
  : Server.World :=
  {| Server.conn := Server.conn w; Server.buf := Server.buf w;
     Server.heap := Server.update (Server.heap w) r rd |}.

Definition servedReader (B : Buffer) : BodyReader.t :=
  {| BodyReader.length := blen B;
     BodyReader.read := BodyReader.FromMemory B true |}.

(** A complete request with the start of a second one behind it, the
    client having nothing more to send. *)
Definition twoGets : Server.World :=
  {| Server.conn := Server.freshConn [TCPConn.EvEnd];
     Server.buf :=
       BufferUtils.bufpush Server.emptyBuf
         (httpBlock (str "GET / HTTP/1.1") [str "Host: a"]
            ++ str "GET /x HTTP/1.1");
     Server.heap := [] |}.

(** ** Basic facts about the primitives *)

(** *** Numbers: up to [2^53] nothing is rounded *)

Lemma two53_lt_Infinity : Js.two53 < Js.Infinity.
Proof. vm_compute. reflexivity. Qed.

Lemma toDouble_exact (z : Z) : Z.abs z <= Js.two53 -> Js.toDouble z = z.
Proof.
  intros H. pose proof two53_lt_Infinity as HI.
  destruct (Z.eq_dec (Z.abs z) Js.two53) as [E|E].
  - destruct z as [|p|p]; cbn [Z.abs] in E.
    + discriminate.
    + injection E as ->. vm_compute. reflexivity.
    + injection E as ->. vm_compute. reflexivity.
  - unfold Js.toDouble.
    assert (Hl : (Z.log2 (Z.abs z) <? 53) = true).
    { apply Z.ltb_lt. destruct (Z.eq_dec (Z.abs z) 0) as [E0|E0].
      - rewrite E0. reflexivity.
      - apply Z.log2_lt_pow2; [lia|]. fold Js.two53. lia. }
    rewrite Hl. rewrite Z.min_l by lia.
    destruct z; cbn [Z.sgn Z.abs]; lia.
Qed.

Lemma sub_exact (a b : Z) :
  0 <= b <= a -> a <= Js.two53 -> Js.sub a b = a - b.
Proof.
  intros Hb Ha. pose proof two53_lt_Infinity as HI. unfold Js.sub.
  replace (Z.abs a =? Js.Infinity) with false
    by (symmetry; apply Z.eqb_neq; lia).
  apply toDouble_exact. lia.
Qed.

Lemma numToString_exact (n : Z) :
  Z.abs n <= Js.two53 -> Js.numToString n = Js.decimal n.
Proof.
  intros H. unfold Js.numToString.
  apply Z.leb_le in H. rewrite H. reflexivity.
Qed.

(** Beyond [2^53]: [parseInt] rounds (ties to even) and overflows to
    [Infinity]; a template literal prints the shortest digits that read
    back as the same double, in exponent form from [1e21] on. *)
Example parseInt10_rounds :
  Js.parseInt10 (str "9007199254740993") = Some 9007199254740992
  /\ Js.parseInt10 (str "9007199254740995") = Some 9007199254740996
  /\ Js.parseInt10 (str "1" ++ Js.zeros 400) = Some Js.Infinity.
Proof. repeat split; vm_compute; reflexivity. Qed.

Example numToString_large :
  Js.numToString (2 ^ 53) = str "9007199254740992"
  /\ Js.numToString (2 ^ 64) = str "18446744073709552000"
  /\ Js.numToString (10 ^ 21) = str "1e+21"
  /\ Js.numToString (2 ^ 70) = str "1.1805916207174113e+21"
  /\ Js.numToString Js.Infinity = str "Infinity".
Proof. repeat split; vm_compute; reflexivity. Qed.

(** A count above [2^53] does not go down by a small chunk. *)
Example sub_absorbs : Js.sub (2 ^ 60) 5 = 2 ^ 60.
Proof. vm_compute. reflexivity. Qed.


Lemma beq_eq (a b : list ascii) : beq a b = true <-> a = b.
Proof.
  revert b; induction a as [|x a IH]; intros [|y b]; simpl;
    try (split; [discriminate | discriminate]); try tauto.
  rewrite andb_true_iff, Ascii.eqb_eq, IH.
  split; [intros [-> ->]; reflexivity | intros H; inversion H; auto].
Qed.

Lemma beq_refl (a : list ascii) : beq a a = true.
Proof. apply beq_eq; reflexivity. Qed.

Lemma includes_In (l : list JsString) (x : JsString) :
  HttpParser.includes l x = true <-> In x l.
Proof.
  unfold HttpParser.includes. rewrite existsb_exists. split.
  - intros [y [Hin Hy]]. apply beq_eq in Hy. subst; exact Hin.
  - intros Hin. exists x. split; [exact Hin | apply beq_refl].
Qed.

Lemma prefixb_split (p s : list ascii) :
  Js.prefixb p s = true -> s = p ++ skipn (List.length p) s.
Proof.
  revert s; induction p as [|x p IH]; intros s H; simpl in *.
  - reflexivity.
  - destruct s as [|y s]; [discriminate|].
    apply andb_true_iff in H as [Hxy Hp].
    apply Ascii.eqb_eq in Hxy. subst y. simpl. f_equal. apply IH, Hp.
Qed.

Lemma prefixb_app (p s : list ascii) : Js.prefixb p (p ++ s) = true.
Proof.
  induction p as [|x p IH]; simpl; [reflexivity|].
  rewrite Ascii.eqb_refl, IH. reflexivity.
Qed.

Lemma take_drop_while (p : ascii -> bool) (s : list ascii) :
  s = Js.takeWhile p s ++ Js.dropWhile p s.
Proof.
  induction s as [|c s IH]; simpl; [reflexivity|].
  destruct (p c); simpl; [f_equal; exact IH | reflexivity].
Qed.

Lemma takeWhile_all (p : ascii -> bool) (s : list ascii) :
  Forall (fun c => p c = true) (Js.takeWhile p s).
Proof.
  induction s as [|c s IH]; simpl; [constructor|].
  destruct (p c) eqn:E; [constructor; assumption | constructor].
Qed.

Lemma dropWhile_head (p : ascii -> bool) (s : list ascii) c t :
  Js.dropWhile p s = c :: t -> p c = false.
Proof.
  induction s as [|x s IH]; simpl; [discriminate|].
  destruct (p x) eqn:E; [exact IH|].
  intros H; inversion H; subst; exact E.
Qed.

Lemma takeWhile_stop (p : ascii -> bool) (d : list ascii) c t :
  Forall (fun x => p x = true) d -> p c = false ->
  Js.takeWhile p (d ++ c :: t) = d /\ Js.dropWhile p (d ++ c :: t) = c :: t.
Proof.
  intros Hd Hc. induction Hd as [|x d Hx Hd IH]; simpl.
  - rewrite Hc. split; reflexivity.
  - rewrite Hx. destruct IH as [-> ->]. split; reflexivity.
Qed.

Lemma forallb_digit (s : list ascii) :
  forallb Js.is_digit s = true <-> Forall digit s.
Proof.
  rewrite forallb_forall, Forall_forall. unfold digit. tauto.
Qed.

(** The matcher decides exactly the version syntax. *)
Lemma match_version_spec (v : JsString) :
  HttpParser.match_version v = true <-> is_http_version v.
Proof.
  unfold HttpParser.match_version, is_http_version. split.
  - destruct (Js.prefixb (str "HTTP/") v) eqn:Hp; [|discriminate].
    apply prefixb_split in Hp. change (List.length (str "HTTP/")) with 5%nat in Hp.
    set (r := skipn 5 v) in *.
    pose proof (take_drop_while Js.is_digit r) as Hr.
    pose proof (takeWhile_all Js.is_digit r) as Hall.
    destruct (Js.takeWhile Js.is_digit r) as [|a d1] eqn:Ht; [discriminate|].
    destruct (Js.dropWhile Js.is_digit r) as [|dot r2] eqn:Hd; [discriminate|].
    intros H. apply andb_true_iff in H as [H H3].
    apply andb_true_iff in H as [H1 H2].
    apply Ascii.eqb_eq in H1. subst dot.
    exists (a :: d1), r2. repeat split.
    + discriminate.
    + destruct r2; [discriminate | discriminate].
    + exact Hall.
    + apply forallb_digit, H3.
    + rewrite Hp at 1. rewrite Hr. reflexivity.
  - intros (d1 & d2 & Hd1 & Hd2 & Ha1 & Ha2 & ->).
    rewrite prefixb_app.
    change (skipn 5 (str "HTTP/" ++ d1 ++ ["."%char] ++ d2))
      with (d1 ++ "."%char :: d2).
    destruct (takeWhile_stop Js.is_digit d1 "."%char d2 Ha1 eq_refl) as [-> ->].
    destruct d1 as [|a d1]; [contradiction Hd1; reflexivity|].
    destruct d2 as [|b d2]; [contradiction Hd2; reflexivity|].
    apply forallb_digit in Ha2. rewrite Ha2. reflexivity.
Qed.

Lemma is_empty_nil (s : list ascii) : HttpParser.is_empty s = true <-> s = [].
Proof. destruct s; simpl; split; congruence. Qed.

Lemma startsWith_slash (u : JsString) :
  Js.startsWith u (str "/") = true <-> exists t, u = "/"%char :: t.
Proof.
  unfold Js.startsWith. destruct u as [|c t].
  - split; [discriminate | intros [t H]; discriminate].
  - change (Js.prefixb (str "/") (c :: t)) with (Ascii.eqb "/"%char c && true).
    rewrite andb_true_r, Ascii.eqb_eq. split.
    + intros <-. exists t; reflexivity.
    + intros [t' H]. inversion H; reflexivity.
Qed.

(** ** The request line *)

(** Decoding as ['ascii'] changes nothing in a line of bytes below 128. *)
Lemma toString_ascii_sevenBit (b : Buffer) :
  sevenBit b -> Js.toString_ascii b = b.
Proof.
  unfold sevenBit, Js.toString_ascii.
  induction 1 as [|c b Hc Hb IH]; [reflexivity|].
  cbn [map]. rewrite IH. f_equal.
  destruct c as [b0 b1 b2 b3 b4 b5 b6 b7].
  destruct b7; [|reflexivity].
  exfalso. destruct b0, b1, b2, b3, b4, b5, b6; vm_compute in Hc;
    discriminate Hc.
Qed.

(** C5. Classification of a request line by [parseRequestLine].  The line
    is classified as ['ascii'] decoding reads it, the high bit of every
    byte cleared (for a line of bytes below 128 that is the line itself):
    a line that does not split on spaces into exactly three non-empty
    tokens is rejected with 400; with three tokens, an unknown method gives
    405, a target not starting with a slash gives 400, a version outside
    HTTP/<digits>.<digits> gives 400, and in every other case parsing
    succeeds with the three tokens. *)
Theorem parseRequestLine_classification (line : Buffer) :
  let parts := Js.split " "%char (Js.toString_ascii line) in
  (sevenBit line -> Js.toString_ascii line = line)
  /\ (List.length parts <> 3%nat -> is_400 (HttpParser.parseRequestLine line))
  /\ (forall m u v : JsString, parts = [m; u; v] ->
      ((m = [] \/ u = [] \/ v = []) ->
         is_400 (HttpParser.parseRequestLine line))
      /\ (m <> [] -> u <> [] -> v <> [] ->
          (~ In m HttpParser.validMethods ->
             is_405 (HttpParser.parseRequestLine line))
          /\ (In m HttpParser.validMethods ->
              (~ exists t, u = "/"%char :: t) ->
              is_400 (HttpParser.parseRequestLine line))
          /\ (In m HttpParser.validMethods ->
              (exists t, u = "/"%char :: t) ->
              ~ is_http_version v ->
              is_400 (HttpParser.parseRequestLine line))
          /\ (In m HttpParser.validMethods ->
              (exists t, u = "/"%char :: t) ->
              is_http_version v ->
              HttpParser.parseRequestLine line = Ok (m, u, v)))).
Proof.
  intros parts. split; [apply toString_ascii_sevenBit|].
  unfold HttpParser.parseRequestLine. fold parts. split.
  - intros Hlen.
    destruct parts as [|a [|b [|c [|d rest]]]]; simpl in Hlen;
      try (eexists; reflexivity).
    contradiction Hlen; reflexivity.
  - intros m u v ->. split.
    + intros Hempty.
      assert (E : HttpParser.is_empty m || HttpParser.is_empty u
                  || HttpParser.is_empty v = true).
      { destruct Hempty as [-> | [-> | ->]]; simpl;
          rewrite ?orb_true_r; reflexivity. }
      rewrite E. eexists; reflexivity.
    + intros Hm Hu Hv.
      assert (E : HttpParser.is_empty m || HttpParser.is_empty u
                  || HttpParser.is_empty v = false).
      { destruct m; [contradiction Hm; reflexivity|].
        destruct u; [contradiction Hu; reflexivity|].
        destruct v; [contradiction Hv; reflexivity|]. reflexivity. }
      rewrite E. clear E.
      destruct (HttpParser.includes HttpParser.validMethods m) eqn:Hinc.
      * apply includes_In in Hinc.
        destruct (Js.startsWith u (str "/")) eqn:Hs.
        -- apply startsWith_slash in Hs.
           destruct (HttpParser.match_version v) eqn:Hver.
           ++ apply match_version_spec in Hver. simpl.
              repeat split; intros; try contradiction; reflexivity.
           ++ assert (Hn : ~ is_http_version v).
              { intros H. apply match_version_spec in H. congruence. }
              simpl. repeat split; intros; try contradiction.
              eexists; reflexivity.
        -- assert (Hn : ~ exists t, u = "/"%char :: t).
           { intros H. apply startsWith_slash in H. congruence. }
           simpl. repeat split; intros; try contradiction.
           eexists; reflexivity.
      * assert (Hn : ~ In m HttpParser.validMethods).
        { intros H. apply includes_In in H. congruence. }
        simpl. repeat split; intros; try contradiction.
        eexists; reflexivity.
Qed.

Lemma parseRequestLine_classification_witness :
  HttpParser.parseRequestLine (str "GET /hello HTTP/1.1")
  = Ok (str "GET", str "/hello", str "HTTP/1.1").
Proof.
  destruct (parseRequestLine_classification (str "GET /hello HTTP/1.1"))
    as [_ [_ H]].
  destruct (H (str "GET") (str "/hello") (str "HTTP/1.1") eq_refl) as [_ H2].
  destruct H2 as (_ & _ & _ & H3); try discriminate.
  apply H3.
  - simpl. left. reflexivity.
  - exists (str "hello"). reflexivity.
  - exists (str "1"), (str "1"). repeat split; try discriminate.
    + constructor; [reflexivity | constructor].
    + constructor; [reflexivity | constructor].
Defined.

(** C5, as worded for the line itself, fails on bytes that carry the high
    bit: this line holds no space byte, so it is a single token, and its
    first bytes spell no method; the parser clears the high bits and
    accepts it as [GET / HTTP/1.1]. *)
Lemma parseRequestLine_high_bit_counterexample :
  Js.split " "%char highBitLine = [highBitLine]
  /\ HttpParser.includes HttpParser.validMethods (firstn 3 highBitLine) = false
  /\ HttpParser.parseRequestLine highBitLine
     = Ok (str "GET", str "/", str "HTTP/1.1").
Proof. repeat split; vm_compute; reflexivity. Qed.

(** Scenario checks for the request line. *)
Example parseRequestLine_unknown_method :
  is_405 (HttpParser.parseRequestLine (str "FOO / HTTP/1.1")).
Proof. eexists; reflexivity. Qed.

Example parseRequestLine_four_tokens :
  is_400 (HttpParser.parseRequestLine (str "GET / HTTP/1.1 extra")).
Proof. eexists; reflexivity. Qed.

(** ** The receive buffer *)

Lemma blen_nonneg (b : list ascii) : 0 <= blen b.
Proof. unfold blen. lia. Qed.

Lemma clampIndex_range (len r : Z) :
  0 <= len -> 0 <= Js.clampIndex len r <= len.
Proof. unfold Js.clampIndex. destruct (r <? 0) eqn:E; lia. Qed.

Lemma clampIndex_inside (len r : Z) :
  0 <= r <= len -> Js.clampIndex len r = r.
Proof.
  intros H. unfold Js.clampIndex.
  destruct (r <? 0) eqn:E; [apply Z.ltb_lt in E; lia | lia].
Qed.

Lemma subarray_prefix (b : Buffer) (n : Z) :
  0 <= n <= blen b -> Js.subarray b 0 n = firstn (Z.to_nat n) b.
Proof.
  intros H. unfold Js.subarray.
  rewrite (clampIndex_inside (blen b) 0) by lia.
  rewrite (clampIndex_inside (blen b) n) by lia.
  rewrite Z.sub_0_r. reflexivity.
Qed.

Lemma blen_firstn (b : Buffer) (n : Z) :
  0 <= n <= blen b -> blen (firstn (Z.to_nat n) b) = n.
Proof.
  intros H. unfold blen in *. rewrite length_firstn. lia.
Qed.

(** Under the buffer invariant the valid region has [length] bytes. *)
Lemma valid_length (b : DynBuf.t) :
  0 <= DynBuf.length b <= blen (DynBuf.data b) ->
  blen (valid b) = DynBuf.length b.
Proof.
  intros H. unfold valid. rewrite subarray_prefix by exact H.
  apply blen_firstn, H.
Qed.

(** [copyWithin] never changes the size of the array. *)
Lemma copyWithin_length (b : Buffer) (t s e : Z) :
  blen (Js.copyWithin b t s e) = blen b.
Proof.
  unfold Js.copyWithin.
  pose proof (blen_nonneg b) as Hb.
  pose proof (clampIndex_range (blen b) t Hb) as Ht.
  pose proof (clampIndex_range (blen b) s Hb) as Hs.
  pose proof (clampIndex_range (blen b) e Hb) as He.
  set (to := Js.clampIndex (blen b) t) in *.
  set (from := Js.clampIndex (blen b) s) in *.
  set (final := Js.clampIndex (blen b) e) in *.
  destruct (0 <? Z.min (final - from) (blen b - to)) eqn:E; [|reflexivity].
  apply Z.ltb_lt in E. unfold blen in *.
  rewrite !length_app, !length_firstn, !length_skipn. lia.
Qed.

Lemma bufPop_physical_size (b : DynBuf.t) (n : Z) :
  blen (DynBuf.data (BufferUtils.bufPop b n)) = blen (DynBuf.data b).
Proof. apply copyWithin_length. Qed.

(** The shift done by [bufPop] when [n] is within the valid region. *)
Lemma bufPop_valid (b : DynBuf.t) (n : Z) :
  0 <= n <= DynBuf.length b ->
  DynBuf.length b <= blen (DynBuf.data b) ->
  valid (BufferUtils.bufPop b n) = skipn (Z.to_nat n) (valid b).
Proof.
  intros Hn HL. destruct b as [d L]. simpl in *.
  unfold valid; simpl DynBuf.data; simpl DynBuf.length.
  rewrite (subarray_prefix d L) by lia.
  rewrite subarray_prefix by (rewrite copyWithin_length; lia).
  rewrite skipn_firstn_comm.
  unfold Js.copyWithin.
  rewrite (clampIndex_inside (blen d) 0) by lia.
  rewrite (clampIndex_inside (blen d) n) by lia.
  rewrite (clampIndex_inside (blen d) L) by lia.
  rewrite Z.sub_0_r.
  replace (Z.min (L - n) (blen d)) with (L - n) by lia.
  destruct (0 <? L - n) eqn:E.
  - simpl firstn at 2. simpl app.
    rewrite firstn_app.
    replace (Z.to_nat (L - n) - List.length
               (firstn (Z.to_nat (L - n)) (skipn (Z.to_nat n) d)))%nat
      with 0%nat.
    + simpl. rewrite app_nil_r, firstn_firstn.
      replace (Z.to_nat L - Z.to_nat n)%nat with (Z.to_nat (L - n)) by lia.
      f_equal. lia.
    + rewrite length_firstn, length_skipn. unfold blen in *. lia.
  - apply Z.ltb_ge in E. assert (L = n) by lia. subst L.
    rewrite Z.sub_diag, Nat.sub_diag. reflexivity.
Qed.

(** C8 (amended). [bufPop] has no guard: for every buffer and every [n] the
    call completes and the logical length becomes [length - n], which is
    negative when [n] exceeds the logical length; when [n] is at most the
    logical length, the first [n] valid bytes are discarded, the remaining
    ones now start at offset 0, and the logical length has dropped by [n]. *)
Theorem bufPop_behaviour (b : DynBuf.t) (n : Z) :
  (exists b', bufPop_call b n = Ok b'
              /\ DynBuf.length b' = DynBuf.length b - n)
  /\ (DynBuf.length b < n ->
      exists b', bufPop_call b n = Ok b' /\ DynBuf.length b' < 0)
  /\ (0 <= n <= DynBuf.length b ->
      DynBuf.length b <= blen (DynBuf.data b) ->
      exists b', bufPop_call b n = Ok b'
                 /\ valid b' = skipn (Z.to_nat n) (valid b)
                 /\ DynBuf.length b' = DynBuf.length b - n).
Proof.
  split; [|split].
  - exists (BufferUtils.bufPop b n). split; reflexivity.
  - intros H. exists (BufferUtils.bufPop b n). split; [reflexivity|].
    simpl. lia.
  - intros Hn HL. exists (BufferUtils.bufPop b n).
    split; [reflexivity|]. split; [apply bufPop_valid; assumption|].
    reflexivity.
Qed.

Lemma bufPop_behaviour_witness :
  exists b',
    bufPop_call {| DynBuf.data := str "abcdef"; DynBuf.length := 5 |} 2 = Ok b'
    /\ valid b' = str "cde"
    /\ DynBuf.length b' = 3.
Proof.
  destruct (bufPop_behaviour
              {| DynBuf.data := str "abcdef"; DynBuf.length := 5 |} 2)
    as (_ & _ & H).
  destruct H as (b' & H1 & H2 & H3).
  - simpl. lia.
  - vm_compute. discriminate.
  - exists b'. split; [exact H1|]. split; [exact H2 | exact H3].
Defined.

(** C8, as stated, fails: popping 5 bytes from a 3-byte buffer completes and
    leaves the logical length at -2. *)
Lemma bufPop_beyond_length_counterexample :
  DynBuf.length {| DynBuf.data := str "abc"; DynBuf.length := 3 |} < 5
  /\ bufPop_call {| DynBuf.data := str "abc"; DynBuf.length := 3 |} 5
     = Ok {| DynBuf.data := str "abc"; DynBuf.length := -2 |}
  /\ (forall e : JsError,
        bufPop_call {| DynBuf.data := str "abc"; DynBuf.length := 3 |} 5
        <> Throw e).
Proof.
  split; [simpl; lia|]. split; [reflexivity|]. intros e; discriminate.
Qed.

(** ** The message cutter *)

(** C3 (amended). Without the CR LF CR LF terminator in the valid region,
    [cutMessage] fails with 413 exactly when the valid region is strictly
    larger than 8192 bytes; at 8192 bytes or fewer it returns [null] and
    leaves the buffer as it was. *)
Theorem cutMessage_without_terminator (b : DynBuf.t) :
  0 <= DynBuf.length b <= blen (DynBuf.data b) ->
  Js.indexOf (valid b) (CRLF ++ CRLF) < 0 ->
  (8192 < blen (valid b) ->
     HttpParser.cutMessage b
     = Throw (HTTPError 413 (str "Request Entity Too Large")))
  /\ (blen (valid b) <= 8192 -> HttpParser.cutMessage b = Ok (None, b)).
Proof.
  intros Hinv Hidx. rewrite (valid_length b Hinv).
  unfold HttpParser.cutMessage, HttpParser.cutMessage_with.
  fold (valid b). apply Z.ltb_lt in Hidx. rewrite Hidx.
  change HttpParser.kMaxHeaderSize with 8192.
  split; intros H.
  - replace (DynBuf.length b >? 8192) with true; [reflexivity|].
    symmetry. apply Z.gtb_lt. lia.
  - replace (DynBuf.length b >? 8192) with false; [reflexivity|].
    symmetry. rewrite Z.gtb_ltb. apply Z.ltb_ge. lia.
Qed.

Lemma cutMessage_without_terminator_witness :
  HttpParser.cutMessage
    {| DynBuf.data := filler 8193; DynBuf.length := 8193 |}
  = Throw (HTTPError 413 (str "Request Entity Too Large"))
  /\ HttpParser.cutMessage
       {| DynBuf.data := filler 8192; DynBuf.length := 8192 |}
     = Ok (None, {| DynBuf.data := filler 8192; DynBuf.length := 8192 |}).
Proof.
  split.
  - apply (cutMessage_without_terminator
             {| DynBuf.data := filler 8193; DynBuf.length := 8193 |}).
    + vm_compute. split; discriminate.
    + vm_compute. reflexivity.
    + vm_compute. reflexivity.
  - apply (cutMessage_without_terminator
             {| DynBuf.data := filler 8192; DynBuf.length := 8192 |}).
    + vm_compute. split; discriminate.
    + vm_compute. reflexivity.
    + vm_compute. discriminate.
Defined.

(** C3, as stated, fails at the boundary: a valid region of exactly 8192
    bytes without terminator is not rejected. *)
Lemma cutMessage_8192_counterexample :
  blen (valid {| DynBuf.data := filler 8192; DynBuf.length := 8192 |}) = 8192
  /\ Js.indexOf
       (valid {| DynBuf.data := filler 8192; DynBuf.length := 8192 |})
       (CRLF ++ CRLF) < 0
  /\ HttpParser.cutMessage
       {| DynBuf.data := filler 8192; DynBuf.length := 8192 |}
     = Ok (None, {| DynBuf.data := filler 8192; DynBuf.length := 8192 |})
  /\ (forall msg,
        HttpParser.cutMessage
          {| DynBuf.data := filler 8192; DynBuf.length := 8192 |}
        <> Throw (HTTPError 413 msg)).
Proof.
  assert (E : HttpParser.cutMessage
                {| DynBuf.data := filler 8192; DynBuf.length := 8192 |}
              = Ok (None,
                    {| DynBuf.data := filler 8192; DynBuf.length := 8192 |})).
  { vm_compute. reflexivity. }
  split; [vm_compute; reflexivity|].
  split; [vm_compute; reflexivity|].
  split; [exact E|]. intros msg. rewrite E. discriminate.
Qed.

(** ** Body readers *)

Lemma update_same {A} (l : list A) (i : nat) (x : A) :
  nth_error l i = Some x -> Server.update l i x = l.
Proof.
  revert i; induction l as [|y l IH]; intros [|i] H; simpl in *;
    try discriminate.
  - inversion H; reflexivity.
  - f_equal. apply IH, H.
Qed.

(** One read on an exhausted reader: empty chunk, same world. *)
Lemma read_exhausted (w : Server.World) (r : nat) (rd : BodyReader.t) :
  nth_error (Server.heap w) r = Some rd ->
  exhausted rd ->
  Server.read r w = Server.Ret [] w.
Proof.
  intros Hr Hex. unfold Server.read, Server.bind, Server.deref.
  rewrite Hr. destruct rd as [len cl]. unfold exhausted in Hex.
  simpl in Hex. simpl BodyReader.read.
  destruct cl as [d done | remain]; subst.
  - reflexivity.
  - unfold Server.connLength_read. simpl. unfold Server.setClosure.
    rewrite Hr. simpl. rewrite (update_same _ _ _ Hr).
    destruct w; reflexivity.
Qed.

(** C10. Once a body reader is exhausted (memory reader already served, or
    connection-bounded reader with [remain = 0]), any number of further
    reads all return the empty chunk and leave the reader, the buffer and
    the connection exactly as they were. *)
Theorem read_after_exhaustion (w : Server.World) (r : nat)
    (rd : BodyReader.t) (n : nat) :
  nth_error (Server.heap w) r = Some rd ->
  exhausted rd ->
  read_n n r w = Server.Ret (repeat [] n) w.
Proof.
  intros Hr Hex. induction n as [|n IH]; simpl.
  - reflexivity.
  - unfold Server.bind at 1. rewrite (read_exhausted w r rd Hr Hex).
    unfold Server.bind. rewrite IH. reflexivity.
Qed.

Lemma read_after_exhaustion_witness :
  read_n 3 0 servedWorld = Server.Ret [[]; []; []] servedWorld.
Proof.
  apply (read_after_exhaustion servedWorld 0
           {| BodyReader.length := 3;
              BodyReader.read := BodyReader.FromMemory (str "abc") true |} 3).
  - reflexivity.
  - reflexivity.
Defined.

(** A memory reader serves its data once and is exhausted afterwards. *)
Lemma readerFromMemory_first_read (w : Server.World) (r : nat) (d : Buffer)
    (len : Z) :
  nth_error (Server.heap w) r
  = Some {| BodyReader.length := len;
            BodyReader.read := BodyReader.FromMemory d false |} ->
  exists w',
    Server.read r w = Server.Ret d w'
    /\ nth_error (Server.heap w') r
       = Some {| BodyReader.length := len;
                 BodyReader.read := BodyReader.FromMemory d true |}
    /\ Server.conn w' = Server.conn w /\ Server.buf w' = Server.buf w.
Proof.
  intros Hr. unfold Server.read, Server.bind, Server.deref. rewrite Hr.
  simpl. unfold Server.setClosure. rewrite Hr. simpl.
  eexists. split; [reflexivity|]. simpl. split; [|split; reflexivity].
  clear - Hr. revert r Hr. generalize (Server.heap w).
  induction l as [|y l IH]; intros [|r] H; simpl in *; try discriminate.
  - reflexivity.
  - apply IH, H.
Qed.

(** *** The connection-bounded reader *)

(** With bytes in the buffer, a read takes [min(buf.length, remain)] of
    them from the front of the valid region and performs no transport read. *)
Lemma connLength_read_buffered (w : Server.World) (remain : Z) :
  0 < remain ->
  0 < DynBuf.length (Server.buf w) <= blen (DynBuf.data (Server.buf w)) ->
  let c := Z.min (DynBuf.length (Server.buf w)) remain in
  Server.connLength_read remain w
  = Server.Ret (firstn (Z.to_nat c) (valid (Server.buf w)), Js.sub remain c)
      (withBuf w (BufferUtils.bufPop (Server.buf w) c))
  /\ blen (firstn (Z.to_nat c) (valid (Server.buf w))) = c.
Proof.
  intros Hr Hb c. unfold Server.connLength_read.
  replace (remain =? 0) with false by (symmetry; apply Z.eqb_neq; lia).
  cbv [Server.bind Server.getBuf Server.setBuf Server.ret].
  replace (DynBuf.length (Server.buf w) =? 0) with false
    by (symmetry; apply Z.eqb_neq; lia).
  fold c. unfold withBuf. split.
  - f_equal. f_equal. unfold valid.
    rewrite !subarray_prefix by lia.
    rewrite firstn_firstn. f_equal. lia.
  - unfold valid. rewrite subarray_prefix by lia.
    rewrite firstn_firstn. unfold blen in *. rewrite length_firstn. lia.
Qed.

(** C7, evaluated on the code: with the buffer logically empty after the
    header was cut, the transport read delivers 2 bytes, yet the read
    returns 5 bytes, namely the first bytes of the request line that
    [bufPop] left behind in the array and [bufpush] made valid again; the
    echoed body on the wire is those stale bytes. *)
Theorem connLength_read_returns_stale_bytes :
  HttpParser.cutMessage {| DynBuf.data := echoHeader5; DynBuf.length := 42 |}
  = Ok (Some echoReq5, {| DynBuf.data := echoHeader5; DynBuf.length := 0 |})
  /\ (exists w',
        Server.read 0 staleWorld = Server.Ret (str "POST ") w'
        /\ TCPConn.reads (Server.conn w') = 1%nat
        /\ DynBuf.length (Server.buf w') = 39
        /\ Server.heap w'
           = [{| BodyReader.length := 5;
                 BodyReader.read := BodyReader.FromConnLength 0 |}])
  /\ (exists e w',
        Server.serverClient HttpParser.cutMessage 20
          (Server.freshConn
             [TCPConn.EvData echoHeader5; TCPConn.EvData (str "ab");
              TCPConn.EvData (str "cde"); TCPConn.EvEnd])
        = Server.Raise e w'
        /\ TCPConn.socket_out (Server.conn w') = [okHeader 5; str "POST "]).
Proof.
  split; [vm_compute; reflexivity|]. split.
  - eexists. split; [vm_compute; reflexivity|].
    simpl. repeat split; reflexivity.
  - eexists. eexists. split; [vm_compute; reflexivity|].
    vm_compute. reflexivity.
Qed.

(** *** Where the connection-bounded reader does what is expected *)

Lemma soRead_frame (w w1 : Server.World) (d : Buffer) :
  Server.soRead w = Server.Ret d w1 ->
  Server.buf w1 = Server.buf w
  /\ Server.heap w1 = Server.heap w
  /\ TCPConn.reads (Server.conn w1) = S (TCPConn.reads (Server.conn w)).
Proof.
  destruct w as [[e en sin sout rds] b h].
  unfold Server.soRead, Server.bind, Server.getConn, Server.setConn.
  cbn. destruct e as [e|]; [discriminate|].
  destruct en.
  - intros H; inversion H; subst; cbn; repeat split; reflexivity.
  - destruct sin as [|[d'| |] rest]; try discriminate;
      intros H; inversion H; subst; cbn; repeat split; reflexivity.
Qed.

(** When the array holds nothing beyond its valid region, refilling an
    empty buffer behaves as expected: one transport read; end of stream is
    an error; otherwise the chunk is the first [min(|d|, remain)] bytes of
    what was just read. *)
Lemma connLength_read_refill_compact (w w1 : Server.World) (remain : Z)
    (d : Buffer) :
  0 < remain ->
  Server.buf w = Server.emptyBuf ->
  Server.soRead w = Server.Ret d w1 ->
  TCPConn.reads (Server.conn w1) = S (TCPConn.reads (Server.conn w))
  /\ (blen d = 0 ->
      exists w', Server.connLength_read remain w
                 = Server.Raise Server.unexpectedEOF w')
  /\ (0 < blen d ->
      exists w',
        Server.connLength_read remain w
        = Server.Ret (firstn (Z.to_nat (Z.min (blen d) remain)) d,
                      Js.sub remain (Z.min (blen d) remain)) w'
        /\ valid (Server.buf w')
           = skipn (Z.to_nat (Z.min (blen d) remain)) d).
Proof.
  intros Hr Hb Hread.
  destruct (soRead_frame w w1 d Hread) as (Hb1 & _ & Hreads).
  split; [exact Hreads|].
  assert (E : Server.connLength_read remain w
              = if blen d =? 0
                then Server.Raise Server.unexpectedEOF
                       (withBuf w1 {| DynBuf.data := d;
                                      DynBuf.length := blen d |})
                else Server.Ret
                       (Js.subarray d 0 (Z.min (blen d) remain),
                        Js.sub remain (Z.min (blen d) remain))
                       (withBuf w1
                          (BufferUtils.bufPop
                             {| DynBuf.data := d; DynBuf.length := blen d |}
                             (Z.min (blen d) remain)))).
  { unfold Server.connLength_read.
    replace (remain =? 0) with false by (symmetry; apply Z.eqb_neq; lia).
    cbv [Server.bind Server.getBuf]. rewrite Hb.
    change (DynBuf.length Server.emptyBuf =? 0) with true. cbv iota.
    cbv beta. rewrite Hread.
    change (BufferUtils.bufpush Server.emptyBuf d)
      with {| DynBuf.data := d; DynBuf.length := blen d |}.
    cbv [Server.setBuf].
    destruct (blen d =? 0); reflexivity. }
  rewrite E. split.
  - intros Hz. rewrite Hz. eexists; reflexivity.
  - intros Hpos.
    replace (blen d =? 0) with false by (symmetry; apply Z.eqb_neq; lia).
    eexists. split.
    + f_equal. f_equal. apply subarray_prefix. lia.
    + cbn [withBuf Server.buf].
      rewrite (bufPop_valid {| DynBuf.data := d; DynBuf.length := blen d |})
        by (cbn; lia).
      unfold valid. cbn [DynBuf.data DynBuf.length].
      rewrite subarray_prefix by lia.
      rewrite firstn_all2 by (unfold blen; lia). reflexivity.
Qed.

(** ** Choosing the body reader *)

Lemma method_test (req : HTTPReq.t) :
  beq (HTTPReq.method req) (str "GET") || beq (HTTPReq.method req) (str "HEAD")
  = true <-> bodiless req.
Proof.
  unfold bodiless. rewrite orb_true_iff, !beq_eq. tauto.
Qed.

Lemma method_test_false (req : HTTPReq.t) :
  ~ bodiless req ->
  beq (HTTPReq.method req) (str "GET") || beq (HTTPReq.method req) (str "HEAD")
  = false.
Proof.
  intros H. apply not_true_is_false. intros E. apply method_test in E.
  contradiction.
Qed.

(** [readerFromReq] as one case analysis on its locals. *)
Lemma readerFromReq_cases (req : HTTPReq.t) (w : Server.World) :
  Server.readerFromReq req w
  = let forbidden :=
      beq (HTTPReq.method req) (str "GET")
      || beq (HTTPReq.method req) (str "HEAD") in
    let decide (bodyLen : Z) :=
      if forbidden && ((bodyLen >? 0) || chunked req)
      then Server.Raise bodyNotAllowed w
      else if (if forbidden then 0 else bodyLen) >=? 0
           then Server.Ret (List.length (Server.heap w))
                  (withReader w
                     {| BodyReader.length := if forbidden then 0 else bodyLen;
                        BodyReader.read :=
                          BodyReader.FromConnLength
                            (if forbidden then 0 else bodyLen) |})
           else if chunked req
                then Server.Raise
                       (HTTPError 501 (str "TODO: chunked encoding")) w
                else Server.Raise
                       (HTTPError 501 (str "TODO: read until EOF")) w in
    match contentLen req with
    | Some v =>
        match Server.parseDec v with
        | None => Server.Raise badLength w
        | Some n => decide n
        end
    | None => decide (-1)
    end.
Proof.
  unfold Server.readerFromReq, contentLen, chunked, Js.toString_latin1.
  cbv zeta.
  destruct (Server.fieldGet (HTTPReq.headers req) (str "Content-Length"))
    as [v|]; [destruct (Server.parseDec v) as [n|]|];
    cbv [Server.bind Server.ret Server.throw]; try reflexivity;
    rewrite negb_involutive;
    match goal with
    | |- context [?a && ?b] => destruct (a && b); [reflexivity|]
    end;
    destruct (beq (HTTPReq.method req) (str "GET")
              || beq (HTTPReq.method req) (str "HEAD"));
    cbv [negb];
    match goal with
    | |- context [?a >=? 0] => destruct (a >=? 0); try reflexivity
    end;
    match goal with
    | |- context [if ?c then _ else _] => destruct c; reflexivity
    end.
Qed.




(** The same missing check as in the next theorem, seen from GET: a negative
    declared length is neither rejected nor counted as a body. *)
Lemma readerFromReq_get_negative_length (w : Server.World) :
  Server.readerFromReq (mkReq "GET" "/" "Content-Length: -1") w
  = Server.Ret (List.length (Server.heap w)) (withReader w zeroReader).
Proof. rewrite readerFromReq_cases. reflexivity. Qed.

(** C2, evaluated on the code: [parseInt] reads "-1" as the number -1, which
    is not [NaN], so the "bad length" check lets it through; the value then
    coincides with the "unknown length" marker and the request ends in the
    501 "read until EOF" branch. *)
Theorem readerFromReq_negative_length_not_rejected :
  HttpParser.parseHTTPReq
    (str "POST /echo HTTP/1.1" ++ CRLF ++ str "Content-Length: -1" ++ CRLF
       ++ CRLF)
  = Ok (mkReq "POST" "/echo" "Content-Length: -1")
  /\ contentLen (mkReq "POST" "/echo" "Content-Length: -1")
     = Some (str "-1")
  /\ Server.parseDec (str "-1") = Some (-1)
  /\ (forall w : Server.World,
        Server.readerFromReq (mkReq "POST" "/echo" "Content-Length: -1") w
        = Server.Raise (HTTPError 501 (str "TODO: read until EOF")) w).
Proof.
  split; [vm_compute; reflexivity|].
  split; [vm_compute; reflexivity|].
  split; [vm_compute; reflexivity|].
  intros w. rewrite readerFromReq_cases. reflexivity.
Qed.

(** What the check does catch: a value with no leading digits. *)
Lemma readerFromReq_unparsable_length (req : HTTPReq.t) (w : Server.World)
    (v : Buffer) :
  contentLen req = Some v -> Server.parseDec v = None ->
  Server.readerFromReq req w = Server.Raise badLength w.
Proof.
  intros Hv Hp. rewrite readerFromReq_cases. cbv zeta. rewrite Hv, Hp.
  reflexivity.
Qed.

(** ** Writing the response *)

Lemma join_lines (x : JsString) (hs : list JsString) :
  Js.join CRLF (x :: hs ++ [[]])
  = x ++ CRLF ++ List.concat (map (fun h => h ++ CRLF) hs).
Proof.
  revert x; induction hs as [|h hs IH]; intros x.
  - reflexivity.
  - change (Js.join CRLF (x :: (h :: hs) ++ [[]]))
      with (x ++ CRLF ++ Js.join CRLF (h :: hs ++ [[]])).
    rewrite IH. simpl. rewrite <- !app_assoc. reflexivity.
Qed.

(** The bytes [encodeHTTPResp] produces: the status line and every header
    line, each followed by one CR LF, and nothing after the last of them. *)
Lemma encodeHTTPResp_shape (resp : HTTPRes.t) :
  Server.encodeHTTPResp resp
  = (str "HTTP/1.1 " ++ Js.numToString (HTTPRes.code resp) ++ str " OK")
      ++ CRLF
      ++ List.concat (map (fun h => h ++ CRLF) (HTTPRes.headers resp)).
Proof.
  unfold Server.encodeHTTPResp, Js.from_latin1, Js.toString_latin1.
  rewrite map_id. apply join_lines.
Qed.

Lemma soWrite_ok (w : Server.World) (d : Buffer) :
  TCPConn.err (Server.conn w) = None ->
  exists w',
    Server.soWrite d w = Server.Ret tt w'
    /\ TCPConn.socket_out (Server.conn w')
       = TCPConn.socket_out (Server.conn w) ++ [d]
    /\ Server.heap w' = Server.heap w
    /\ TCPConn.err (Server.conn w') = None.
Proof.
  intros He. destruct w as [[e en sin sout rds] b h].
  simpl in He. subst e.
  eexists. split; [reflexivity|]. simpl. repeat split; reflexivity.
Qed.

(** The body loop on a fresh memory reader: one chunk (none when the data
    is empty), then the empty read that ends the loop. *)
Lemma writeBody_memory (w : Server.World) (r : nat) (B : Buffer) (len : Z)
    (fuel : nat) :
  nth_error (Server.heap w) r
  = Some {| BodyReader.length := len;
            BodyReader.read := BodyReader.FromMemory B false |} ->
  TCPConn.err (Server.conn w) = None ->
  exists w',
    Server.writeBody (S (S fuel)) r w = Server.Ret tt w'
    /\ TCPConn.socket_out (Server.conn w')
       = TCPConn.socket_out (Server.conn w)
           ++ (if blen B =? 0 then [] else [B]).
Proof.
  intros Hr He.
  destruct (readerFromMemory_first_read w r B len Hr)
    as (w1 & Hread & Hr1 & Hc1 & _).
  change (Server.writeBody (S (S fuel)) r)
    with (Server.bind (Server.read r) (fun d =>
            if blen d =? 0 then Server.ret tt
            else Server.bind (Server.soWrite d)
                   (fun _ => Server.writeBody (S fuel) r))).
  unfold Server.bind at 1. rewrite Hread.
  destruct (blen B =? 0) eqn:E.
  - exists w1. split; [reflexivity|]. rewrite Hc1, app_nil_r. reflexivity.
  - destruct (soWrite_ok w1 B) as (w2 & Hw & Hout & Hheap & He2).
    { rewrite Hc1. exact He. }
    unfold Server.bind at 1. rewrite Hw.
    change (Server.writeBody (S fuel) r)
      with (Server.bind (Server.read r) (fun d =>
              if blen d =? 0 then Server.ret tt
              else Server.bind (Server.soWrite d)
                     (fun _ => Server.writeBody fuel r))).
    unfold Server.bind at 1.
    rewrite (read_exhausted w2 r
               {| BodyReader.length := len;
                  BodyReader.read := BodyReader.FromMemory B true |}).
    + exists w2. split; [reflexivity|]. rewrite Hout, Hc1. reflexivity.
    + rewrite Hheap. exact Hr1.
    + reflexivity.
Qed.

(** What [writeHTTPResp] puts on the wire for a fresh memory reader over
    [B]: one header chunk carrying the handler's header lines followed by
    the computed length line, then [B]. *)
Lemma writeHTTPResp_memory (w : Server.World) (resp : HTTPRes.t)
    (B : Buffer) (fuel : nat) :
  nth_error (Server.heap w) (HTTPRes.body resp)
  = Some {| BodyReader.length := blen B;
            BodyReader.read := BodyReader.FromMemory B false |} ->
  TCPConn.err (Server.conn w) = None ->
  exists w',
    Server.writeHTTPResp (S (S fuel)) resp w = Server.Ret tt w'
    /\ TCPConn.socket_out (Server.conn w')
       = TCPConn.socket_out (Server.conn w)
           ++ [(str "HTTP/1.1 " ++ Js.numToString (HTTPRes.code resp)
                  ++ str " OK") ++ CRLF
               ++ List.concat
                    (map (fun h => h ++ CRLF) (HTTPRes.headers resp))
               ++ (str "Content-Length: " ++ Js.numToString (blen B))
               ++ CRLF]
           ++ (if blen B =? 0 then [] else [B]).
Proof.
  intros Hr He.
  unfold Server.writeHTTPResp.
  unfold Server.bind at 1. unfold Server.deref. rewrite Hr.
  cbn [BodyReader.length].
  replace (blen B <? 0) with false
    by (symmetry; apply Z.ltb_ge; apply blen_nonneg).
  rewrite encodeHTTPResp_shape. cbn [HTTPRes.code HTTPRes.headers HTTPRes.body].
  match goal with
  | |- context [Server.soWrite ?d] =>
      destruct (soWrite_ok w d He) as (w1 & Hw & Hout & Hheap & He1)
  end.
  unfold Server.bind at 1. rewrite Hw.
  destruct (writeBody_memory w1 (HTTPRes.body resp) B (blen B) fuel)
    as (w2 & Hb & Hout2); [rewrite Hheap; exact Hr | exact He1 |].
  exists w2. split; [exact Hb|].
  rewrite Hout2, Hout, <- (app_assoc (TCPConn.socket_out (Server.conn w))).
  rewrite map_app, concat_app.
  change (List.concat
            (map (fun h : list ascii => h ++ CRLF)
               [str "Content-Length: " ++ Js.numToString (blen B)]))
    with (((str "Content-Length: " ++ Js.numToString (blen B)) ++ CRLF) ++ []).
  rewrite app_nil_r. reflexivity.
Qed.

(** C9, evaluated on the code: for the handler's default response the
    stream carries the status code, the handler's header line, the computed
    length 13 and then the 13 body bytes, but no blank line: the header
    chunk ends after the single CR LF of the length line, and CR LF CR LF
    occurs nowhere in what was written. *)
Theorem writeHTTPResp_omits_blank_line :
  exists resp w1 w2,
    Server.handleReq helloReq 0 helloWorld = Server.Ret resp w1
    /\ HTTPRes.code resp = 200
    /\ HTTPRes.headers resp = [str "Server: my_first_http_server"]
    /\ Server.writeHTTPResp 5 resp w1 = Server.Ret tt w2
    /\ TCPConn.socket_out (Server.conn w2) = [okHeader 13; helloBody]
    /\ blen helloBody = 13
    /\ Js.indexOf (List.concat (TCPConn.socket_out (Server.conn w2)))
         (CRLF ++ CRLF) = -1.
Proof.
  eexists. eexists. eexists.
  split; [vm_compute; reflexivity|].
  split; [reflexivity|]. split; [reflexivity|].
  split; [vm_compute; reflexivity|].
  split; [vm_compute; reflexivity|].
  split; vm_compute; reflexivity.
Qed.

(** ** The connection loop *)

(** A version accepted by [parseRequestLine] is never the string "1.0":
    it always carries the "HTTP/" prefix. *)
Lemma parseRequestLine_version_not_1_0 (line : Buffer) (m : JsString)
    (u : Buffer) (v : JsString) :
  HttpParser.parseRequestLine line = Ok (m, u, v) ->
  beq v (str "1.0") = false.
Proof.
  unfold HttpParser.parseRequestLine.
  destruct (Js.split " "%char (Js.toString_ascii line))
    as [|a [|b [|c [|d rest]]]]; try discriminate.
  destruct (HttpParser.is_empty a || HttpParser.is_empty b
            || HttpParser.is_empty c); [discriminate|].
  destruct (negb (HttpParser.includes HttpParser.validMethods a));
    [discriminate|].
  destruct (negb (Js.startsWith b (str "/"))); [discriminate|].
  destruct (HttpParser.match_version c) eqn:Hv; [|discriminate].
  intros H. inversion H; subst. clear H.
  unfold HttpParser.match_version in Hv.
  destruct (Js.prefixb (str "HTTP/") v) eqn:Hp; [|discriminate].
  apply prefixb_split in Hp. rewrite Hp. reflexivity.
Qed.

Lemma parseHTTPReq_version_not_1_0 (d : Buffer) (req : HTTPReq.t) :
  HttpParser.parseHTTPReq d = Ok req ->
  beq (HTTPReq.version req) (str "1.0") = false.
Proof.
  unfold HttpParser.parseHTTPReq.
  destruct (BufferUtils.splitLines d) as [|l0 rest]; [discriminate|].
  destruct (HttpParser.parseRequestLine l0) as [[[m u] v]|e] eqn:Hl;
    [|discriminate].
  unfold jbind.
  destruct (HttpParser.collectHeaders rest []) as [hs|e]; [|discriminate].
  intros H. inversion H; subst. simpl.
  apply (parseRequestLine_version_not_1_0 l0 m u v Hl).
Qed.

(** Whatever [cutMessage] returns as a message, the loop's test
    [msg.version === '1.0'] is false on it. *)
Lemma cutMessage_version_not_1_0 (b b' : DynBuf.t) (msg : HTTPReq.t) :
  HttpParser.cutMessage b = Ok (Some msg, b') ->
  beq (HTTPReq.version msg) (str "1.0") = false.
Proof.
  unfold HttpParser.cutMessage, HttpParser.cutMessage_with.
  destruct (Js.indexOf _ _ <? 0).
  - destruct (DynBuf.length b >? HttpParser.kMaxHeaderSize); discriminate.
  - destruct (HttpParser.parseHTTPReq _) as [req|e] eqn:Hp; [|discriminate].
    simpl. intros H. inversion H; subst.
    apply (parseHTTPReq_version_not_1_0 _ _ Hp).
Qed.

(** C1, evaluated on the code: the version stored for an HTTP/1.0 request
    line is "HTTP/1.0", which the loop compares with "1.0"; the connection
    is therefore kept, and the request buffered behind the first one gets a
    response of its own. *)
Theorem serverClient_http10_keeps_serving :
  HttpParser.parseRequestLine (str "POST /echo HTTP/1.0")
  = Ok (str "POST", str "/echo", str "HTTP/1.0")
  /\ beq (str "HTTP/1.0") (str "1.0") = false
  /\ (exists w,
        Server.serverClient HttpParser.cutMessage 20
          (Server.freshConn [TCPConn.EvData http10Input; TCPConn.EvEnd])
        = Server.Ret tt w
        /\ TCPConn.socket_out (Server.conn w)
           = [okHeader 3; str "abc"; okHeader 13; helloBody]).
Proof.
  split; [vm_compute; reflexivity|].
  split; [reflexivity|].
  eexists. split; vm_compute; reflexivity.
Qed.

(** ** The two copies of [parseHTTPReq] *)

Lemma validateHeader_empty : HttpParser.validateHeader [] = false.
Proof. reflexivity. Qed.

Lemma dist_collectHeaders_empty_line (lines acc : list Buffer) :
  In [] lines ->
  exists e, DistHttpParser.collectHeaders lines acc = Throw e.
Proof.
  revert acc; induction lines as [|h lines IH]; intros acc Hin.
  - contradiction.
  - simpl. unfold DistHttpParser.validateHeader.
    destruct (HttpParser.validateHeader h) eqn:Hv; simpl.
    + destruct Hin as [-> | Hin].
      * rewrite validateHeader_empty in Hv. discriminate.
      * apply IH, Hin.
    + eexists; reflexivity.
Qed.

(** The compiled copy accepts no header block in which an empty line
    follows the request line. *)
Lemma dist_parseHTTPReq_rejects_empty_line (d : Buffer) (req : HTTPReq.t) :
  In [] (tl (BufferUtils.splitLines d)) ->
  DistHttpParser.parseHTTPReq d <> Ok req.
Proof.
  intros Hin. unfold DistHttpParser.parseHTTPReq.
  destruct (BufferUtils.splitLines d) as [|l0 rest]; [discriminate|].
  simpl in Hin. unfold jbind.
  destruct (DistHttpParser.parseRequestLine l0) as [[[m u] v]|e];
    [|discriminate].
  destruct (dist_collectHeaders_empty_line rest [] Hin) as [e He].
  rewrite He. discriminate.
Qed.

(** *** The compiled parser and the blank line *)

Lemma splitLines_loop_last (d : Buffer) (k i start : nat)
    (lines : list Buffer) :
  BufferUtils.splitLines_loop d (S k) i start lines
  = splitLines_step d (i + k)
      (BufferUtils.splitLines_loop d k i start lines).
Proof.
  revert i start lines. induction k as [|k IH]; intros i start lines.
  - simpl. rewrite Nat.add_0_r.
    destruct (BufferUtils.byte_is (nth_error d i) LF); reflexivity.
  - change (BufferUtils.splitLines_loop d (S (S k)) i start lines)
      with (if BufferUtils.byte_is (nth_error d i) LF then
              BufferUtils.splitLines_loop d (S k) (S i) (S i)
                (lines ++
                 [Js.subarray d (Z.of_nat start)
                    (Z.of_nat
                       (if (0 <? i)%nat
                           && BufferUtils.byte_is (nth_error d (i - 1)) CR
                        then (i - 1)%nat else i))])
            else BufferUtils.splitLines_loop d (S k) (S i) start lines).
    change (BufferUtils.splitLines_loop d (S k) i start lines)
      with (if BufferUtils.byte_is (nth_error d i) LF then
              BufferUtils.splitLines_loop d k (S i) (S i)
                (lines ++
                 [Js.subarray d (Z.of_nat start)
                    (Z.of_nat
                       (if (0 <? i)%nat
                           && BufferUtils.byte_is (nth_error d (i - 1)) CR
                        then (i - 1)%nat else i))])
            else BufferUtils.splitLines_loop d k (S i) start lines).
    replace (i + S k)%nat with (S i + k)%nat by lia.
    destruct (BufferUtils.byte_is (nth_error d i) LF); apply IH.
Qed.

Lemma subarray_empty (d : Buffer) (s : Z) : Js.subarray d s s = [].
Proof. unfold Js.subarray. rewrite Z.sub_diag. reflexivity. Qed.

Lemma nth_error_tail4 (p : Buffer) (a b c e : ascii) :
  nth_error (p ++ [a; b; c; e]) (List.length p + 1) = Some b
  /\ nth_error (p ++ [a; b; c; e]) (List.length p + 2) = Some c
  /\ nth_error (p ++ [a; b; c; e]) (List.length p + 3) = Some e.
Proof.
  repeat split; rewrite nth_error_app2 by lia.
  - replace (List.length p + 1 - List.length p)%nat with 1%nat by lia.
    reflexivity.
  - replace (List.length p + 2 - List.length p)%nat with 2%nat by lia.
    reflexivity.
  - replace (List.length p + 3 - List.length p)%nat with 3%nat by lia.
    reflexivity.
Qed.

(** A block that ends with CR LF CR LF always splits into lines the last of
    which is empty and is not the request line. *)
Lemma splitLines_terminated (p : Buffer) :
  exists (l0 : list Buffer) (line : Buffer),
    BufferUtils.splitLines (p ++ CRLF ++ CRLF) = l0 ++ [line; []].
Proof.
  set (d := p ++ CRLF ++ CRLF).
  assert (Hlen : List.length d = S (S (S (List.length p + 1)))).
  { unfold d. rewrite length_app. simpl. lia. }
  destruct (nth_error_tail4 p CR LF CR LF) as (H1 & H2 & H3).
  change (p ++ [CR; LF; CR; LF]) with d in H1, H2, H3.
  unfold BufferUtils.splitLines. rewrite Hlen.
  rewrite splitLines_loop_last, splitLines_loop_last, splitLines_loop_last.
  destruct (BufferUtils.splitLines_loop d (List.length p + 1) 0 0 [])
    as [l0 s0].
  simpl Nat.add.
  unfold splitLines_step at 3. rewrite H1.
  change (BufferUtils.byte_is (Some LF) LF) with true. cbv iota.
  unfold splitLines_step at 2.
  replace (S (List.length p + 1)) with (List.length p + 2)%nat by lia.
  rewrite H2. change (BufferUtils.byte_is (Some CR) LF) with false. cbv iota.
  unfold splitLines_step.
  replace (S (List.length p + 2)) with (List.length p + 3)%nat by lia.
  rewrite H3. change (BufferUtils.byte_is (Some LF) LF) with true. cbv iota.
  replace (List.length p + 3 - 1)%nat with (List.length p + 2)%nat by lia.
  rewrite H2. change (BufferUtils.byte_is (Some CR) CR) with true.
  replace (0 <? List.length p + 3)%nat with true
    by (symmetry; apply Nat.ltb_lt; lia).
  cbv iota. simpl andb. cbv iota.
  rewrite subarray_empty.
  replace (S (List.length p + 3) <? S (List.length p + 3))%nat with false
    by (symmetry; apply Nat.ltb_ge; lia).
  eexists. eexists. rewrite <- app_assoc. reflexivity.
Qed.

(** Hence the compiled [parseHTTPReq] accepts no terminated block at all. *)
Lemma dist_parseHTTPReq_rejects_terminated (p : Buffer) (req : HTTPReq.t) :
  DistHttpParser.parseHTTPReq (p ++ CRLF ++ CRLF) <> Ok req.
Proof.
  apply dist_parseHTTPReq_rejects_empty_line.
  destruct (splitLines_terminated p) as (l0 & line & ->).
  destruct l0 as [|x l0]; simpl.
  - left; reflexivity.
  - apply in_or_app. right. right. left. reflexivity.
Qed.

Lemma prefixb_nil (needle : list ascii) :
  Js.prefixb needle [] = true -> needle = [].
Proof. destruct needle; [reflexivity | discriminate]. Qed.

(** A non-negative result of [indexOf] points at an occurrence. *)
Lemma indexOf_from_found (hay needle : list ascii) (i : Z) :
  0 <= i -> 0 <= Js.indexOf_from hay needle i ->
  exists pre post,
    hay = pre ++ needle ++ post
    /\ Js.indexOf_from hay needle i = i + blen pre.
Proof.
  revert i. induction hay as [|c t IH]; intros i Hi; simpl.
  - destruct (Js.prefixb needle []) eqn:Hp; [|lia].
    intros _. apply prefixb_nil in Hp. subst.
    exists [], []. split; [reflexivity | unfold blen; simpl; lia].
  - destruct (Js.prefixb needle (c :: t)) eqn:Hp.
    + intros _. apply prefixb_split in Hp.
      exists [], (skipn (List.length needle) (c :: t)).
      split; [exact Hp | unfold blen; simpl; lia].
    + intros H. destruct (IH (i + 1)) as (pre & post & Ht & Hidx);
        [lia | exact H |].
      exists (c :: pre), post. split.
      * simpl. f_equal. exact Ht.
      * rewrite Hidx. unfold blen. simpl List.length. lia.
Qed.

(** The compiled [cutMessage] never hands a request to the server: without
    terminator it has nothing to parse, and with one its parser throws. *)
Lemma dist_cutMessage_never_delivers (b b' : DynBuf.t) (msg : HTTPReq.t) :
  0 <= DynBuf.length b <= blen (DynBuf.data b) ->
  DistHttpParser.cutMessage b <> Ok (Some msg, b').
Proof.
  intros Hinv.
  unfold DistHttpParser.cutMessage, HttpParser.cutMessage_with.
  fold (valid b).
  destruct (Js.indexOf (valid b) (CRLF ++ CRLF) <? 0) eqn:Hneg.
  - destruct (DynBuf.length b >? HttpParser.kMaxHeaderSize); discriminate.
  - apply Z.ltb_ge in Hneg. unfold Js.indexOf in *.
    destruct (indexOf_from_found (valid b) (CRLF ++ CRLF) 0)
      as (pre & post & Hv & Hidx); [lia | exact Hneg |].
    rewrite Hidx. rewrite Z.add_0_l.
    assert (Hvalid : valid b
                     = firstn (Z.to_nat (DynBuf.length b)) (DynBuf.data b)).
    { unfold valid. apply subarray_prefix. exact Hinv. }
    assert (Hlen : blen pre + 4 <= DynBuf.length b).
    { rewrite <- (valid_length b Hinv), Hv. unfold blen.
      rewrite !length_app. simpl. lia. }
    assert (Hcut : Js.subarray (DynBuf.data b) 0 (blen pre + 4)
                   = pre ++ CRLF ++ CRLF).
    { pose proof (blen_nonneg pre).
      rewrite subarray_prefix by lia.
      replace (Z.to_nat (blen pre + 4))
        with (Nat.min (Z.to_nat (blen pre + 4))
                (Z.to_nat (DynBuf.length b))) by lia.
      rewrite <- firstn_firstn, <- Hvalid, Hv.
      replace (Z.to_nat (blen pre + 4)) with (List.length pre + 4)%nat
        by (unfold blen; lia).
      rewrite firstn_app_2. reflexivity. }
    rewrite Hcut. unfold jbind.
    destruct (DistHttpParser.parseHTTPReq (pre ++ CRLF ++ CRLF)) as [r|e] eqn:E.
    + exfalso. exact (dist_parseHTTPReq_rejects_terminated pre r E).
    + discriminate.
Qed.

(** C4, evaluated on the code: on the smallest standard header block the
    TypeScript parser returns the request, while the compiled one throws
    400 on the empty line that ends the block; a server linked with the
    compiled parser answers nothing. *)
Theorem parseHTTPReq_copies_disagree :
  HttpParser.parseHTTPReq (str "GET /hello HTTP/1.1" ++ CRLF ++ CRLF)
  = Ok helloReq
  /\ DistHttpParser.parseHTTPReq (str "GET /hello HTTP/1.1" ++ CRLF ++ CRLF)
     = Throw (HttpParser.badHeader [])
  /\ BufferUtils.splitLines (str "GET /hello HTTP/1.1" ++ CRLF ++ CRLF)
     = [str "GET /hello HTTP/1.1"; []]
  /\ (exists w,
        Server.serverClient DistHttpParser.cutMessage 20
          (Server.freshConn
             [TCPConn.EvData (str "GET /hello HTTP/1.1" ++ CRLF ++ CRLF);
              TCPConn.EvEnd])
        = Server.Raise (HttpParser.badHeader []) w
        /\ TCPConn.socket_out (Server.conn w) = []).
Proof.
  split; [vm_compute; reflexivity|].
  split; [vm_compute; reflexivity|].
  split; [vm_compute; reflexivity|].
  eexists. split; vm_compute; reflexivity.
Qed.

(** ** Further properties: lines *)

Lemma subarray_nat (d : Buffer) (a b : nat) :
  (a <= List.length d)%nat -> (b <= List.length d)%nat ->
  Js.subarray d (Z.of_nat a) (Z.of_nat b) = firstn (b - a) (skipn a d).
Proof.
  intros Ha Hb. unfold Js.subarray.
  rewrite !clampIndex_inside by (unfold blen; lia).
  rewrite Nat2Z.id. f_equal. lia.
Qed.

Lemma skipn_nth (d : Buffer) (i : nat) :
  (i < List.length d)%nat ->
  exists c, nth_error d i = Some c /\ skipn i d = c :: skipn (S i) d.
Proof.
  revert i. induction d as [|x d IH]; intros i Hi; simpl in Hi; [lia|].
  destruct i as [|i].
  - exists x. split; reflexivity.
  - destruct (IH i) as (c & Hc & Hs); [lia|].
    exists c. split; [exact Hc | exact Hs].
Qed.

Lemma firstn_snoc (l : Buffer) (m : nat) (x : ascii) :
  nth_error l m = Some x -> firstn (S m) l = firstn m l ++ [x].
Proof.
  revert m. induction l as [|y l IH]; intros [|m] H; simpl in *;
    try discriminate.
  - inversion H; reflexivity.
  - f_equal. apply IH, H.
Qed.

Lemma nth_error_skipn_at (d : Buffer) (a m : nat) :
  nth_error (skipn a d) m = nth_error d (a + m).
Proof.
  revert d. induction a as [|a IH]; intros d; [reflexivity|].
  destruct d as [|x d]; simpl.
  - destruct m; reflexivity.
  - apply IH.
Qed.

(** The slice pushed at a line feed is the current line without its CR. *)
Lemma line_at_LF (d : Buffer) (start i : nat) :
  (start <= i)%nat -> (i < List.length d)%nat ->
  Js.subarray d (Z.of_nat start)
    (Z.of_nat
       (if (0 <? i)%nat && BufferUtils.byte_is (nth_error d (i - 1)) CR
        then (i - 1)%nat else i))
  = rev (dropCR (rev (firstn (i - start) (skipn start d)))).
Proof.
  intros Hs Hi.
  destruct (Nat.eq_dec start i) as [->|Hne].
  - rewrite Nat.sub_diag. simpl.
    destruct ((0 <? i)%nat && BufferUtils.byte_is (nth_error d (i - 1)) CR);
      rewrite subarray_nat by lia.
    + replace (i - 1 - i)%nat with 0%nat by lia. reflexivity.
    + rewrite Nat.sub_diag. reflexivity.
  - assert (Hm : (i - start = S (i - start - 1))%nat) by lia.
    destruct (skipn_nth d (i - 1)) as (x & Hx & _); [lia|].
    assert (Hx' : nth_error (skipn start d) (i - start - 1) = Some x).
    { rewrite nth_error_skipn_at.
      replace (start + (i - start - 1))%nat with (i - 1)%nat by lia.
      exact Hx. }
    rewrite Hm, (firstn_snoc _ _ _ Hx'), rev_app_distr. simpl rev at 2.
    simpl app. unfold dropCR.
    rewrite Hx. unfold BufferUtils.byte_is.
    replace (0 <? i)%nat with true by (symmetry; apply Nat.ltb_lt; lia).
    simpl andb.
    destruct (Ascii.eqb x CR).
    + rewrite rev_involutive, subarray_nat by lia.
      f_equal. lia.
    + rewrite subarray_nat by lia.
      change (x :: rev (firstn (i - start - 1) (skipn start d)))
        with ([x] ++ rev (firstn (i - start - 1) (skipn start d))).
      rewrite rev_app_distr, rev_involutive. simpl rev.
      rewrite <- (firstn_snoc _ _ _ Hx'), <- Hm. reflexivity.
Qed.

Lemma splitLines_loop_spec (d : Buffer) (k i start : nat)
    (lines : list Buffer) :
  (i + k = List.length d)%nat -> (start <= i)%nat ->
  (let '(l, s) := BufferUtils.splitLines_loop d k i start lines in
   if (s <? List.length d)%nat
   then l ++ [Js.subarray d (Z.of_nat s) (blen d)]
   else l)
  = lines ++ scanLines (rev (firstn (i - start) (skipn start d))) (skipn i d).
Proof.
  revert i start lines. induction k as [|k IH]; intros i start lines Hk Hs.
  - rewrite Nat.add_0_r in Hk. subst i. simpl BufferUtils.splitLines_loop.
    rewrite skipn_all. simpl scanLines.
    rewrite firstn_all2 by (rewrite length_skipn; lia).
    destruct (start <? List.length d)%nat eqn:E.
    + apply Nat.ltb_lt in E.
      unfold blen. rewrite subarray_nat by lia.
      rewrite firstn_all2 by (rewrite length_skipn; lia).
      destruct (skipn_nth d start E) as (c & _ & Hsk). rewrite Hsk.
      destruct (rev (c :: skipn (S start) d)) as [|y r] eqn:Hr.
      * apply (f_equal (@List.length ascii)) in Hr.
        rewrite length_rev in Hr. simpl in Hr. lia.
      * rewrite <- Hr, rev_involutive. reflexivity.
    + apply Nat.ltb_ge in E.
      rewrite skipn_all2 by lia. simpl. rewrite app_nil_r. reflexivity.
  - assert (Hi : (i < List.length d)%nat) by lia.
    destruct (skipn_nth d i Hi) as (c & Hc & Hsk).
    rewrite Hsk.
    change (BufferUtils.splitLines_loop d (S k) i start lines)
      with (if BufferUtils.byte_is (nth_error d i) LF then
              BufferUtils.splitLines_loop d k (S i) (S i)
                (lines ++
                 [Js.subarray d (Z.of_nat start)
                    (Z.of_nat
                       (if (0 <? i)%nat
                           && BufferUtils.byte_is (nth_error d (i - 1)) CR
                        then (i - 1)%nat else i))])
            else BufferUtils.splitLines_loop d k (S i) start lines).
    rewrite Hc. unfold BufferUtils.byte_is at 1. simpl scanLines.
    destruct (Ascii.eqb c LF) eqn:Ec.
    + rewrite IH by lia.
      rewrite Nat.sub_diag. simpl firstn. simpl rev.
      rewrite line_at_LF by lia.
      rewrite <- app_assoc. reflexivity.
    + rewrite IH by lia.
      replace (S i - start)%nat with (S (i - start)) by lia.
      assert (Hc' : nth_error (skipn start d) (i - start) = Some c).
      { rewrite nth_error_skipn_at.
        replace (start + (i - start))%nat with i by lia. exact Hc. }
      rewrite (firstn_snoc _ _ _ Hc'), rev_app_distr. reflexivity.
Qed.

(** [splitLines] is the split at every LF: each LF ends a line, the line
    loses one CR standing right before that LF, and bytes after the last LF
    form a last line when there are any. *)
Lemma splitLines_scan (d : Buffer) :
  BufferUtils.splitLines d = scanLines [] d.
Proof.
  unfold BufferUtils.splitLines.
  pose proof (splitLines_loop_spec d (List.length d) 0 0 []) as H.
  destruct (BufferUtils.splitLines_loop d (List.length d) 0 0 []) as [l s].
  rewrite H by lia. reflexivity.
Qed.

Lemma dropCR_incl (cur : list ascii) (x : ascii) :
  In x (dropCR cur) -> In x cur.
Proof.
  destruct cur as [|y cur]; simpl; [tauto|].
  destruct (Ascii.eqb y CR); simpl; tauto.
Qed.

Lemma scanLines_no_LF (cur rest : list ascii) :
  ~ In LF cur -> Forall (fun l => ~ In LF l) (scanLines cur rest).
Proof.
  revert cur. induction rest as [|c t IH]; intros cur Hcur; simpl.
  - destruct cur as [|x cur]; constructor; [|constructor].
    intros H. apply in_rev in H. exact (Hcur H).
  - destruct (Ascii.eqb c LF) eqn:E.
    + constructor.
      * intros H. apply in_rev in H. apply dropCR_incl in H. exact (Hcur H).
      * apply IH. intros [].
    + apply IH. intros [H | H]; [|exact (Hcur H)].
      subst c. rewrite Ascii.eqb_refl in E. discriminate.
Qed.

(** X1. No line returned by [splitLines] contains a line feed. *)
Theorem splitLines_lines_have_no_LF (d : Buffer) :
  Forall (fun l => ~ In LF l) (BufferUtils.splitLines d).
Proof.
  rewrite splitLines_scan. apply scanLines_no_LF. intros [].
Qed.

(** A computable test for the absence of LF. *)
Lemma no_LF_check (l : list ascii) :
  forallb (fun c => negb (Ascii.eqb c LF)) l = true -> ~ In LF l.
Proof.
  intros H Hin. rewrite forallb_forall in H. specialize (H LF Hin).
  rewrite Ascii.eqb_refl in H. discriminate.
Qed.

Lemma scanLines_app (l cur rest : list ascii) :
  ~ In LF l -> scanLines cur (l ++ rest) = scanLines (rev l ++ cur) rest.
Proof.
  revert cur. induction l as [|x l IH]; intros cur Hl; [reflexivity|].
  simpl app at 1. simpl scanLines.
  destruct (Ascii.eqb x LF) eqn:E.
  - apply Ascii.eqb_eq in E. subst x. contradiction Hl. left; reflexivity.
  - rewrite IH by (intros H; apply Hl; right; exact H).
    simpl rev. rewrite <- app_assoc. reflexivity.
Qed.

Lemma scanLines_eol (l rest : list ascii) (crlf : bool) :
  ~ In LF l ->
  (crlf = false -> forall q, l <> q ++ [CR]) ->
  scanLines [] (l ++ eol crlf ++ rest) = l :: scanLines [] rest.
Proof.
  intros Hl Hcr. rewrite scanLines_app by exact Hl. rewrite app_nil_r.
  destruct crlf; simpl.
  - rewrite rev_involutive. reflexivity.
  - f_equal. destruct (rev l) as [|x r] eqn:Hr; simpl.
    + apply (f_equal (@rev ascii)) in Hr. rewrite rev_involutive in Hr.
      symmetry. exact Hr.
    + destruct (Ascii.eqb x CR) eqn:E.
      * apply Ascii.eqb_eq in E. subst x.
        apply (f_equal (@rev ascii)) in Hr. rewrite rev_involutive in Hr.
        simpl in Hr. exfalso. exact (Hcr eq_refl (rev r) Hr).
      * rewrite <- Hr, rev_involutive. reflexivity.
Qed.

Lemma scanLines_tail (tl : list ascii) :
  ~ In LF tl ->
  scanLines [] tl = match tl with [] => [] | _ :: _ => [tl] end.
Proof.
  intros Hl. rewrite <- (app_nil_r tl) at 1.
  rewrite scanLines_app by exact Hl. rewrite app_nil_r. simpl.
  destruct tl as [|x t]; [reflexivity|].
  destruct (rev (x :: t)) as [|y r] eqn:Hr.
  - apply (f_equal (@List.length ascii)) in Hr. rewrite length_rev in Hr.
    discriminate.
  - rewrite <- Hr, rev_involutive. reflexivity.
Qed.

Lemma splitLines_joined (ls : list (Buffer * bool)) (tl : Buffer) :
  Forall (fun p => ~ In LF (fst p)
                   /\ (snd p = false -> forall q, fst p <> q ++ [CR])) ls ->
  ~ In LF tl ->
  BufferUtils.splitLines (joinLines ls ++ tl)
  = map fst ls ++ match tl with [] => [] | _ :: _ => [tl] end.
Proof.
  intros Hls Htl. rewrite splitLines_scan.
  induction Hls as [|[l crlf] ls [Hl Hcr] Hls IH].
  - simpl. apply scanLines_tail, Htl.
  - unfold joinLines in *. simpl map. simpl List.concat.
    rewrite <- !app_assoc. simpl fst in *. simpl snd in *.
    rewrite scanLines_eol by assumption. rewrite IH. reflexivity.
Qed.

(** X2. [splitLines] undoes the joining of lines: when every line is free of
    LF and is followed by CR LF, or by a bare LF provided the line does not
    itself end with CR, the lines come back unchanged and in order; bytes
    left after the last terminator come back as one more line. *)
Theorem splitLines_inverts_joinLines (ls : list (Buffer * bool))
    (tl : Buffer) :
  Forall (fun p => ~ In LF (fst p)
                   /\ (snd p = false -> forall q, fst p <> q ++ [CR])) ls ->
  ~ In LF tl ->
  BufferUtils.splitLines (joinLines ls ++ tl)
  = map fst ls ++ match tl with [] => [] | _ :: _ => [tl] end.
Proof. exact (splitLines_joined ls tl). Qed.

Lemma splitLines_inverts_joinLines_witness :
  BufferUtils.splitLines
    (joinLines [(str "GET / HTTP/1.1", true); (str "Host: a", false)]
       ++ str "rest")
  = [str "GET / HTTP/1.1"; str "Host: a"; str "rest"].
Proof.
  apply (splitLines_inverts_joinLines
           [(str "GET / HTTP/1.1", true); (str "Host: a", false)]
           (str "rest")).
  - constructor; [|constructor; [|constructor]].
    + split; [apply no_LF_check; reflexivity | discriminate].
    + split; [apply no_LF_check; reflexivity|].
      intros _ q Hq. apply (f_equal (@rev ascii)) in Hq.
      rewrite rev_app_distr in Hq. discriminate Hq.
  - apply no_LF_check. reflexivity.
Defined.

(** ** Further properties: the request line *)

Lemma split_nonempty (sep : ascii) (s : JsString) : Js.split sep s <> [].
Proof.
  destruct s as [|c t]; simpl; [discriminate|].
  destruct (Ascii.eqb c sep); [discriminate|].
  destruct (Js.split sep t); discriminate.
Qed.

Lemma split_join (sep : ascii) (s : JsString) :
  Js.join [sep] (Js.split sep s) = s.
Proof.
  induction s as [|c t IH]; [reflexivity|].
  simpl Js.split. pose proof (split_nonempty sep t) as Hne.
  destruct (Ascii.eqb c sep) eqn:E.
  - apply Ascii.eqb_eq in E. subst c.
    destruct (Js.split sep t) as [|p ps]; [contradiction Hne; reflexivity|].
    change (Js.join [sep] ([] :: p :: ps))
      with ([] ++ [sep] ++ Js.join [sep] (p :: ps)).
    rewrite IH. reflexivity.
  - destruct (Js.split sep t) as [|p ps]; [contradiction Hne; reflexivity|].
    rewrite <- IH. destruct ps as [|q ps]; reflexivity.
Qed.

Lemma split_pieces_no_sep (sep : ascii) (s : JsString) :
  Forall (fun p => ~ In sep p) (Js.split sep s).
Proof.
  induction s as [|c t IH]; simpl.
  - constructor; [intros [] | constructor].
  - destruct (Ascii.eqb c sep) eqn:E.
    + constructor; [intros [] | exact IH].
    + destruct (Js.split sep t) as [|p ps]; [repeat constructor; intros [H|[]]; subst; rewrite Ascii.eqb_refl in E; discriminate|].
      inversion IH; subst. constructor; [|assumption].
      intros [H | H]; [|contradiction].
      subst c. rewrite Ascii.eqb_refl in E. discriminate.
Qed.

(** X3. What an accepted request line looks like: the decoded line is
    exactly method, space, target, space, version; the method is one of the
    eight known ones, the target starts with a slash and contains no space,
    and the version has the form HTTP/<digits>.<digits>. *)
Theorem parseRequestLine_sound (line : Buffer) (m : JsString) (u : Buffer)
    (v : JsString) :
  HttpParser.parseRequestLine line = Ok (m, u, v) ->
  Js.toString_ascii line = m ++ [" "%char] ++ u ++ [" "%char] ++ v
  /\ In m HttpParser.validMethods
  /\ (exists t, u = "/"%char :: t)
  /\ ~ In " "%char u
  /\ is_http_version v.
Proof.
  unfold HttpParser.parseRequestLine.
  pose proof (split_join " "%char (Js.toString_ascii line)) as Hj.
  pose proof (split_pieces_no_sep " "%char (Js.toString_ascii line)) as Hn.
  destruct (Js.split " "%char (Js.toString_ascii line))
    as [|a [|b [|c [|d rest]]]]; try discriminate.
  destruct (HttpParser.is_empty a || HttpParser.is_empty b
            || HttpParser.is_empty c); [discriminate|].
  destruct (HttpParser.includes HttpParser.validMethods a) eqn:Hm;
    [|discriminate].
  destruct (Js.startsWith b (str "/")) eqn:Hu; [|discriminate].
  destruct (HttpParser.match_version c) eqn:Hv; [|discriminate].
  cbn [negb]. intros H. inversion H; subst. clear H.
  inversion Hn as [|? ? _ Hn1]; subst. inversion Hn1 as [|? ? Hb _]; subst.
  split; [symmetry; exact Hj|].
  split; [apply includes_In, Hm|].
  split; [apply startsWith_slash, Hu|].
  split; [exact Hb|].
  apply match_version_spec, Hv.
Qed.

Lemma parseRequestLine_sound_witness :
  Js.toString_ascii (str "PUT /a/b HTTP/1.1")
  = str "PUT" ++ [" "%char] ++ str "/a/b" ++ [" "%char] ++ str "HTTP/1.1"
  /\ In (str "PUT") HttpParser.validMethods
  /\ (exists t, str "/a/b" = "/"%char :: t)
  /\ ~ In " "%char (str "/a/b")
  /\ is_http_version (str "HTTP/1.1").
Proof.
  apply (parseRequestLine_sound (str "PUT /a/b HTTP/1.1")).
  reflexivity.
Defined.

(** ** Further properties: the request parser *)

Lemma validateHeader_nonempty (h : Buffer) :
  HttpParser.validateHeader h = true -> (blen h =? 0) = false.
Proof.
  destruct h as [|c h]; [intros H; rewrite validateHeader_empty in H;
                          discriminate|].
  intros _. unfold blen. simpl List.length. apply Z.eqb_neq. lia.
Qed.

Lemma collectHeaders_until_empty (hs rest acc : list Buffer) :
  Forall (fun h => HttpParser.validateHeader h = true) hs ->
  HttpParser.collectHeaders (hs ++ [] :: rest) acc = Ok (acc ++ hs).
Proof.
  intros H. revert acc. induction H as [|h hs Hh Hhs IH]; intros acc.
  - simpl. rewrite app_nil_r. reflexivity.
  - simpl app. simpl HttpParser.collectHeaders.
    rewrite (validateHeader_nonempty h Hh), Hh. simpl negb. cbv iota.
    rewrite IH, <- app_assoc. reflexivity.
Qed.

Lemma httpBlock_joinLines (line0 : Buffer) (hs : list Buffer) :
  httpBlock line0 hs
  = joinLines (map (fun l => (l, true)) (line0 :: hs ++ [[]])) ++ [].
Proof.
  unfold httpBlock, joinLines. rewrite app_nil_r, map_map.
  cbn [fst snd eol map List.concat].
  rewrite map_app, concat_app. cbn [map List.concat].
  rewrite app_nil_r, <- !app_assoc. reflexivity.
Qed.

Lemma splitLines_httpBlock (line0 : Buffer) (hs : list Buffer) :
  ~ In LF line0 -> Forall (fun h => ~ In LF h) hs ->
  BufferUtils.splitLines (httpBlock line0 hs) = line0 :: hs ++ [[]].
Proof.
  intros H0 Hhs. rewrite httpBlock_joinLines.
  rewrite splitLines_joined.
  - rewrite map_map. simpl fst. rewrite map_id, app_nil_r. reflexivity.
  - apply Forall_map. simpl.
    constructor; [split; [exact H0 | discriminate]|].
    apply Forall_app. split.
    + eapply Forall_impl; [|exact Hhs]. intros h Hh.
      split; [exact Hh | discriminate].
    + constructor; [split; [intros [] | discriminate] | constructor].
  - intros [].
Qed.

Lemma parseHTTPReq_block (line0 : Buffer) (hs : list Buffer)
    (m : JsString) (u : Buffer) (v : JsString) :
  HttpParser.parseRequestLine line0 = Ok (m, u, v) ->
  ~ In LF line0 ->
  Forall goodHeader hs ->
  HttpParser.parseHTTPReq (httpBlock line0 hs)
  = Ok {| HTTPReq.method := m; HTTPReq.uri := u; HTTPReq.version := v;
          HTTPReq.headers := hs |}.
Proof.
  intros Hl H0 Hhs. unfold HttpParser.parseHTTPReq.
  rewrite splitLines_httpBlock.
  - rewrite Hl. unfold jbind.
    rewrite collectHeaders_until_empty.
    + reflexivity.
    + eapply Forall_impl; [|exact Hhs]. intros h [Hh _]. exact Hh.
  - exact H0.
  - eapply Forall_impl; [|exact Hhs]. intros h [_ Hh]. exact Hh.
Qed.

(** X4. The TypeScript parser accepts every well-formed header block: a
    request line [parseRequestLine] accepts, then header lines
    [validateHeader] accepts, each followed by CR LF, then the empty line
    (no LF inside a line).  The request it returns carries the three tokens
    of the request line and the header lines unchanged, in order. *)
Theorem parseHTTPReq_accepts (line0 : Buffer) (hs : list Buffer)
    (m : JsString) (u : Buffer) (v : JsString) :
  HttpParser.parseRequestLine line0 = Ok (m, u, v) ->
  ~ In LF line0 ->
  Forall goodHeader hs ->
  HttpParser.parseHTTPReq (httpBlock line0 hs)
  = Ok {| HTTPReq.method := m; HTTPReq.uri := u; HTTPReq.version := v;
          HTTPReq.headers := hs |}.
Proof. exact (parseHTTPReq_block line0 hs m u v). Qed.

Lemma parseHTTPReq_accepts_witness :
  HttpParser.parseHTTPReq
    (httpBlock (str "POST /echo HTTP/1.1")
       [str "Host: example"; str "Content-Length: 5"])
  = Ok {| HTTPReq.method := str "POST"; HTTPReq.uri := str "/echo";
          HTTPReq.version := str "HTTP/1.1";
          HTTPReq.headers := [str "Host: example"; str "Content-Length: 5"] |}.
Proof.
  apply (parseHTTPReq_accepts (str "POST /echo HTTP/1.1")
           [str "Host: example"; str "Content-Length: 5"]).
  - reflexivity.
  - apply no_LF_check. reflexivity.
  - constructor; [|constructor; [|constructor]];
      (split; [reflexivity | apply no_LF_check; reflexivity]).
Defined.

Lemma collectHeaders_sound (lines acc hs : list Buffer) :
  HttpParser.collectHeaders lines acc = Ok hs ->
  exists new rest,
    hs = acc ++ new /\ lines = new ++ rest
    /\ Forall (fun h => HttpParser.validateHeader h = true) new
    /\ (rest = [] \/ exists rest', rest = [] :: rest').
Proof.
  revert acc. induction lines as [|l lines IH]; intros acc; simpl.
  - intros H. inversion H; subst. exists [], [].
    rewrite app_nil_r. repeat split; [constructor | left; reflexivity].
  - destruct (blen l =? 0) eqn:El.
    + intros H. inversion H; subst. exists [], (l :: lines).
      rewrite app_nil_r. repeat split; [constructor|].
      right. exists lines. destruct l; [reflexivity|].
      apply Z.eqb_eq in El. unfold blen in El. simpl List.length in El. lia.
    + destruct (HttpParser.validateHeader l) eqn:Ev; simpl; [|discriminate].
      intros H. destruct (IH _ H) as (new & rest & Hhs & Hl & Hv & Hr).
      exists (l :: new), rest. rewrite Hhs, <- app_assoc. simpl.
      repeat split; [f_equal; exact Hl | constructor; assumption | exact Hr].
Qed.

(** X5. Everything the TypeScript parser returns is checked: the method is
    a known one, the target starts with a slash, the version has the
    HTTP/<digits>.<digits> form, and the headers are the lines that follow
    the request line up to the first empty line (or the end), each accepted
    by [validateHeader]. *)
Theorem parseHTTPReq_sound (d : Buffer) (req : HTTPReq.t) :
  HttpParser.parseHTTPReq d = Ok req ->
  In (HTTPReq.method req) HttpParser.validMethods
  /\ (exists t, HTTPReq.uri req = "/"%char :: t)
  /\ is_http_version (HTTPReq.version req)
  /\ Forall (fun h => HttpParser.validateHeader h = true) (HTTPReq.headers req)
  /\ exists line0 rest,
       BufferUtils.splitLines d = line0 :: HTTPReq.headers req ++ rest
       /\ (rest = [] \/ exists rest', rest = [] :: rest').
Proof.
  unfold HttpParser.parseHTTPReq.
  destruct (BufferUtils.splitLines d) as [|l0 lines]; [discriminate|].
  destruct (HttpParser.parseRequestLine l0) as [[[m u] v]|e] eqn:Hl;
    [|discriminate].
  unfold jbind.
  destruct (HttpParser.collectHeaders lines []) as [hs|e] eqn:Hc;
    [|discriminate].
  intros H. inversion H; subst. clear H. cbn [HTTPReq.method HTTPReq.uri
    HTTPReq.version HTTPReq.headers].
  destruct (collectHeaders_sound lines [] hs Hc)
    as (new & rest & Hhs & Hlines & Hv & Hr).
  simpl in Hhs. subst new.
  unfold HttpParser.parseRequestLine in Hl.
  destruct (Js.split " "%char (Js.toString_ascii l0))
    as [|a [|b [|c [|x xs]]]]; try discriminate.
  destruct (HttpParser.is_empty a || HttpParser.is_empty b
            || HttpParser.is_empty c); [discriminate|].
  destruct (HttpParser.includes HttpParser.validMethods a) eqn:Hm;
    [|discriminate].
  destruct (Js.startsWith b (str "/")) eqn:Hu; [|discriminate].
  destruct (HttpParser.match_version c) eqn:Hver; [|discriminate].
  cbn [negb] in Hl. inversion Hl; subst. clear Hl.
  split; [apply includes_In, Hm|].
  split; [apply startsWith_slash, Hu|].
  split; [apply match_version_spec, Hver|].
  split; [exact Hv|].
  exists l0, rest. split; [reflexivity | exact Hr].
Qed.

Lemma parseHTTPReq_sound_witness :
  In (str "GET") HttpParser.validMethods
  /\ (exists t, str "/hello" = "/"%char :: t)
  /\ is_http_version (str "HTTP/1.1")
  /\ Forall (fun h => HttpParser.validateHeader h = true) []
  /\ exists line0 rest,
       BufferUtils.splitLines (str "GET /hello HTTP/1.1" ++ CRLF ++ CRLF)
       = line0 :: [] ++ rest
       /\ (rest = [] \/ exists rest', rest = [] :: rest').
Proof.
  apply (parseHTTPReq_sound (str "GET /hello HTTP/1.1" ++ CRLF ++ CRLF)
           helloReq).
  vm_compute. reflexivity.
Defined.

(** ** Further properties: cutting a message out of the buffer *)

(** [indexOf] finds the first occurrence. *)
Lemma indexOf_from_first (pre needle post : list ascii) (i : Z) :
  i <= Js.indexOf_from (pre ++ needle ++ post) needle i <= i + blen pre.
Proof.
  revert i. induction pre as [|c pre IH]; intros i.
  - simpl app. unfold blen. simpl List.length.
    destruct (needle ++ post) as [|x t] eqn:E.
    + destruct needle; [simpl; lia | discriminate].
    + simpl. rewrite <- E, prefixb_app. lia.
  - simpl app. simpl Js.indexOf_from.
    destruct (Js.prefixb needle (c :: pre ++ needle ++ post)).
    + unfold blen. lia.
    + specialize (IH (i + 1)). unfold blen in *. simpl List.length. lia.
Qed.

Lemma buf_inv_bufPop (b : DynBuf.t) (n : Z) :
  buf_inv b -> 0 <= n <= DynBuf.length b ->
  buf_inv (BufferUtils.bufPop b n).
Proof.
  unfold buf_inv. intros Hb Hn. rewrite bufPop_physical_size.
  simpl. lia.
Qed.

(** [cutMessage] once the position of the terminator is known. *)
Lemma cutMessage_at (parse : Buffer -> jsres HTTPReq.t) (b : DynBuf.t)
    (blk post : Buffer) :
  buf_inv b ->
  valid b = blk ++ post ->
  Js.indexOf (valid b) (CRLF ++ CRLF) = blen blk - 4 ->
  4 <= blen blk ->
  HttpParser.cutMessage_with parse b
  = jbind (parse blk)
      (fun msg => Ok (Some msg, BufferUtils.bufPop b (blen blk)))
  /\ valid (BufferUtils.bufPop b (blen blk)) = post
  /\ buf_inv (BufferUtils.bufPop b (blen blk)).
Proof.
  intros Hinv Hv Hidx H4.
  assert (Hlen : blen blk <= DynBuf.length b).
  { rewrite <- (valid_length b Hinv), Hv. unfold blen.
    rewrite length_app. lia. }
  assert (Hvalid : valid b
                   = firstn (Z.to_nat (DynBuf.length b)) (DynBuf.data b)).
  { unfold valid. apply subarray_prefix. exact Hinv. }
  assert (Hcut : Js.subarray (DynBuf.data b) 0 (blen blk) = blk).
  { unfold buf_inv in Hinv.
    rewrite subarray_prefix by lia.
    replace (Z.to_nat (blen blk))
      with (Nat.min (Z.to_nat (blen blk)) (Z.to_nat (DynBuf.length b)))
      by lia.
    rewrite <- firstn_firstn, <- Hvalid, Hv.
    replace (Z.to_nat (blen blk)) with (List.length blk + 0)%nat
      by (unfold blen; lia).
    rewrite firstn_app_2. simpl. apply app_nil_r. }
  split; [|split].
  - unfold HttpParser.cutMessage_with. fold (valid b). rewrite Hidx.
    replace (blen blk - 4 <? 0) with false by (symmetry; apply Z.ltb_ge; lia).
    replace (blen blk - 4 + 4) with (blen blk) by lia.
    rewrite Hcut. reflexivity.
  - rewrite bufPop_valid by (unfold buf_inv in Hinv; lia).
    rewrite Hv.
    replace (Z.to_nat (blen blk)) with (List.length blk + 0)%nat
      by (unfold blen; lia).
    rewrite skipn_app, skipn_all2 by lia.
    replace (List.length blk + 0 - List.length blk)%nat with 0%nat by lia.
    reflexivity.
  - apply buf_inv_bufPop; [exact Hinv | lia].
Qed.

(** X6. When the valid region contains the terminator, [cutMessage] parses
    the bytes up to and including its first occurrence and nothing else: a
    parse error is passed on; on success the message is returned and the
    buffer afterwards holds exactly the bytes that followed the terminator
    (the pipelined data), with its invariant intact. *)
Theorem cutMessage_cuts_first_block (b : DynBuf.t) (pre0 post0 : Buffer) :
  buf_inv b ->
  valid b = pre0 ++ (CRLF ++ CRLF) ++ post0 ->
  exists pre post,
    valid b = pre ++ (CRLF ++ CRLF) ++ post
    /\ blen pre <= blen pre0
    /\ (forall e,
          HttpParser.parseHTTPReq (pre ++ CRLF ++ CRLF) = Throw e ->
          HttpParser.cutMessage b = Throw e)
    /\ (forall msg,
          HttpParser.parseHTTPReq (pre ++ CRLF ++ CRLF) = Ok msg ->
          exists b',
            HttpParser.cutMessage b = Ok (Some msg, b')
            /\ valid b' = post /\ buf_inv b').
Proof.
  intros Hinv Hv0.
  pose proof (indexOf_from_first pre0 (CRLF ++ CRLF) post0 0) as Hfirst.
  rewrite <- Hv0 in Hfirst.
  destruct (indexOf_from_found (valid b) (CRLF ++ CRLF) 0)
    as (pre & post & Hv & Hidx); [lia | lia |].
  exists pre, post. split; [exact Hv|]. split; [lia|].
  destruct (cutMessage_at HttpParser.parseHTTPReq b
              (pre ++ CRLF ++ CRLF) post Hinv) as (Hc & Hvalid & Hinv').
  - rewrite Hv, <- !app_assoc. reflexivity.
  - unfold Js.indexOf. rewrite Hidx. unfold blen.
    rewrite length_app. simpl List.length. lia.
  - unfold blen. rewrite length_app. simpl List.length. lia.
  - unfold HttpParser.cutMessage. rewrite Hc. split.
    + intros e He. rewrite He. reflexivity.
    + intros msg Hm. rewrite Hm. eexists.
      split; [reflexivity|]. split; [exact Hvalid | exact Hinv'].
Qed.

Lemma cutMessage_cuts_first_block_witness :
  exists pre post,
    valid (BufferUtils.bufpush Server.emptyBuf http10Input)
    = pre ++ (CRLF ++ CRLF) ++ post
    /\ blen pre <= blen (str "POST /echo HTTP/1.0" ++ CRLF
                         ++ str "Content-Length: 3")
    /\ (forall e,
          HttpParser.parseHTTPReq (pre ++ CRLF ++ CRLF) = Throw e ->
          HttpParser.cutMessage
            (BufferUtils.bufpush Server.emptyBuf http10Input) = Throw e)
    /\ (forall msg,
          HttpParser.parseHTTPReq (pre ++ CRLF ++ CRLF) = Ok msg ->
          exists b',
            HttpParser.cutMessage
              (BufferUtils.bufpush Server.emptyBuf http10Input)
            = Ok (Some msg, b')
            /\ valid b' = post /\ buf_inv b').
Proof.
  apply (cutMessage_cuts_first_block
           (BufferUtils.bufpush Server.emptyBuf http10Input)
           (str "POST /echo HTTP/1.0" ++ CRLF ++ str "Content-Length: 3")
           (str "abc" ++ str "GET /hello HTTP/1.0" ++ CRLF ++ CRLF)).
  - vm_compute. split; discriminate.
  - vm_compute. reflexivity.
Defined.

(** Inside a line without LF the terminator cannot start. *)
Lemma indexOf_skip_line (l t : list ascii) (i : Z) :
  ~ In LF l ->
  Js.indexOf_from (l ++ CR :: t) (CRLF ++ CRLF) i
  = Js.indexOf_from (CR :: t) (CRLF ++ CRLF) (i + blen l).
Proof.
  revert i. induction l as [|x l IH]; intros i Hl.
  - unfold blen. simpl List.length. rewrite Z.add_0_r. reflexivity.
  - assert (Hl' : ~ In LF l) by (intros H; apply Hl; right; exact H).
    assert (Hp : Js.prefixb (CRLF ++ CRLF) ((x :: l) ++ CR :: t) = false).
    { change (Js.prefixb (CRLF ++ CRLF) ((x :: l) ++ CR :: t))
        with (Ascii.eqb CR x
              && Js.prefixb [LF; CR; LF] (l ++ CR :: t)).
      destruct l as [|y l].
      - simpl. rewrite andb_false_r. reflexivity.
      - change (Js.prefixb [LF; CR; LF] ((y :: l) ++ CR :: t))
          with (Ascii.eqb LF y && Js.prefixb [CR; LF] (l ++ CR :: t)).
        destruct (Ascii.eqb LF y) eqn:E.
        + apply Ascii.eqb_eq in E. subst y.
          contradiction Hl'. left; reflexivity.
        + rewrite andb_false_r. reflexivity. }
    change (Js.indexOf_from ((x :: l) ++ CR :: t) (CRLF ++ CRLF) i)
      with (if Js.prefixb (CRLF ++ CRLF) ((x :: l) ++ CR :: t) then i
            else Js.indexOf_from (l ++ CR :: t) (CRLF ++ CRLF) (i + 1)).
    rewrite Hp, IH by exact Hl'.
    f_equal. unfold blen. simpl List.length. lia.
Qed.

(** Nor at the CR LF that precedes a non-empty line. *)
Lemma indexOf_skip_eol (l t : list ascii) (i : Z) :
  l <> [] -> ~ In LF l ->
  Js.indexOf_from (CR :: LF :: l ++ CR :: t) (CRLF ++ CRLF) i
  = Js.indexOf_from (l ++ CR :: t) (CRLF ++ CRLF) (i + 2).
Proof.
  intros Hne Hl. destruct l as [|x l]; [contradiction Hne; reflexivity|].
  assert (Hp : Js.prefixb (CRLF ++ CRLF) (CR :: LF :: (x :: l) ++ CR :: t)
               = false).
  { change (Js.prefixb (CRLF ++ CRLF) (CR :: LF :: (x :: l) ++ CR :: t))
      with (Ascii.eqb CR CR
            && (Ascii.eqb LF LF
                && (Ascii.eqb CR x
                    && Js.prefixb [LF] (l ++ CR :: t)))).
    destruct l as [|y l].
    - simpl. rewrite !andb_false_r. reflexivity.
    - change (Js.prefixb [LF] ((y :: l) ++ CR :: t))
        with (Ascii.eqb LF y && true).
      destruct (Ascii.eqb LF y) eqn:E.
      + apply Ascii.eqb_eq in E. subst y.
        contradiction Hl. right; left; reflexivity.
      + rewrite !andb_false_r. reflexivity. }
  change (Js.indexOf_from (CR :: LF :: (x :: l) ++ CR :: t) (CRLF ++ CRLF) i)
    with (if Js.prefixb (CRLF ++ CRLF) (CR :: LF :: (x :: l) ++ CR :: t)
          then i
          else if Js.prefixb (CRLF ++ CRLF) (LF :: (x :: l) ++ CR :: t)
               then i + 1
               else Js.indexOf_from ((x :: l) ++ CR :: t) (CRLF ++ CRLF)
                      (i + 1 + 1)).
  rewrite Hp.
  change (Js.prefixb (CRLF ++ CRLF) (LF :: (x :: l) ++ CR :: t)) with false.
  cbv iota. f_equal. lia.
Qed.

Lemma indexOf_header_lines (hs : list Buffer) (post : Buffer) (i : Z) :
  Forall (fun h => h <> [] /\ ~ In LF h) hs ->
  Js.indexOf_from
    (CRLF ++ List.concat (map (fun h => h ++ CRLF) hs) ++ CRLF ++ post)
    (CRLF ++ CRLF) i
  = i + blen (List.concat (map (fun h => h ++ CRLF) hs)).
Proof.
  intros H. revert i. induction H as [|h hs [Hne Hl] Hhs IH]; intros i.
  - simpl. unfold blen. simpl. lia.
  - cbn [map List.concat].
    change (CRLF ++ ((h ++ CRLF)
                     ++ List.concat (map (fun h0 => h0 ++ CRLF) hs))
                  ++ CRLF ++ post)
      with (CR :: LF :: ((h ++ CRLF)
                         ++ List.concat (map (fun h0 => h0 ++ CRLF) hs))
                       ++ CRLF ++ post).
    rewrite <- !app_assoc.
    change (CRLF ++ List.concat (map (fun h0 => h0 ++ CRLF) hs)
                 ++ CRLF ++ post)
      with (CR :: LF :: List.concat (map (fun h0 => h0 ++ CRLF) hs)
                       ++ CRLF ++ post).
    rewrite indexOf_skip_eol by assumption.
    rewrite indexOf_skip_line by assumption.
    change (CR :: LF :: List.concat (map (fun h0 => h0 ++ CRLF) hs)
                       ++ CRLF ++ post)
      with (CRLF ++ List.concat (map (fun h0 => h0 ++ CRLF) hs)
                 ++ CRLF ++ post).
    rewrite IH. unfold blen. rewrite !length_app. simpl List.length. lia.
Qed.

Lemma indexOf_httpBlock (line0 : Buffer) (hs : list Buffer) (post : Buffer) :
  ~ In LF line0 ->
  Forall (fun h => h <> [] /\ ~ In LF h) hs ->
  Js.indexOf (httpBlock line0 hs ++ post) (CRLF ++ CRLF)
  = blen (httpBlock line0 hs) - 4.
Proof.
  intros H0 Hhs. unfold Js.indexOf, httpBlock.
  rewrite <- !app_assoc.
  change (CRLF ++ List.concat (map (fun h => h ++ CRLF) hs) ++ CRLF ++ post)
    with (CR :: LF :: List.concat (map (fun h => h ++ CRLF) hs)
                     ++ CRLF ++ post).
  rewrite indexOf_skip_line by exact H0.
  change (CR :: LF :: List.concat (map (fun h => h ++ CRLF) hs)
                     ++ CRLF ++ post)
    with (CRLF ++ List.concat (map (fun h => h ++ CRLF) hs) ++ CRLF ++ post).
  rewrite indexOf_header_lines by exact Hhs.
  unfold blen. rewrite !length_app. simpl List.length. lia.
Qed.

Lemma goodHeader_nonempty (h : Buffer) :
  goodHeader h -> h <> [] /\ ~ In LF h.
Proof.
  intros [Hv Hl]. split; [|exact Hl].
  intros ->. rewrite validateHeader_empty in Hv. discriminate.
Qed.

(** X7. A well-formed request at the front of the buffer is cut out whole:
    when the valid region starts with a header block made of an accepted
    request line and accepted header lines, [cutMessage] returns that
    request, and the buffer afterwards holds exactly the bytes that came
    after the block, whatever they are. *)
Theorem cutMessage_accepts (b : DynBuf.t) (line0 : Buffer)
    (hs : list Buffer) (post : Buffer) (m : JsString) (u : Buffer)
    (v : JsString) :
  buf_inv b ->
  valid b = httpBlock line0 hs ++ post ->
  HttpParser.parseRequestLine line0 = Ok (m, u, v) ->
  ~ In LF line0 ->
  Forall goodHeader hs ->
  exists b',
    HttpParser.cutMessage b
    = Ok (Some {| HTTPReq.method := m; HTTPReq.uri := u;
                  HTTPReq.version := v; HTTPReq.headers := hs |}, b')
    /\ valid b' = post
    /\ buf_inv b'.
Proof.
  intros Hinv Hv Hl H0 Hhs.
  destruct (cutMessage_at HttpParser.parseHTTPReq b (httpBlock line0 hs) post
              Hinv Hv) as (Hc & Hvalid & Hinv').
  - rewrite Hv. apply indexOf_httpBlock; [exact H0|].
    eapply Forall_impl; [|exact Hhs]. exact goodHeader_nonempty.
  - unfold httpBlock, blen. rewrite !length_app. simpl List.length. lia.
  - unfold HttpParser.cutMessage. rewrite Hc.
    rewrite (parseHTTPReq_block line0 hs m u v Hl H0 Hhs).
    eexists. split; [reflexivity|]. split; [exact Hvalid | exact Hinv'].
Qed.

Lemma cutMessage_accepts_witness :
  exists b',
    HttpParser.cutMessage (BufferUtils.bufpush Server.emptyBuf pipelined)
    = Ok (Some {| HTTPReq.method := str "POST"; HTTPReq.uri := str "/echo";
                  HTTPReq.version := str "HTTP/1.1";
                  HTTPReq.headers := [str "Content-Length: 5"] |}, b')
    /\ valid b' = str "helloGET / HTTP/1.1"
    /\ buf_inv b'.
Proof.
  apply (cutMessage_accepts
           (BufferUtils.bufpush Server.emptyBuf pipelined)
           (str "POST /echo HTTP/1.1") [str "Content-Length: 5"]
           (str "helloGET / HTTP/1.1")).
  - vm_compute. split; discriminate.
  - vm_compute. reflexivity.
  - reflexivity.
  - apply no_LF_check. reflexivity.
  - constructor; [|constructor].
    split; [reflexivity | apply no_LF_check; reflexivity].
Defined.

(** ** Further properties: the connection-bounded reader and the loops *)

Lemma soRead_outcome (w : Server.World) :
  Server.soRead w <> Server.Fuel.
Proof.
  destruct w as [[e en sin sout rds] b h].
  unfold Server.soRead, Server.bind, Server.getConn, Server.setConn.
  cbn. destruct e as [e|]; [discriminate|].
  destruct en; [discriminate|].
  destruct sin as [|[d'| |] rest]; discriminate.
Qed.

Lemma soRead_keeps_output (w w1 : Server.World) (d : Buffer) :
  Server.soRead w = Server.Ret d w1 ->
  TCPConn.socket_out (Server.conn w1) = TCPConn.socket_out (Server.conn w).
Proof.
  destruct w as [[e en sin sout rds] b h].
  unfold Server.soRead, Server.bind, Server.getConn, Server.setConn.
  cbn. destruct e as [e|]; [discriminate|].
  destruct en.
  - intros H; inversion H; subst; reflexivity.
  - destruct sin as [|[d'| |] rest]; try discriminate;
      intros H; inversion H; subst; reflexivity.
Qed.

(** The part of the reader's [read] that follows the refill. *)
Lemma connLength_consume (b : DynBuf.t) (remain : Z) :
  buf_inv b -> 0 < DynBuf.length b -> 0 < remain ->
  let c := Z.min (DynBuf.length b) remain in
  blen (Js.subarray (DynBuf.data b) 0 c) = c
  /\ 0 < c <= remain
  /\ buf_inv (BufferUtils.bufPop b c).
Proof.
  intros Hinv Hl Hr c. unfold buf_inv in Hinv.
  split; [|split].
  - rewrite subarray_prefix by lia. apply blen_firstn. lia.
  - lia.
  - apply buf_inv_bufPop; [exact Hinv | lia].
Qed.

Lemma buf_inv_bufpush (b : DynBuf.t) (d : Buffer) :
  buf_inv (BufferUtils.bufpush b d).
Proof.
  unfold buf_inv, BufferUtils.bufpush. simpl.
  pose proof (blen_nonneg (DynBuf.data b ++ d)). lia.
Qed.

Lemma connLength_read_progress (w w' : Server.World) (remain r' : Z)
    (d : Buffer) :
  buf_inv (Server.buf w) -> 0 <= remain <= Js.two53 ->
  Server.connLength_read remain w = Server.Ret (d, r') w' ->
  blen d = remain - r' /\ 0 <= r'
  /\ (0 < remain -> r' < remain)
  /\ buf_inv (Server.buf w')
  /\ Server.heap w' = Server.heap w
  /\ TCPConn.socket_out (Server.conn w')
     = TCPConn.socket_out (Server.conn w).
Proof.
  intros Hinv Hr. unfold Server.connLength_read.
  destruct (remain =? 0) eqn:E0.
  - apply Z.eqb_eq in E0. subst remain.
    intros H. inversion H; subst. unfold blen. simpl.
    unfold buf_inv in *. repeat split; first [lia | reflexivity].
  - apply Z.eqb_neq in E0.
    cbv [Server.bind Server.getBuf].
    destruct (DynBuf.length (Server.buf w) =? 0) eqn:El.
    + destruct (Server.soRead w) as [d0 w1| | |] eqn:Hs; try discriminate.
      cbv [Server.setBuf]. cbn [Server.buf Server.conn Server.heap].
      destruct (blen d0 =? 0) eqn:Ed; [discriminate|].
      apply Z.eqb_neq in Ed.
      cbv [Server.ret]. cbn [Server.buf Server.conn Server.heap].
      intros H. inversion H; subst. clear H.
      cbn [Server.buf Server.conn Server.heap].
      destruct (soRead_frame w w1 d0 Hs) as (_ & Hh & _).
      pose proof (soRead_keeps_output w w1 d0 Hs) as Ho.
      pose proof (buf_inv_bufpush (Server.buf w) d0) as Hinv1.
      assert (Hlen : 0 < DynBuf.length (BufferUtils.bufpush (Server.buf w) d0)).
      { unfold BufferUtils.bufpush. cbn [DynBuf.length].
        unfold blen in *. rewrite length_app. lia. }
      destruct (connLength_consume _ remain Hinv1 Hlen) as (H1 & H2 & H3);
        [lia|].
      cbv zeta in H1, H2, H3. unfold buf_inv in *.
      unfold BufferUtils.bufpush in *. cbn [DynBuf.length DynBuf.data] in *.
      rewrite sub_exact by lia.
      repeat split; first [assumption | lia].
    + apply Z.eqb_neq in El.
      cbv [Server.ret Server.setBuf].
      cbn [Server.buf Server.conn Server.heap].
      intros H. inversion H; subst. clear H.
      cbn [Server.buf Server.conn Server.heap].
      destruct (connLength_consume (Server.buf w) remain Hinv)
        as (H1 & H2 & H3); [unfold buf_inv in Hinv; lia | lia |].
      cbv zeta in H1, H2, H3. unfold buf_inv in *.
      rewrite sub_exact by lia.
      repeat split; first [assumption | reflexivity | lia].
Qed.

Lemma nth_error_update {A} (l : list A) (i : nat) (x y : A) :
  nth_error l i = Some x -> nth_error (Server.update l i y) i = Some y.
Proof.
  revert i; induction l as [|z l IH]; intros [|i] H; simpl in *;
    try discriminate; [reflexivity | apply IH, H].
Qed.

Lemma read_conn_progress (w w' : Server.World) (r : nat) (len remain : Z)
    (d : Buffer) :
  nth_error (Server.heap w) r
  = Some {| BodyReader.length := len;
            BodyReader.read := BodyReader.FromConnLength remain |} ->
  buf_inv (Server.buf w) -> 0 <= remain <= Js.two53 ->
  Server.read r w = Server.Ret d w' ->
  exists remain',
    nth_error (Server.heap w') r
    = Some {| BodyReader.length := len;
              BodyReader.read := BodyReader.FromConnLength remain' |}
    /\ blen d = remain - remain' /\ 0 <= remain'
    /\ (0 < remain -> remain' < remain)
    /\ buf_inv (Server.buf w')
    /\ TCPConn.socket_out (Server.conn w')
       = TCPConn.socket_out (Server.conn w).
Proof.
  intros Hr Hinv H0. unfold Server.read, Server.bind, Server.deref.
  rewrite Hr. cbn [BodyReader.read].
  destruct (Server.connLength_read remain w) as [[d0 r0] w1| | |] eqn:Hc;
    try discriminate.
  destruct (connLength_read_progress w w1 remain r0 d0 Hinv H0 Hc)
    as (H1 & H2 & H3 & H4 & H5 & H6).
  unfold Server.setClosure. rewrite H5, Hr. cbn [snd fst BodyReader.length].
  unfold Server.ret. intros H. inversion H; subst. clear H.
  cbn [Server.heap Server.buf Server.conn].
  exists r0. split; [apply (nth_error_update _ _ _ _ Hr)|].
  split; [exact H1|]. split; [exact H2|]. split; [exact H3|].
  split; [exact H4 | exact H6].
Qed.

Lemma read_conn_not_Fuel (w : Server.World) (r : nat) (len remain : Z) :
  nth_error (Server.heap w) r
  = Some {| BodyReader.length := len;
            BodyReader.read := BodyReader.FromConnLength remain |} ->
  Server.read r w <> Server.Fuel.
Proof.
  intros Hr. unfold Server.read, Server.bind, Server.deref.
  rewrite Hr. cbn [BodyReader.read].
  unfold Server.connLength_read.
  destruct (remain =? 0).
  - unfold Server.ret, Server.setClosure. cbn [Server.heap].
    rewrite Hr. discriminate.
  - cbv [Server.bind Server.getBuf].
    destruct (DynBuf.length (Server.buf w) =? 0).
    + pose proof (soRead_outcome w) as Hs.
      destruct (Server.soRead w) as [d0 w1| | |] eqn:E; try discriminate;
        [|contradiction Hs; reflexivity].
      cbv [Server.setBuf]. destruct (blen d0 =? 0); [discriminate|].
      cbv [Server.ret Server.setBuf Server.setClosure].
      cbn [Server.heap Server.buf Server.conn].
      destruct (nth_error (Server.heap w1) r); discriminate.
    + cbv [Server.ret Server.setBuf Server.setClosure].
      cbn [Server.heap Server.buf Server.conn].
      rewrite Hr. discriminate.
Qed.

Lemma soWrite_cases (w : Server.World) (d : Buffer) :
  (exists w2,
     Server.soWrite d w = Server.Ret tt w2
     /\ TCPConn.socket_out (Server.conn w2)
        = TCPConn.socket_out (Server.conn w) ++ [d]
     /\ Server.heap w2 = Server.heap w
     /\ Server.buf w2 = Server.buf w)
  \/ (exists e, Server.soWrite d w = Server.Raise e w).
Proof.
  destruct w as [[e en sin sout rds] b h].
  destruct e as [e|].
  - right. exists e. reflexivity.
  - left. eexists. split; [reflexivity|]. repeat split; reflexivity.
Qed.

Lemma writeBody_conn (fuel : nat) :
  forall (w : Server.World) (r : nat) (len remain : Z),
    nth_error (Server.heap w) r
    = Some {| BodyReader.length := len;
              BodyReader.read := BodyReader.FromConnLength remain |} ->
    buf_inv (Server.buf w) -> 0 <= remain <= Js.two53 ->
    (Z.to_nat remain < fuel)%nat ->
    Server.writeBody fuel r w <> Server.Fuel
    /\ (forall w',
          Server.writeBody fuel r w = Server.Ret tt w' ->
          exists chunks,
            TCPConn.socket_out (Server.conn w')
            = TCPConn.socket_out (Server.conn w) ++ chunks
            /\ blen (List.concat chunks) = remain
            /\ Forall (fun c => c <> []) chunks
            /\ nth_error (Server.heap w') r
               = Some {| BodyReader.length := len;
                         BodyReader.read := BodyReader.FromConnLength 0 |}
            /\ buf_inv (Server.buf w')).
Proof.
  induction fuel as [|fuel IH]; intros w r len remain Hr Hinv H0 Hf; [lia|].
  change (Server.writeBody (S fuel) r)
    with (Server.bind (Server.read r) (fun d =>
            if blen d =? 0 then Server.ret tt
            else Server.bind (Server.soWrite d)
                   (fun _ => Server.writeBody fuel r))).
  unfold Server.bind.
  pose proof (read_conn_not_Fuel w r len remain Hr) as HnF.
  destruct (Server.read r w) as [d w1|e w1|w1|] eqn:Hread; cbv iota beta;
    [| split; [discriminate | intros w' H; discriminate]
     | split; [discriminate | intros w' H; discriminate]
     | contradiction HnF; reflexivity].
  destruct (read_conn_progress w w1 r len remain d Hr Hinv H0 Hread)
    as (r1 & Hr1 & Hd & Hr1pos & Hlt & Hinv1 & Hout1).
  destruct (blen d =? 0) eqn:Ed.
  - apply Z.eqb_eq in Ed.
    assert (remain = 0) by lia. subst remain.
    assert (r1 = 0) by lia. subst r1.
    split; [discriminate|].
    intros w' H. unfold Server.ret in H. inversion H; subst.
    exists []. rewrite app_nil_r.
    split; [exact Hout1|]. split; [reflexivity|].
    split; [constructor|]. split; assumption.
  - apply Z.eqb_neq in Ed.
    pose proof (blen_nonneg d) as Hdpos.
    destruct (soWrite_cases w1 d)
      as [(w2 & Hw & Hout2 & Hheap2 & Hbuf2) | (e & Hw)]; rewrite Hw;
      cbv iota beta.
    + destruct (IH w2 r len r1) as (HnF2 & Hret2);
        [rewrite Hheap2; exact Hr1 | rewrite Hbuf2; exact Hinv1 | lia | lia |].
      split; [exact HnF2|].
      intros w' H. destruct (Hret2 w' H)
        as (chunks & Hc1 & Hc2 & Hc3 & Hc4 & Hc5).
      exists (d :: chunks).
      split; [rewrite Hc1, Hout2, Hout1, <- app_assoc; reflexivity|].
      split.
      { simpl List.concat. unfold blen in *. rewrite length_app. lia. }
      split.
      { constructor; [|exact Hc3]. intros ->. apply Ed. reflexivity. }
      split; assumption.
    + split; [discriminate | intros w' H; discriminate].
Qed.

Lemma drain_conn (fuel : nat) :
  forall (w : Server.World) (r : nat) (len remain : Z),
    nth_error (Server.heap w) r
    = Some {| BodyReader.length := len;
              BodyReader.read := BodyReader.FromConnLength remain |} ->
    buf_inv (Server.buf w) -> 0 <= remain <= Js.two53 ->
    (Z.to_nat remain < fuel)%nat ->
    Server.drain fuel r w <> Server.Fuel
    /\ (forall w',
          Server.drain fuel r w = Server.Ret tt w' ->
          nth_error (Server.heap w') r
          = Some {| BodyReader.length := len;
                    BodyReader.read := BodyReader.FromConnLength 0 |}
          /\ TCPConn.socket_out (Server.conn w')
             = TCPConn.socket_out (Server.conn w)
          /\ buf_inv (Server.buf w')).
Proof.
  induction fuel as [|fuel IH]; intros w r len remain Hr Hinv H0 Hf; [lia|].
  change (Server.drain (S fuel) r)
    with (Server.bind (Server.read r) (fun d =>
            if blen d >? 0 then Server.drain fuel r else Server.ret tt)).
  unfold Server.bind.
  pose proof (read_conn_not_Fuel w r len remain Hr) as HnF.
  destruct (Server.read r w) as [d w1|e w1|w1|] eqn:Hread; cbv iota beta;
    [| split; [discriminate | intros w' H; discriminate]
     | split; [discriminate | intros w' H; discriminate]
     | contradiction HnF; reflexivity].
  destruct (read_conn_progress w w1 r len remain d Hr Hinv H0 Hread)
    as (r1 & Hr1 & Hd & Hr1pos & Hlt & Hinv1 & Hout1).
  pose proof (blen_nonneg d) as Hdpos.
  destruct (blen d >? 0) eqn:Ed.
  - apply Z.gtb_lt in Ed.
    destruct (IH w1 r len r1) as (HnF2 & Hret2);
      [exact Hr1 | exact Hinv1 | lia | lia |].
    split; [exact HnF2|].
    intros w' H. destruct (Hret2 w' H) as (Hc1 & Hc2 & Hc3).
    split; [exact Hc1|]. split; [rewrite Hc2; exact Hout1 | exact Hc3].
  - assert (Hz : blen d = 0).
    { rewrite Z.gtb_ltb in Ed. apply Z.ltb_ge in Ed. lia. }
    assert (remain = 0) by lia. subst remain.
    assert (r1 = 0) by lia. subst r1.
    split; [discriminate|].
    intros w' H. unfold Server.ret in H. inversion H; subst.
    split; [exact Hr1|]. split; [exact Hout1 | exact Hinv1].
Qed.

(** X8. One read of a connection-bounded reader that has at most 2^53 bytes
    left to deliver (the range in which the count is an exact number), when
    it returns: the chunk has exactly as many bytes as [remain] drops by,
    [remain] never becomes negative, a reader with bytes still to deliver
    returns at least one of them, and the buffer invariant is kept; nothing
    is written. *)
Theorem connLength_reader_progress (w w' : Server.World) (r : nat)
    (len remain : Z) (d : Buffer) :
  nth_error (Server.heap w) r
  = Some {| BodyReader.length := len;
            BodyReader.read := BodyReader.FromConnLength remain |} ->
  buf_inv (Server.buf w) -> 0 <= remain <= Js.two53 ->
  Server.read r w = Server.Ret d w' ->
  exists remain',
    nth_error (Server.heap w') r
    = Some {| BodyReader.length := len;
              BodyReader.read := BodyReader.FromConnLength remain' |}
    /\ blen d = remain - remain' /\ 0 <= remain'
    /\ (0 < remain -> remain' < remain)
    /\ buf_inv (Server.buf w')
    /\ TCPConn.socket_out (Server.conn w')
       = TCPConn.socket_out (Server.conn w).
Proof. exact (read_conn_progress w w' r len remain d). Qed.

(** X9. The body loop of [writeHTTPResp] on a connection-bounded reader
    with at most 2^53 bytes left stops within [remain + 1] reads; when it
    returns, the chunks it wrote are all non-empty and add up to exactly
    [remain] bytes, and the reader is exhausted. *)
Theorem writeBody_writes_remain (fuel : nat) (w : Server.World) (r : nat)
    (len remain : Z) :
  nth_error (Server.heap w) r
  = Some {| BodyReader.length := len;
            BodyReader.read := BodyReader.FromConnLength remain |} ->
  buf_inv (Server.buf w) -> 0 <= remain <= Js.two53 ->
  (Z.to_nat remain < fuel)%nat ->
  Server.writeBody fuel r w <> Server.Fuel
  /\ (forall w',
        Server.writeBody fuel r w = Server.Ret tt w' ->
        exists chunks,
          TCPConn.socket_out (Server.conn w')
          = TCPConn.socket_out (Server.conn w) ++ chunks
          /\ blen (List.concat chunks) = remain
          /\ Forall (fun c => c <> []) chunks
          /\ nth_error (Server.heap w') r
             = Some {| BodyReader.length := len;
                       BodyReader.read := BodyReader.FromConnLength 0 |}
          /\ buf_inv (Server.buf w')).
Proof. exact (writeBody_conn fuel w r len remain). Qed.

(** X10. Draining a connection-bounded request body with at most 2^53
    bytes left stops within [remain + 1] reads, writes nothing, and when it
    returns the reader is exhausted and the buffer invariant holds. *)
Theorem drain_exhausts_reader (fuel : nat) (w : Server.World) (r : nat)
    (len remain : Z) :
  nth_error (Server.heap w) r
  = Some {| BodyReader.length := len;
            BodyReader.read := BodyReader.FromConnLength remain |} ->
  buf_inv (Server.buf w) -> 0 <= remain <= Js.two53 ->
  (Z.to_nat remain < fuel)%nat ->
  Server.drain fuel r w <> Server.Fuel
  /\ (forall w',
        Server.drain fuel r w = Server.Ret tt w' ->
        nth_error (Server.heap w') r
        = Some {| BodyReader.length := len;
                  BodyReader.read := BodyReader.FromConnLength 0 |}
        /\ TCPConn.socket_out (Server.conn w')
           = TCPConn.socket_out (Server.conn w)
        /\ buf_inv (Server.buf w')).
Proof. exact (drain_conn fuel w r len remain). Qed.

(** ** Further properties: header lookup *)

(** A computable test for the absence of a character. *)
Lemma notIn_check (c : ascii) (l : list ascii) :
  forallb (fun x => negb (Ascii.eqb x c)) l = true -> ~ In c l.
Proof.
  intros H Hin. rewrite forallb_forall in H. specialize (H c Hin).
  rewrite Ascii.eqb_refl in H. discriminate.
Qed.

Lemma substring_prefix (s : JsString) (k : Z) :
  0 <= k <= blen s -> Js.substring s 0 k = firstn (Z.to_nat k) s.
Proof.
  intros H. unfold Js.substring.
  replace (Z.min (Z.max 0 0) (blen s)) with 0 by lia.
  replace (Z.min (Z.max k 0) (blen s)) with k by lia.
  replace (Z.min 0 k) with 0 by lia.
  replace (Z.max 0 k) with k by lia.
  rewrite Z.sub_0_r. reflexivity.
Qed.

Lemma substringFrom_suffix (s : JsString) (k : Z) :
  0 <= k <= blen s -> Js.substringFrom s k = skipn (Z.to_nat k) s.
Proof.
  intros H. unfold Js.substringFrom, Js.substring.
  pose proof (blen_nonneg s).
  replace (Z.min (Z.max k 0) (blen s)) with k by lia.
  replace (Z.min (Z.max (blen s) 0) (blen s)) with (blen s) by lia.
  replace (Z.min k (blen s)) with k by lia.
  replace (Z.max k (blen s)) with (blen s) by lia.
  apply firstn_all2. rewrite length_skipn. unfold blen in *. lia.
Qed.

(** Position of the first colon. *)
Lemma indexOf_colon (name value : JsString) (i : Z) :
  ~ In ":"%char name ->
  Js.indexOf_from (name ++ ":"%char :: value) (str ":") i = i + blen name.
Proof.
  revert i. induction name as [|c name IH]; intros i Hn.
  - unfold blen. simpl. lia.
  - change (Js.indexOf_from ((c :: name) ++ ":"%char :: value) (str ":") i)
      with (if Ascii.eqb ":"%char c && true then i
            else Js.indexOf_from (name ++ ":"%char :: value) (str ":")
                   (i + 1)).
    destruct (Ascii.eqb ":"%char c) eqn:E.
    + apply Ascii.eqb_eq in E. contradiction Hn. left. symmetry. exact E.
    + cbn [andb]. rewrite IH by (intros H; apply Hn; right; exact H).
      unfold blen. simpl List.length. lia.
Qed.

Lemma indexOf_no_colon (s : JsString) (i : Z) :
  ~ In ":"%char s -> Js.indexOf_from s (str ":") i = -1.
Proof.
  revert i. induction s as [|c s IH]; intros i Hn; [reflexivity|].
  change (Js.indexOf_from (c :: s) (str ":") i)
    with (if Ascii.eqb ":"%char c && true then i
          else Js.indexOf_from s (str ":") (i + 1)).
  destruct (Ascii.eqb ":"%char c) eqn:E.
  - apply Ascii.eqb_eq in E. contradiction Hn. left. symmetry. exact E.
  - cbn [andb]. apply IH. intros H; apply Hn; right; exact H.
Qed.

(** One step of [fieldGet] on a line with a colon. *)
Lemma fieldGet_step (name value : JsString) (rest : list Buffer)
    (key : JsString) :
  ~ In ":"%char name -> name <> [] ->
  Server.fieldGet ((name ++ ":"%char :: value) :: rest) key
  = if beq (Js.toLowerCase (Js.trim name)) (Js.toLowerCase key)
    then Some (Js.trim value)
    else Server.fieldGet rest key.
Proof.
  intros Hn Hne.
  change (Server.fieldGet ((name ++ ":"%char :: value) :: rest) key)
    with (let headerStr := name ++ ":"%char :: value in
          let colonIndex := Js.indexOf headerStr (str ":") in
          if 0 <? colonIndex then
            if beq (Js.toLowerCase
                      (Js.trim (Js.substring headerStr 0 colonIndex)))
                 (Js.toLowerCase key)
            then Some (Js.trim (Js.substringFrom headerStr (colonIndex + 1)))
            else Server.fieldGet rest key
          else Server.fieldGet rest key).
  cbv zeta. unfold Js.indexOf. rewrite indexOf_colon by exact Hn.
  rewrite Z.add_0_l.
  assert (Hpos : 0 < blen name).
  { destruct name; [contradiction Hne; reflexivity|].
    unfold blen. simpl List.length. lia. }
  replace (0 <? blen name) with true by (symmetry; apply Z.ltb_lt; lia).
  assert (Hlen : blen (name ++ ":"%char :: value)
                 = blen name + 1 + blen value).
  { unfold blen. rewrite length_app. simpl List.length. lia. }
  pose proof (blen_nonneg value) as Hv.
  rewrite substring_prefix by lia.
  rewrite substringFrom_suffix by lia.
  replace (Z.to_nat (blen name)) with (List.length name + 0)%nat
    by (unfold blen; lia).
  rewrite firstn_app_2. simpl firstn. rewrite app_nil_r.
  replace (Z.to_nat (blen name + 1)) with (List.length name + 1)%nat
    by (unfold blen; lia).
  rewrite skipn_app, skipn_all2 by lia.
  replace (List.length name + 1 - List.length name)%nat with 1%nat by lia.
  reflexivity.
Qed.

Lemma fieldGet_skip (h : Buffer) (rest : list Buffer) (key : JsString) :
  ~ In ":"%char h ->
  Server.fieldGet (h :: rest) key = Server.fieldGet rest key.
Proof.
  intros Hn.
  change (Server.fieldGet (h :: rest) key)
    with (let colonIndex := Js.indexOf h (str ":") in
          if 0 <? colonIndex then
            if beq (Js.toLowerCase (Js.trim (Js.substring h 0 colonIndex)))
                 (Js.toLowerCase key)
            then Some (Js.trim (Js.substringFrom h (colonIndex + 1)))
            else Server.fieldGet rest key
          else Server.fieldGet rest key).
  cbv zeta. unfold Js.indexOf. rewrite indexOf_no_colon by exact Hn.
  reflexivity.
Qed.

(** X11. Header lookup: for a line [name:value] whose name is non-empty and
    colon-free, [fieldGet] returns the trimmed value when the trimmed name
    equals the key up to letter case, and otherwise goes on with the
    following lines; a line without any colon is passed over. *)
Theorem fieldGet_lookup (name value : JsString) (rest : list Buffer)
    (key : JsString) :
  ~ In ":"%char name -> name <> [] ->
  (Js.toLowerCase (Js.trim name) = Js.toLowerCase key ->
   Server.fieldGet ((name ++ ":"%char :: value) :: rest) key
   = Some (Js.trim value))
  /\ (Js.toLowerCase (Js.trim name) <> Js.toLowerCase key ->
      Server.fieldGet ((name ++ ":"%char :: value) :: rest) key
      = Server.fieldGet rest key)
  /\ (forall h, ~ In ":"%char h ->
        Server.fieldGet (h :: (name ++ ":"%char :: value) :: rest) key
        = Server.fieldGet ((name ++ ":"%char :: value) :: rest) key).
Proof.
  intros Hn Hne. rewrite (fieldGet_step name value rest key Hn Hne).
  split; [|split].
  - intros E. rewrite E, beq_refl. reflexivity.
  - intros E. destruct (beq _ _) eqn:B; [|reflexivity].
    apply beq_eq in B. contradiction.
  - intros h Hh. rewrite fieldGet_skip by exact Hh.
    apply (fieldGet_step name value rest key Hn Hne).
Qed.

Lemma fieldGet_lookup_witness :
  Server.fieldGet [str "content-LENGTH" ++ ":"%char :: str "  42 "]
    (str "Content-Length")
  = Some (str "42").
Proof.
  destruct (fieldGet_lookup (str "content-LENGTH") (str "  42 ") []
              (str "Content-Length")) as (H & _).
  - apply notIn_check. reflexivity.
  - discriminate.
  - apply H. reflexivity.
Defined.

Lemma dropWhile_fixed (p : ascii -> bool) (s : list ascii) :
  Js.dropWhile p (Js.dropWhile p s) = Js.dropWhile p s.
Proof.
  induction s as [|c s IH]; [reflexivity|].
  simpl. destruct (p c) eqn:E; [exact IH|]. simpl. rewrite E. reflexivity.
Qed.

Lemma dropWhile_head_ok (p : ascii -> bool) (c : ascii) (s : list ascii) :
  p c = false -> Js.dropWhile p (c :: s) = c :: s.
Proof. intros E. simpl. rewrite E. reflexivity. Qed.

(** What [trim] returns has no white space at either end. *)
Lemma trim_ends (s : JsString) :
  Js.dropWhile Js.is_space (Js.trim s) = Js.trim s
  /\ Js.dropWhile Js.is_space (rev (Js.trim s)) = rev (Js.trim s).
Proof.
  unfold Js.trim. set (t := Js.dropWhile Js.is_space s).
  set (u := Js.dropWhile Js.is_space (rev t)).
  split.
  - pose proof (take_drop_while Js.is_space (rev t)) as Ht. fold u in Ht.
    apply (f_equal (@rev ascii)) in Ht.
    rewrite rev_involutive, rev_app_distr in Ht.
    destruct (rev u) as [|c r] eqn:Hu; [reflexivity|].
    apply dropWhile_head_ok.
    simpl in Ht. apply (dropWhile_head Js.is_space s c _ Ht).
  - rewrite rev_involutive. apply dropWhile_fixed.
Qed.

Lemma trim_fixed (s : JsString) :
  Js.dropWhile Js.is_space s = s ->
  Js.dropWhile Js.is_space (rev s) = rev s ->
  Js.trim s = s.
Proof.
  intros H1 H2. unfold Js.trim. rewrite H1, H2. apply rev_involutive.
Qed.

Lemma trim_idem (s : JsString) : Js.trim (Js.trim s) = Js.trim s.
Proof. destruct (trim_ends s) as [H1 H2]. apply trim_fixed; assumption. Qed.

Lemma indexOf_colon_found (s : JsString) (i : Z) :
  Js.indexOf_from s (str ":") i <> -1 ->
  exists pre post,
    s = pre ++ ":"%char :: post /\ ~ In ":"%char pre
    /\ Js.indexOf_from s (str ":") i = i + blen pre.
Proof.
  revert i. induction s as [|c s IH]; intros i H.
  - contradiction H. reflexivity.
  - change (Js.indexOf_from (c :: s) (str ":") i)
      with (if Ascii.eqb ":"%char c && true then i
            else Js.indexOf_from s (str ":") (i + 1)) in *.
    destruct (Ascii.eqb ":"%char c) eqn:E; cbn [andb] in *.
    + apply Ascii.eqb_eq in E. subst c. exists [], s.
      split; [reflexivity|]. split; [intros []|]. unfold blen. simpl. lia.
    + destruct (IH (i + 1) H) as (pre & post & Hs & Hn & Hi).
      exists (c :: pre), post. split; [rewrite Hs; reflexivity|].
      split.
      * intros [Hc | Hc]; [|exact (Hn Hc)].
        subst c. rewrite Ascii.eqb_refl in E. discriminate.
      * rewrite Hi. unfold blen. simpl List.length. lia.
Qed.

(** X12. Whatever [fieldGet] returns comes from a line of the list: that
    line has a colon at a position after its first byte; the part before
    the first colon (it is non-empty and holds no colon) is the key up to
    letter case and surrounding white space, and the result is everything
    after that first colon with the white space at both ends removed. *)
Theorem fieldGet_sound (hs : list Buffer) (key : JsString) (v : Buffer) :
  Server.fieldGet hs key = Some v ->
  Js.trim v = v
  /\ exists name value,
       In (name ++ ":"%char :: value) hs
       /\ name <> []
       /\ ~ In ":"%char name
       /\ Js.toLowerCase (Js.trim name) = Js.toLowerCase key
       /\ v = Js.trim value.
Proof.
  induction hs as [|h hs IH]; [discriminate|].
  change (Server.fieldGet (h :: hs) key)
    with (let colonIndex := Js.indexOf h (str ":") in
          if 0 <? colonIndex then
            if beq (Js.toLowerCase (Js.trim (Js.substring h 0 colonIndex)))
                 (Js.toLowerCase key)
            then Some (Js.trim (Js.substringFrom h (colonIndex + 1)))
            else Server.fieldGet hs key
          else Server.fieldGet hs key).
  cbv zeta. remember (Js.indexOf h (str ":")) as idx eqn:Hidx0.
  assert (Hrest : Server.fieldGet hs key = Some v ->
                  Js.trim v = v
                  /\ exists name value,
                       In (name ++ ":"%char :: value) (h :: hs)
                       /\ name <> []
                       /\ ~ In ":"%char name
                       /\ Js.toLowerCase (Js.trim name) = Js.toLowerCase key
                       /\ v = Js.trim value).
  { intros H.
    destruct (IH H) as (Ht & name & value & Hin & Hne & Hfirst & Hk & Hv).
    split; [exact Ht|]. exists name, value.
    split; [right; exact Hin|]. split; [exact Hne|].
    split; [exact Hfirst|]. split; assumption. }
  destruct (0 <? idx) eqn:Epos; [|exact Hrest].
  apply Z.ltb_lt in Epos.
  destruct (beq _ _) eqn:Ekey; [|exact Hrest].
  apply beq_eq in Ekey.
  intros H. injection H as Hv. subst v.
  split; [apply trim_idem|].
  unfold Js.indexOf in Hidx0.
  destruct (indexOf_colon_found h 0) as (pre & post & Hh & Hfirst & Hidx);
    [lia|].
  assert (Hi : idx = blen pre) by lia. clear Hidx0 Hidx. subst idx.
  assert (Hlen : blen h = blen pre + 1 + blen post).
  { rewrite Hh. unfold blen. rewrite length_app. simpl List.length. lia. }
  pose proof (blen_nonneg post) as Hp.
  rewrite substring_prefix in Ekey by lia.
  rewrite substringFrom_suffix by lia.
  assert (E1 : firstn (Z.to_nat (blen pre)) h = pre).
  { rewrite Hh.
    replace (Z.to_nat (blen pre)) with (List.length pre + 0)%nat
      by (unfold blen; lia).
    rewrite firstn_app_2. simpl. apply app_nil_r. }
  assert (E2 : skipn (Z.to_nat (blen pre + 1)) h = post).
  { rewrite Hh.
    replace (Z.to_nat (blen pre + 1)) with (List.length pre + 1)%nat
      by (unfold blen; lia).
    rewrite skipn_app, skipn_all2 by lia.
    replace (List.length pre + 1 - List.length pre)%nat with 1%nat by lia.
    reflexivity. }
  rewrite E1 in Ekey. rewrite E2.
  exists pre, post. split; [left; exact Hh|].
  split; [|split; [exact Hfirst | split; [exact Ekey | reflexivity]]].
  intros ->. unfold blen in Epos. simpl in Epos. lia.
Qed.

Lemma fieldGet_sound_witness :
  Js.trim (str "chunked") = str "chunked"
  /\ exists name value,
       In (name ++ ":"%char :: value)
          [str "Host: a"; str "transfer-encoding:  chunked "]
       /\ name <> []
       /\ ~ In ":"%char name
       /\ Js.toLowerCase (Js.trim name)
          = Js.toLowerCase (str "Transfer-Encoding")
       /\ str "chunked" = Js.trim value.
Proof.
  apply (fieldGet_sound
           [str "Host: a"; str "transfer-encoding:  chunked "]
           (str "Transfer-Encoding") (str "chunked")).
  reflexivity.
Defined.

(** ** Further properties: the length header read back *)

Lemma digitsOf_digits (d : Decimal.uint) : Forall digit (digitsOf d).
Proof.
  unfold digitsOf, str.
  induction d; simpl; constructor; try reflexivity; assumption.
Qed.

Lemma digitsOf_nonempty (d : Decimal.uint) :
  d <> Decimal.Nil -> digitsOf d <> [].
Proof. destruct d; intros H; try discriminate. contradiction H; reflexivity. Qed.

Lemma dec_fold (d A : Decimal.uint) :
  fold_left (fun acc c => 10 * acc + Js.digit_val c) (digitsOf d)
    (Z.of_N (DecimalPos.Unsigned.of_lu A))
  = Z.of_N (DecimalPos.Unsigned.of_lu (Decimal.revapp d A)).
Proof.
  revert A. unfold digitsOf, str.
  induction d; intros A;
    cbn [list_ascii_of_string NilEmpty.string_of_uint fold_left
         Decimal.revapp]; [reflexivity|..];
    rewrite <- IHd; f_equal;
    cbn [DecimalPos.Unsigned.of_lu];
    rewrite ?N2Z.inj_add, ?N2Z.inj_mul;
    match goal with
    | |- context [Js.digit_val ?c] =>
        let v := eval vm_compute in (Js.digit_val c) in
        change (Js.digit_val c) with v
    end;
    lia.
Qed.

Lemma dec_value_digitsOf (d : Decimal.uint) :
  Js.dec_value (digitsOf d) = Z.of_uint d.
Proof.
  unfold Js.dec_value, Z.of_uint.
  rewrite DecimalPos.Unsigned.of_uint_alt. unfold Decimal.rev.
  apply (dec_fold d Decimal.Nil).
Qed.

Lemma digit_not_space (c : ascii) :
  Js.is_digit c = true ->
  Js.is_space c = false /\ Ascii.eqb c "-"%char = false
  /\ Ascii.eqb c "+"%char = false.
Proof.
  unfold Js.is_digit, Js.is_space. intros H.
  apply andb_true_iff in H as [H1 H2].
  apply Z.leb_le in H1. apply Z.leb_le in H2.
  split; [|split].
  - repeat (apply orb_false_iff; split);
      [apply andb_false_iff; right; apply Z.leb_gt; lia
      | apply Z.eqb_neq; lia | apply Z.eqb_neq; lia].
  - destruct (Ascii.eqb c "-"%char) eqn:E; [|reflexivity].
    apply Ascii.eqb_eq in E. subst c. vm_compute in H1. contradiction H1.
    reflexivity.
  - destruct (Ascii.eqb c "+"%char) eqn:E; [|reflexivity].
    apply Ascii.eqb_eq in E. subst c. vm_compute in H1. contradiction H1.
    reflexivity.
Qed.

Lemma takeWhile_all_true (p : ascii -> bool) (s : list ascii) :
  Forall (fun c => p c = true) s -> Js.takeWhile p s = s.
Proof.
  induction 1 as [|c s Hc Hs IH]; simpl; [reflexivity|].
  rewrite Hc, IH. reflexivity.
Qed.

(** [parseInt] on a non-empty run of digits. *)
Lemma parseInt10_digits (s : JsString) :
  s <> [] -> Forall digit s ->
  Js.parseInt10 s = Some (Js.toDouble (Js.dec_value s)).
Proof.
  intros Hne Hd. destruct s as [|c s]; [contradiction Hne; reflexivity|].
  inversion Hd as [|? ? Hc Hs]; subst.
  destruct (digit_not_space c Hc) as (Hsp & Hm & Hp).
  unfold Js.parseInt10. rewrite (dropWhile_head_ok _ _ _ Hsp), Hm, Hp.
  rewrite (takeWhile_all_true Js.is_digit (c :: s) Hd).
  f_equal. f_equal. lia.
Qed.

Lemma decimal_digits (n : Z) :
  0 <= n ->
  exists d, Js.decimal n = digitsOf d /\ d <> Decimal.Nil
            /\ Z.of_uint d = n.
Proof.
  intros Hn. unfold Js.decimal.
  pose proof (DecimalZ.of_to n) as Hz.
  destruct n as [|p|p]; [| |lia].
  - exists Decimal.zero. repeat split; discriminate.
  - exists (Pos.to_uint p). simpl Z.to_int in *. simpl Z.of_int in Hz.
    pose proof (DecimalPos.Unsigned.to_uint_nonnil p) as Hnn.
    split; [|split; [exact Hnn | exact Hz]].
    unfold NilZero.string_of_int, NilZero.string_of_uint, digitsOf.
    destruct (Pos.to_uint p); try reflexivity. contradiction Hnn; reflexivity.
Qed.

Lemma numToString_digits (n : Z) :
  0 <= n <= Js.two53 ->
  exists d, Js.numToString n = digitsOf d /\ d <> Decimal.Nil
            /\ Z.of_uint d = n.
Proof.
  intros Hn. rewrite numToString_exact by lia. apply decimal_digits. lia.
Qed.

Lemma parseDec_numToString_eq (n : Z) :
  0 <= n <= Js.two53 -> Server.parseDec (Js.numToString n) = Some n.
Proof.
  intros Hn. destruct (numToString_digits n Hn) as (d & -> & Hd & Hv).
  unfold Server.parseDec.
  rewrite parseInt10_digits
    by (try apply digitsOf_nonempty; try apply digitsOf_digits; exact Hd).
  rewrite dec_value_digitsOf, Hv. rewrite toDouble_exact by lia.
  reflexivity.
Qed.

(** X13. Printing a length between 0 and 2^53 as in the [Content-Length]
    line and reading it back with [parseDec] gives the same number. *)
Theorem parseDec_numToString (n : Z) :
  0 <= n <= Js.two53 -> Server.parseDec (Js.numToString n) = Some n.
Proof. exact (parseDec_numToString_eq n). Qed.

Lemma parseDec_numToString_witness :
  Server.parseDec (Js.numToString 8192) = Some 8192.
Proof. apply (parseDec_numToString 8192). vm_compute. split; discriminate. Defined.

Lemma fieldGet_app_None (hs l : list Buffer) (key : JsString) :
  Server.fieldGet hs key = None ->
  Server.fieldGet (hs ++ l) key = Server.fieldGet l key.
Proof.
  induction hs as [|h hs IH]; [reflexivity|].
  simpl app.
  change (Server.fieldGet (h :: hs ++ l) key)
    with (let colonIndex := Js.indexOf h (str ":") in
          if 0 <? colonIndex then
            if beq (Js.toLowerCase (Js.trim (Js.substring h 0 colonIndex)))
                 (Js.toLowerCase key)
            then Some (Js.trim (Js.substringFrom h (colonIndex + 1)))
            else Server.fieldGet (hs ++ l) key
          else Server.fieldGet (hs ++ l) key).
  change (Server.fieldGet (h :: hs) key)
    with (let colonIndex := Js.indexOf h (str ":") in
          if 0 <? colonIndex then
            if beq (Js.toLowerCase (Js.trim (Js.substring h 0 colonIndex)))
                 (Js.toLowerCase key)
            then Some (Js.trim (Js.substringFrom h (colonIndex + 1)))
            else Server.fieldGet hs key
          else Server.fieldGet hs key).
  cbv zeta. destruct (0 <? Js.indexOf h (str ":")); [|exact IH].
  destruct (beq _ _); [discriminate | exact IH].
Qed.

Lemma dropWhile_space_digits (s : list ascii) :
  Forall digit s -> Js.dropWhile Js.is_space s = s.
Proof.
  intros H. destruct H as [|c s Hc Hs]; [reflexivity|].
  apply dropWhile_head_ok. apply (digit_not_space c Hc).
Qed.

Lemma trim_space_digits (s : list ascii) :
  Forall digit s -> Js.trim (" "%char :: s) = s.
Proof.
  intros H. unfold Js.trim.
  change (Js.dropWhile Js.is_space (" "%char :: s))
    with (Js.dropWhile Js.is_space s).
  rewrite (dropWhile_space_digits s H).
  rewrite (dropWhile_space_digits (rev s)) by (apply Forall_rev; exact H).
  apply rev_involutive.
Qed.

Lemma fieldGet_contentLength_line (n : Z) :
  0 <= n <= Js.two53 ->
  Server.fieldGet [str "Content-Length: " ++ Js.numToString n]
    (str "Content-Length")
  = Some (Js.numToString n).
Proof.
  intros Hn. destruct (numToString_digits n Hn) as (d & -> & _ & _).
  change (str "Content-Length: " ++ digitsOf d)
    with (str "Content-Length" ++ ":"%char :: " "%char :: digitsOf d).
  rewrite fieldGet_step;
    [| apply notIn_check; reflexivity | discriminate].
  change (beq (Js.toLowerCase (Js.trim (str "Content-Length")))
            (Js.toLowerCase (str "Content-Length"))) with true.
  cbv iota. rewrite trim_space_digits by apply digitsOf_digits.
  reflexivity.
Qed.

(** X14. The length header read back: when the handler's header lines hold
    no [Content-Length], the line [writeHTTPResp] appends for a body length
    [n] between 0 and 2^53 is the one [fieldGet] finds under that name, and
    [parseDec] turns its value back into [n]. *)
Theorem contentLength_header_roundtrip (hs : list Buffer) (n : Z) :
  0 <= n <= Js.two53 ->
  Server.fieldGet hs (str "Content-Length") = None ->
  exists v,
    Server.fieldGet
      (hs ++ [str "Content-Length: " ++ Js.numToString n])
      (str "Content-Length") = Some v
    /\ Server.parseDec (Js.toString_latin1 v) = Some n.
Proof.
  intros Hn Hnone. exists (Js.numToString n).
  rewrite fieldGet_app_None by exact Hnone.
  split; [apply fieldGet_contentLength_line, Hn|].
  apply parseDec_numToString_eq, Hn.
Qed.

Lemma contentLength_header_roundtrip_witness :
  exists v,
    Server.fieldGet
      ([str "Server: my_first_http_server"]
         ++ [str "Content-Length: " ++ Js.numToString 13])
      (str "Content-Length") = Some v
    /\ Server.parseDec (Js.toString_latin1 v) = Some 13.
Proof.
  apply (contentLength_header_roundtrip
           [str "Server: my_first_http_server"] 13).
  - vm_compute. split; discriminate.
  - reflexivity.
Defined.

(** ** Further properties: header validation *)

Lemma split_at_colon (pre post : JsString) :
  Js.substring (pre ++ ":"%char :: post) 0 (blen pre) = pre
  /\ Js.substringFrom (pre ++ ":"%char :: post) (blen pre + 1) = post.
Proof.
  assert (Hlen : blen (pre ++ ":"%char :: post) = blen pre + 1 + blen post).
  { unfold blen. rewrite length_app. simpl List.length. lia. }
  pose proof (blen_nonneg pre). pose proof (blen_nonneg post).
  split.
  - rewrite substring_prefix by lia.
    replace (Z.to_nat (blen pre)) with (List.length pre + 0)%nat
      by (unfold blen; lia).
    rewrite firstn_app_2. simpl. apply app_nil_r.
  - rewrite substringFrom_suffix by lia.
    replace (Z.to_nat (blen pre + 1)) with (List.length pre + 1)%nat
      by (unfold blen; lia).
    rewrite skipn_app, skipn_all2 by lia.
    replace (List.length pre + 1 - List.length pre)%nat with 1%nat by lia.
    reflexivity.
Qed.

(** X15. What [validateHeader] accepts: the decoded line has a colon; the
    part before the first colon, trimmed, is a non-empty run of token
    characters; the part after it, trimmed, holds only tab and printable
    characters.  When all bytes of the line are below 128, [fieldGet] finds
    the line under that name and returns that value. *)
Theorem validateHeader_sound (h : Buffer) :
  HttpParser.validateHeader h = true ->
  exists name value,
    Js.toString_ascii h = name ++ ":"%char :: value
    /\ ~ In ":"%char name
    /\ Js.trim name <> []
    /\ Forall (fun c => HttpParser.is_token_char c = true) (Js.trim name)
    /\ Forall (fun c => HttpParser.is_value_char c = true) (Js.trim value)
    /\ (Js.toString_ascii h = h ->
        forall rest,
          Server.fieldGet (h :: rest) (Js.trim name) = Some (Js.trim value)).
Proof.
  unfold HttpParser.validateHeader. cbv zeta.
  set (s := Js.toString_ascii h).
  unfold Js.indexOf.
  destruct (Js.indexOf_from s (str ":") 0 =? -1) eqn:E; [discriminate|].
  apply Z.eqb_neq in E.
  destruct (indexOf_colon_found s 0 E) as (pre & post & Hs & Hn & Hi).
  rewrite Hi, Z.add_0_l, Hs.
  destruct (split_at_colon pre post) as [-> ->].
  destruct (HttpParser.tokenRegex (Js.trim pre)) eqn:Et; [|discriminate].
  destruct (HttpParser.valueRegex (Js.trim post)) eqn:Ev; [|discriminate].
  intros _. cbn [negb] in *.
  unfold HttpParser.tokenRegex in Et. apply andb_true_iff in Et as [Et1 Et2].
  assert (Hne : Js.trim pre <> []).
  { intros Z0. rewrite Z0 in Et1. discriminate. }
  exists pre, post.
  split; [reflexivity|]. split; [exact Hn|]. split; [exact Hne|].
  split; [apply Forall_forall; rewrite forallb_forall in Et2; exact Et2|].
  split.
  { apply Forall_forall. unfold HttpParser.valueRegex in Ev.
    rewrite forallb_forall in Ev. exact Ev. }
  intros Hascii rest. rewrite <- Hascii.
  rewrite fieldGet_step.
  - rewrite beq_refl. reflexivity.
  - exact Hn.
  - intros ->. apply Hne. reflexivity.
Qed.

Lemma validateHeader_sound_witness :
  exists name value,
    Js.toString_ascii (str "Host : example.org ")
    = name ++ ":"%char :: value
    /\ ~ In ":"%char name
    /\ Js.trim name <> []
    /\ Forall (fun c => HttpParser.is_token_char c = true) (Js.trim name)
    /\ Forall (fun c => HttpParser.is_value_char c = true) (Js.trim value)
    /\ (Js.toString_ascii (str "Host : example.org ")
        = str "Host : example.org " ->
        forall rest,
          Server.fieldGet (str "Host : example.org " :: rest) (Js.trim name)
          = Some (Js.trim value)).
Proof.
  apply (validateHeader_sound (str "Host : example.org ")).
  reflexivity.
Defined.

(** ** Further properties: the connection loop at end of stream *)

Lemma cutMessage_incomplete (b : DynBuf.t) :
  Js.indexOf (valid b) (CRLF ++ CRLF) < 0 ->
  DynBuf.length b <= 8192 ->
  HttpParser.cutMessage b = Ok (None, b).
Proof.
  intros Hidx Hlen. unfold HttpParser.cutMessage, HttpParser.cutMessage_with.
  fold (valid b). apply Z.ltb_lt in Hidx. rewrite Hidx.
  change HttpParser.kMaxHeaderSize with 8192.
  replace (DynBuf.length b >? 8192) with false; [reflexivity|].
  symmetry. rewrite Z.gtb_ltb. apply Z.ltb_ge. lia.
Qed.

(** End of stream while no complete request is buffered. *)
Lemma serverLoop_eof (fuel : nat) (w : Server.World) :
  TCPConn.err (Server.conn w) = None ->
  Js.indexOf (valid (Server.buf w)) (CRLF ++ CRLF) < 0 ->
  DynBuf.length (Server.buf w) <= 8192 ->
  (TCPConn.ended (Server.conn w) = true
   \/ exists rest,
        TCPConn.ended (Server.conn w) = false
        /\ TCPConn.socket_in (Server.conn w) = TCPConn.EvEnd :: rest) ->
  exists w',
    Server.serverLoop HttpParser.cutMessage (S fuel) w = Server.Ret tt w'
    /\ TCPConn.socket_out (Server.conn w')
       = TCPConn.socket_out (Server.conn w)
    /\ TCPConn.ended (Server.conn w') = true.
Proof.
  intros He Hidx Hlen Hend.
  pose proof (cutMessage_incomplete (Server.buf w) Hidx Hlen) as Hcut.
  destruct w as [[e en sin sout rds] b h]. cbn in He, Hcut, Hend. subst e.
  cbn [Server.serverLoop]. unfold Server.bind at 1. unfold Server.getBuf.
  cbn [Server.buf]. unfold Server.bind at 1. rewrite Hcut.
  cbn [Server.lift Server.ret]. unfold Server.bind at 1.
  cbn [Server.setBuf snd fst Server.conn Server.buf Server.heap].
  destruct Hend as [-> | (rest & -> & ->)].
  - eexists. split; [reflexivity|]. split; reflexivity.
  - eexists. split; [reflexivity|]. split; reflexivity.
Qed.

(** X16. End of stream while no complete request is buffered: whether the
    end was already seen or is the next thing the socket delivers, the loop
    returns normally, writes nothing and leaves the connection marked as
    ended; bytes of an unfinished request are dropped without an error. *)
Theorem serverLoop_client_closes (fuel : nat) (w : Server.World) :
  TCPConn.err (Server.conn w) = None ->
  Js.indexOf (valid (Server.buf w)) (CRLF ++ CRLF) < 0 ->
  DynBuf.length (Server.buf w) <= 8192 ->
  (TCPConn.ended (Server.conn w) = true
   \/ exists rest,
        TCPConn.ended (Server.conn w) = false
        /\ TCPConn.socket_in (Server.conn w) = TCPConn.EvEnd :: rest) ->
  exists w',
    Server.serverLoop HttpParser.cutMessage (S fuel) w = Server.Ret tt w'
    /\ TCPConn.socket_out (Server.conn w')
       = TCPConn.socket_out (Server.conn w)
    /\ TCPConn.ended (Server.conn w') = true.
Proof. exact (serverLoop_eof fuel w). Qed.

Lemma serverLoop_client_closes_witness :
  exists w',
    Server.serverLoop HttpParser.cutMessage 1
      {| Server.conn := Server.freshConn [TCPConn.EvEnd];
         Server.buf :=
           BufferUtils.bufpush Server.emptyBuf (str "GET /hello HT");
         Server.heap := [] |}
    = Server.Ret tt w'
    /\ TCPConn.socket_out (Server.conn w')
       = TCPConn.socket_out
           (Server.conn
              {| Server.conn := Server.freshConn [TCPConn.EvEnd];
                 Server.buf :=
                   BufferUtils.bufpush Server.emptyBuf (str "GET /hello HT");
                 Server.heap := [] |})
    /\ TCPConn.ended (Server.conn w') = true.
Proof.
  apply (serverLoop_client_closes 0
           {| Server.conn := Server.freshConn [TCPConn.EvEnd];
              Server.buf :=
                BufferUtils.bufpush Server.emptyBuf (str "GET /hello HT");
              Server.heap := [] |}).
  - reflexivity.
  - vm_compute. reflexivity.
  - vm_compute. discriminate.
  - right. exists []. split; reflexivity.
Defined.

(** ** Further properties: witnesses for the reader loops *)

Lemma connLength_reader_progress_witness :
  exists remain',
    nth_error (Server.heap bodyWorld1) 0
    = Some {| BodyReader.length := 5;
              BodyReader.read := BodyReader.FromConnLength remain' |}
    /\ blen (str "hel") = 5 - remain' /\ 0 <= remain'
    /\ (0 < 5 -> remain' < 5)
    /\ buf_inv (Server.buf bodyWorld1)
    /\ TCPConn.socket_out (Server.conn bodyWorld1)
       = TCPConn.socket_out (Server.conn bodyWorld).
Proof.
  apply (connLength_reader_progress bodyWorld bodyWorld1 0 5 5 (str "hel")).
  - reflexivity.
  - vm_compute. split; discriminate.
  - vm_compute. split; discriminate.
  - vm_compute. reflexivity.
Defined.

Lemma writeBody_writes_remain_witness :
  Server.writeBody 6 0 bodyWorld <> Server.Fuel
  /\ (forall w',
        Server.writeBody 6 0 bodyWorld = Server.Ret tt w' ->
        exists chunks,
          TCPConn.socket_out (Server.conn w')
          = TCPConn.socket_out (Server.conn bodyWorld) ++ chunks
          /\ blen (List.concat chunks) = 5
          /\ Forall (fun c => c <> []) chunks
          /\ nth_error (Server.heap w') 0
             = Some {| BodyReader.length := 5;
                       BodyReader.read := BodyReader.FromConnLength 0 |}
          /\ buf_inv (Server.buf w')).
Proof.
  apply (writeBody_writes_remain 6 bodyWorld 0 5 5).
  - reflexivity.
  - vm_compute. split; discriminate.
  - vm_compute. split; discriminate.
  - vm_compute. lia.
Defined.

Lemma drain_exhausts_reader_witness :
  Server.drain 6 0 bodyWorld <> Server.Fuel
  /\ (forall w',
        Server.drain 6 0 bodyWorld = Server.Ret tt w' ->
        nth_error (Server.heap w') 0
        = Some {| BodyReader.length := 5;
                  BodyReader.read := BodyReader.FromConnLength 0 |}
        /\ TCPConn.socket_out (Server.conn w')
           = TCPConn.socket_out (Server.conn bodyWorld)
        /\ buf_inv (Server.buf w')).
Proof.
  apply (drain_exhausts_reader 6 bodyWorld 0 5 5).
  - reflexivity.
  - vm_compute. split; discriminate.
  - vm_compute. split; discriminate.
  - vm_compute. lia.
Defined.

(** ** Further properties: the buffer over a connection's life *)

(** X17. Appending and consuming: [bufpush] makes the whole array, whatever
    it held, followed by the new bytes the valid region; consuming [n] of
    them then leaves the remaining ones in order.  Both operations keep the
    invariant, and the array never shrinks: after the two calls it is as
    long as before plus the appended bytes. *)
Theorem bufpush_then_bufPop (b : DynBuf.t) (d : Buffer) (n : Z) :
  0 <= n <= blen (DynBuf.data b) + blen d ->
  buf_inv (BufferUtils.bufpush b d)
  /\ valid (BufferUtils.bufpush b d) = DynBuf.data b ++ d
  /\ buf_inv (BufferUtils.bufPop (BufferUtils.bufpush b d) n)
  /\ valid (BufferUtils.bufPop (BufferUtils.bufpush b d) n)
     = skipn (Z.to_nat n) (DynBuf.data b ++ d)
  /\ blen (DynBuf.data (BufferUtils.bufPop (BufferUtils.bufpush b d) n))
     = blen (DynBuf.data b) + blen d.
Proof.
  intros Hn.
  assert (Hlen : blen (DynBuf.data b ++ d) = blen (DynBuf.data b) + blen d).
  { unfold blen. rewrite length_app. lia. }
  assert (Hv : valid (BufferUtils.bufpush b d) = DynBuf.data b ++ d).
  { unfold valid, BufferUtils.bufpush. cbn [DynBuf.data DynBuf.length].
    pose proof (blen_nonneg (DynBuf.data b ++ d)).
    rewrite subarray_prefix by lia.
    apply firstn_all2. unfold blen. lia. }
  pose proof (buf_inv_bufpush b d) as Hinv.
  split; [exact Hinv|]. split; [exact Hv|].
  split.
  { apply buf_inv_bufPop; [exact Hinv|].
    unfold BufferUtils.bufpush. cbn [DynBuf.length]. lia. }
  split.
  { rewrite bufPop_valid.
    - rewrite Hv. reflexivity.
    - unfold BufferUtils.bufpush. cbn [DynBuf.length]. lia.
    - unfold BufferUtils.bufpush. cbn [DynBuf.length DynBuf.data]. lia. }
  rewrite bufPop_physical_size. unfold BufferUtils.bufpush.
  cbn [DynBuf.data]. exact Hlen.
Qed.

Lemma bufpush_then_bufPop_witness :
  buf_inv (BufferUtils.bufpush
             {| DynBuf.data := str "abc"; DynBuf.length := 1 |} (str "de"))
  /\ valid (BufferUtils.bufpush
              {| DynBuf.data := str "abc"; DynBuf.length := 1 |} (str "de"))
     = DynBuf.data {| DynBuf.data := str "abc"; DynBuf.length := 1 |}
         ++ str "de"
  /\ buf_inv (BufferUtils.bufPop
                (BufferUtils.bufpush
                   {| DynBuf.data := str "abc"; DynBuf.length := 1 |}
                   (str "de")) 2)
  /\ valid (BufferUtils.bufPop
              (BufferUtils.bufpush
                 {| DynBuf.data := str "abc"; DynBuf.length := 1 |}
                 (str "de")) 2)
     = skipn (Z.to_nat 2)
         (DynBuf.data {| DynBuf.data := str "abc"; DynBuf.length := 1 |}
            ++ str "de")
  /\ blen (DynBuf.data
             (BufferUtils.bufPop
                (BufferUtils.bufpush
                   {| DynBuf.data := str "abc"; DynBuf.length := 1 |}
                   (str "de")) 2))
     = blen (DynBuf.data {| DynBuf.data := str "abc"; DynBuf.length := 1 |})
       + blen (str "de").
Proof.
  apply (bufpush_then_bufPop
           {| DynBuf.data := str "abc"; DynBuf.length := 1 |} (str "de") 2).
  vm_compute. split; discriminate.
Defined.

(** ** Further properties: readers *)

(** X18. For a method other than GET and HEAD: a length header that parses
    to [n >= 0] gives a connection-bounded reader whose declared length and
    remaining count are both [n]; without a length header the request is
    refused with 501, for chunked encoding as for read-until-close. *)
Theorem readerFromReq_body_methods (req : HTTPReq.t) (w : Server.World) :
  ~ bodiless req ->
  (forall v n, contentLen req = Some v -> Server.parseDec v = Some n ->
     0 <= n ->
     Server.readerFromReq req w
     = Server.Ret (List.length (Server.heap w))
         (withReader w
            {| BodyReader.length := n;
               BodyReader.read := BodyReader.FromConnLength n |}))
  /\ (contentLen req = None -> chunked req = true ->
      Server.readerFromReq req w
      = Server.Raise (HTTPError 501 (str "TODO: chunked encoding")) w)
  /\ (contentLen req = None -> chunked req = false ->
      Server.readerFromReq req w
      = Server.Raise (HTTPError 501 (str "TODO: read until EOF")) w).
Proof.
  intros Hm. rewrite readerFromReq_cases. cbv zeta.
  rewrite (method_test_false req Hm). cbn [andb].
  split; [|split].
  - intros v n Hv Hp Hn. rewrite Hv, Hp.
    replace (n >=? 0) with true; [reflexivity|].
    symmetry. apply Z.geb_le. lia.
  - intros Hv Hc. rewrite Hv, Hc. reflexivity.
  - intros Hv Hc. rewrite Hv, Hc. reflexivity.
Qed.

Lemma readerFromReq_body_methods_witness :
  Server.readerFromReq (mkReq "POST" "/echo" "Content-Length: 5") servedWorld
  = Server.Ret (List.length (Server.heap servedWorld))
      (withReader servedWorld
         {| BodyReader.length := 5;
            BodyReader.read := BodyReader.FromConnLength 5 |}).
Proof.
  destruct (readerFromReq_body_methods
              (mkReq "POST" "/echo" "Content-Length: 5") servedWorld)
    as (H & _).
  - intros [H | H]; discriminate H.
  - apply (H (str "5") 5).
    + reflexivity.
    + reflexivity.
    + lia.
Defined.

Lemma nth_error_snoc {A} (l : list A) (x : A) :
  nth_error (l ++ [x]) (List.length l) = Some x.
Proof.
  rewrite nth_error_app2 by lia. rewrite Nat.sub_diag. reflexivity.
Qed.

(** X19. A memory reader serves its data exactly once: its declared length
    is the size of the data, the first read returns the data whole, and any
    number of later reads return the empty chunk; none of this touches the
    connection or the buffer. *)
Theorem readerFromMemory_serves_once (w : Server.World) (d : Buffer)
    (n : nat) :
  exists r w1 w2,
    Server.readerFromMemory d w = Server.Ret r w1
    /\ (exists rd, nth_error (Server.heap w1) r = Some rd
                   /\ BodyReader.length rd = blen d)
    /\ Server.read r w1 = Server.Ret d w2
    /\ read_n n r w2 = Server.Ret (repeat [] n) w2
    /\ Server.conn w2 = Server.conn w /\ Server.buf w2 = Server.buf w.
Proof.
  set (rd := {| BodyReader.length := blen d;
                BodyReader.read := BodyReader.FromMemory d false |}).
  set (w1 := withReader w rd).
  assert (Hr : nth_error (Server.heap w1) (List.length (Server.heap w))
               = Some rd) by apply nth_error_snoc.
  destruct (readerFromMemory_first_read w1 _ d (blen d) Hr)
    as (w2 & Hread & Hr2 & Hc & Hb).
  exists (List.length (Server.heap w)), w1, w2.
  split; [reflexivity|]. split; [exists rd; split; [exact Hr | reflexivity]|].
  split; [exact Hread|]. split; [|split; [exact Hc | exact Hb]].
  induction n as [|n IH]; [reflexivity|].
  simpl. unfold Server.bind at 1.
  rewrite (read_exhausted w2 _ _ Hr2 eq_refl).
  unfold Server.bind. rewrite IH. reflexivity.
Qed.

(** ** Further properties: the response on the wire *)

(** X20. A response whose body is a fresh memory reader over [B], on a
    connection without error: [writeHTTPResp] returns after writing one
    header chunk (status line, the handler's header lines in order, then
    the length line for [len(B)], each ended by CR LF) followed by [B]
    itself, or by nothing when [B] is empty. *)
Theorem writeHTTPResp_memory_stream (w : Server.World) (resp : HTTPRes.t)
    (B : Buffer) (fuel : nat) :
  nth_error (Server.heap w) (HTTPRes.body resp)
  = Some {| BodyReader.length := blen B;
            BodyReader.read := BodyReader.FromMemory B false |} ->
  TCPConn.err (Server.conn w) = None ->
  exists w',
    Server.writeHTTPResp (S (S fuel)) resp w = Server.Ret tt w'
    /\ TCPConn.socket_out (Server.conn w')
       = TCPConn.socket_out (Server.conn w)
           ++ [statusLine (HTTPRes.code resp) ++ CRLF
               ++ List.concat
                    (map (fun h => h ++ CRLF) (HTTPRes.headers resp))
               ++ (str "Content-Length: " ++ Js.numToString (blen B))
               ++ CRLF]
           ++ (if blen B =? 0 then [] else [B]).
Proof. exact (writeHTTPResp_memory w resp B fuel). Qed.

Lemma writeHTTPResp_memory_stream_witness :
  exists w',
    Server.writeHTTPResp 2 echoResp
      {| Server.conn := quietConn; Server.buf := Server.emptyBuf;
         Server.heap :=
           [{| BodyReader.length := blen helloBody;
               BodyReader.read := BodyReader.FromMemory helloBody false |}] |}
    = Server.Ret tt w'
    /\ TCPConn.socket_out (Server.conn w')
       = TCPConn.socket_out (Server.conn
           {| Server.conn := quietConn; Server.buf := Server.emptyBuf;
              Server.heap :=
                [{| BodyReader.length := blen helloBody;
                    BodyReader.read :=
                      BodyReader.FromMemory helloBody false |}] |})
           ++ [statusLine (HTTPRes.code echoResp) ++ CRLF
               ++ List.concat
                    (map (fun h => h ++ CRLF) (HTTPRes.headers echoResp))
               ++ (str "Content-Length: " ++ Js.numToString (blen helloBody))
               ++ CRLF]
           ++ (if blen helloBody =? 0 then [] else [helloBody]).
Proof.
  apply (writeHTTPResp_memory_stream
           {| Server.conn := quietConn; Server.buf := Server.emptyBuf;
              Server.heap :=
                [{| BodyReader.length := blen helloBody;
                    BodyReader.read :=
                      BodyReader.FromMemory helloBody false |}] |}
           echoResp helloBody 0).
  - reflexivity.
  - reflexivity.
Defined.

Lemma writeHTTPResp_conn (fuel : nat) (w : Server.World) (resp : HTTPRes.t)
    (n : Z) :
  nth_error (Server.heap w) (HTTPRes.body resp)
  = Some {| BodyReader.length := n;
            BodyReader.read := BodyReader.FromConnLength n |} ->
  buf_inv (Server.buf w) -> 0 <= n <= Js.two53 -> (Z.to_nat n < fuel)%nat ->
  Server.writeHTTPResp fuel resp w <> Server.Fuel
  /\ (forall w',
        Server.writeHTTPResp fuel resp w = Server.Ret tt w' ->
        exists chunks,
          TCPConn.socket_out (Server.conn w')
          = TCPConn.socket_out (Server.conn w)
              ++ Server.encodeHTTPResp (withLength resp n) :: chunks
          /\ blen (List.concat chunks) = n
          /\ Forall (fun c => c <> []) chunks).
Proof.
  intros Hr Hinv Hn Hf.
  assert (E : Server.writeHTTPResp fuel resp w
              = Server.bind
                  (Server.soWrite (Server.encodeHTTPResp (withLength resp n)))
                  (fun _ => Server.writeBody fuel (HTTPRes.body resp)) w).
  { unfold Server.writeHTTPResp.
    unfold Server.bind at 1. unfold Server.deref. rewrite Hr.
    cbn [BodyReader.length].
    replace (n <? 0) with false by (symmetry; apply Z.ltb_ge; lia).
    reflexivity. }
  rewrite E. clear E. unfold Server.bind.
  destruct (soWrite_cases w (Server.encodeHTTPResp (withLength resp n)))
    as [(w1 & Hw & Hout & Hheap & Hbuf) | (e & Hw)]; rewrite Hw; cbv iota beta.
  - destruct (writeBody_conn fuel w1 (HTTPRes.body resp) n n)
      as (HnF & Hret);
      [rewrite Hheap; exact Hr | rewrite Hbuf; exact Hinv | exact Hn
      | exact Hf |].
    split; [exact HnF|].
    intros w' H. destruct (Hret w' H) as (chunks & H1 & H2 & H3 & _).
    exists chunks. split; [|split; assumption].
    rewrite H1, Hout, <- app_assoc. reflexivity.
  - split; [discriminate | intros w' H; discriminate].
Qed.

(** X21. Framing of a response whose body is a connection-bounded reader
    of declared length [n], at most 2^53 (the echo path): [writeHTTPResp]
    stops within [n + 1] body reads, and when it returns the wire holds the
    header chunk announcing [Content-Length: n] followed by non-empty body
    chunks of exactly [n] bytes in total. *)
Theorem writeHTTPResp_conn_framing (fuel : nat) (w : Server.World)
    (resp : HTTPRes.t) (n : Z) :
  nth_error (Server.heap w) (HTTPRes.body resp)
  = Some {| BodyReader.length := n;
            BodyReader.read := BodyReader.FromConnLength n |} ->
  buf_inv (Server.buf w) -> 0 <= n <= Js.two53 -> (Z.to_nat n < fuel)%nat ->
  Server.writeHTTPResp fuel resp w <> Server.Fuel
  /\ (forall w',
        Server.writeHTTPResp fuel resp w = Server.Ret tt w' ->
        exists chunks,
          TCPConn.socket_out (Server.conn w')
          = TCPConn.socket_out (Server.conn w)
              ++ Server.encodeHTTPResp (withLength resp n) :: chunks
          /\ blen (List.concat chunks) = n
          /\ Forall (fun c => c <> []) chunks).
Proof. exact (writeHTTPResp_conn fuel w resp n). Qed.

Lemma writeHTTPResp_conn_framing_witness :
  Server.writeHTTPResp 6 echoResp bodyWorld <> Server.Fuel
  /\ (forall w',
        Server.writeHTTPResp 6 echoResp bodyWorld = Server.Ret tt w' ->
        exists chunks,
          TCPConn.socket_out (Server.conn w')
          = TCPConn.socket_out (Server.conn bodyWorld)
              ++ Server.encodeHTTPResp (withLength echoResp 5) :: chunks
          /\ blen (List.concat chunks) = 5
          /\ Forall (fun c => c <> []) chunks).
Proof.
  apply (writeHTTPResp_conn_framing 6 bodyWorld echoResp 5).
  - reflexivity.
  - vm_compute. split; discriminate.
  - vm_compute. split; discriminate.
  - vm_compute. lia.
Defined.

Lemma digit_not_LF (c : ascii) : digit c -> c <> LF.
Proof. intros H ->. vm_compute in H. discriminate. Qed.

Lemma digitsOf_no_LF (d : Decimal.uint) : ~ In LF (digitsOf d).
Proof.
  intros H. pose proof (digitsOf_digits d) as Hd. rewrite Forall_forall in Hd.
  exact (digit_not_LF LF (Hd LF H) eq_refl).
Qed.

Lemma decimal_no_LF (n : Z) : ~ In LF (Js.decimal n).
Proof.
  destruct (Z_lt_le_dec n 0) as [Hneg | Hpos].
  - destruct n as [|p|p]; try lia.
    unfold Js.decimal. cbn [Z.to_int NilZero.string_of_int].
    unfold NilZero.string_of_uint.
    intros [H | H]; [discriminate H|].
    destruct (Pos.to_uint p) eqn:E;
      try (rewrite <- E in H; revert H; apply (digitsOf_no_LF (Pos.to_uint p))).
    revert H. apply no_LF_check. reflexivity.
  - destruct (decimal_digits n Hpos) as (d & -> & _ & _).
    apply digitsOf_no_LF.
Qed.

Lemma In_firstn {A} (x : A) (k : nat) (l : list A) :
  In x (firstn k l) -> In x l.
Proof.
  intros H. rewrite <- (firstn_skipn k l). apply in_or_app. left. exact H.
Qed.

Lemma In_skipn {A} (x : A) (k : nat) (l : list A) :
  In x (skipn k l) -> In x l.
Proof.
  intros H. rewrite <- (firstn_skipn k l). apply in_or_app. right. exact H.
Qed.

Lemma positiveToString_no_LF (x : Z) : ~ In LF (Js.positiveToString x).
Proof.
  unfold Js.positiveToString.
  destruct (x =? Js.Infinity); [apply no_LF_check; reflexivity|].
  destruct (Js.shortest x (blen (Js.decimal x)) 1 17) as [[s k] n].
  destruct (n <=? 21).
  - intros H. apply in_app_or in H as [H | H].
    + exact (decimal_no_LF s H).
    + apply repeat_spec in H. discriminate H.
  - intros H. apply in_app_or in H as [H | H].
    + exact (decimal_no_LF s (In_firstn _ _ _ H)).
    + apply in_app_or in H as [H | H].
      * destruct (k =? 1); [contradiction H|].
        destruct H as [H | H]; [discriminate H|].
        exact (decimal_no_LF s (In_skipn _ _ _ H)).
      * apply in_app_or in H as [H | H].
        -- revert H. apply no_LF_check. reflexivity.
        -- exact (decimal_no_LF _ H).
Qed.

Lemma numToString_no_LF (n : Z) : ~ In LF (Js.numToString n).
Proof.
  unfold Js.numToString.
  destruct (Z.abs n <=? Js.two53); [apply decimal_no_LF|].
  destruct (n <? 0).
  - intros [H | H]; [discriminate H|].
    exact (positiveToString_no_LF _ H).
  - apply positiveToString_no_LF.
Qed.

Lemma statusLine_no_LF (code : Z) : ~ In LF (statusLine code).
Proof.
  unfold statusLine.
  intros H. apply in_app_or in H as [H | H].
  - revert H. apply no_LF_check. reflexivity.
  - apply in_app_or in H as [H | H].
    + exact (numToString_no_LF code H).
    + revert H. apply no_LF_check. reflexivity.
Qed.

(** X22. What [encodeHTTPResp] produces, [splitLines] reads back: for a
    non-negative status code and header lines free of LF, the lines of the
    encoded header are the status line followed by the header lines,
    unchanged and in order, and nothing else (in particular no empty line
    at the end). *)
Theorem splitLines_encodeHTTPResp (resp : HTTPRes.t) :
  0 <= HTTPRes.code resp ->
  Forall (fun h => ~ In LF h) (HTTPRes.headers resp) ->
  BufferUtils.splitLines (Server.encodeHTTPResp resp)
  = statusLine (HTTPRes.code resp) :: HTTPRes.headers resp.
Proof.
  intros Hc Hh. rewrite encodeHTTPResp_shape. fold (statusLine (HTTPRes.code resp)).
  pose proof (splitLines_joined
                (map (fun l => (l, true))
                   (statusLine (HTTPRes.code resp) :: HTTPRes.headers resp))
                []) as H.
  unfold joinLines in H. rewrite !map_map in H. cbn [fst snd eol] in H.
  rewrite map_id, !app_nil_r in H. cbn [map List.concat] in H.
  rewrite <- app_assoc in H. apply H.
  - constructor.
    + split; [apply statusLine_no_LF | discriminate].
    + apply Forall_map. cbn [fst snd].
      eapply Forall_impl; [|exact Hh]. intros h Hl.
      split; [exact Hl | discriminate].
  - intros [].
Qed.

Lemma splitLines_encodeHTTPResp_witness :
  BufferUtils.splitLines (Server.encodeHTTPResp (withLength echoResp 5))
  = statusLine (HTTPRes.code (withLength echoResp 5))
      :: HTTPRes.headers (withLength echoResp 5).
Proof.
  apply (splitLines_encodeHTTPResp (withLength echoResp 5)).
  - vm_compute. discriminate.
  - repeat constructor; apply no_LF_check; reflexivity.
Defined.

(** X23. The compiled [cutMessage] never hands a request over: whatever the
    buffer holds (within its invariant), the result is a thrown error or
    "need more data", never a parsed message. *)
Theorem dist_cutMessage_delivers_nothing (b b' : DynBuf.t)
    (msg : HTTPReq.t) :
  buf_inv b ->
  DistHttpParser.cutMessage b <> Ok (Some msg, b').
Proof. exact (dist_cutMessage_never_delivers b b' msg). Qed.

Lemma dist_cutMessage_delivers_nothing_witness :
  DistHttpParser.cutMessage (BufferUtils.bufpush Server.emptyBuf pipelined)
  <> Ok (Some echoReq5, Server.emptyBuf).
Proof.
  apply (dist_cutMessage_delivers_nothing
           (BufferUtils.bufpush Server.emptyBuf pipelined)).
  vm_compute. split; discriminate.
Defined.

(** ** Further properties: one turn of the connection loop *)

Lemma bind_Ret {A B} (m : Server.M A) (k : A -> Server.M B)
    (w w1 : Server.World) (a : A) :
  m w = Server.Ret a w1 -> Server.bind m k w = k a w1.
Proof. intros H. unfold Server.bind. rewrite H. reflexivity. Qed.

Lemma soWrite_wrote (w : Server.World) (d : Buffer) :
  TCPConn.err (Server.conn w) = None ->
  Server.soWrite d w = Server.Ret tt (wrote w d).
Proof.
  destruct w as [[e en sin sout rds] b h]. cbn. intros ->. reflexivity.
Qed.

Lemma read_memory_fresh (w : Server.World) (r : nat) (B : Buffer) :
  nth_error (Server.heap w) r
  = Some {| BodyReader.length := blen B;
            BodyReader.read := BodyReader.FromMemory B false |} ->
  Server.read r w = Server.Ret B (setReader w r (servedReader B)).
Proof.
  intros Hr. unfold Server.read, Server.bind, Server.deref. rewrite Hr.
  cbn [BodyReader.read]. unfold Server.setClosure. rewrite Hr. reflexivity.
Qed.

Lemma nth_error_update_other {A} (l : list A) (i j : nat) (x : A) :
  i <> j -> nth_error (Server.update l i x) j = nth_error l j.
Proof.
  revert i j; induction l as [|y l IH]; intros [|i] [|j] H; simpl;
    try reflexivity; [contradiction H; reflexivity | apply IH; lia].
Qed.

Lemma writeBody_memory_frame (w : Server.World) (r : nat) (B : Buffer)
    (fuel : nat) :
  nth_error (Server.heap w) r
  = Some {| BodyReader.length := blen B;
            BodyReader.read := BodyReader.FromMemory B false |} ->
  TCPConn.err (Server.conn w) = None ->
  B <> [] ->
  Server.writeBody (S (S fuel)) r w
  = Server.Ret tt (wrote (setReader w r (servedReader B)) B).
Proof.
  intros Hr He HB.
  change (Server.writeBody (S (S fuel)) r)
    with (Server.bind (Server.read r) (fun d =>
            if blen d =? 0 then Server.ret tt
            else Server.bind (Server.soWrite d)
                   (fun _ => Server.writeBody (S fuel) r))).
  rewrite (bind_Ret _ _ _ _ _ (read_memory_fresh w r B Hr)).
  replace (blen B =? 0) with false.
  2:{ symmetry. apply Z.eqb_neq. destruct B; [contradiction HB; reflexivity|].
      unfold blen. simpl List.length. lia. }
  rewrite (bind_Ret _ _ _ _ _
             (soWrite_wrote (setReader w r (servedReader B)) B He)).
  change (Server.writeBody (S fuel) r)
    with (Server.bind (Server.read r) (fun d =>
            if blen d =? 0 then Server.ret tt
            else Server.bind (Server.soWrite d)
                   (fun _ => Server.writeBody fuel r))).
  rewrite (bind_Ret _ _ _ _ _
             (read_exhausted (wrote (setReader w r (servedReader B)) B) r
                (servedReader B) (nth_error_update _ _ _ _ Hr) eq_refl)).
  reflexivity.
Qed.

Lemma writeHTTPResp_memory_frame (w : Server.World) (resp : HTTPRes.t)
    (B : Buffer) (fuel : nat) :
  nth_error (Server.heap w) (HTTPRes.body resp)
  = Some {| BodyReader.length := blen B;
            BodyReader.read := BodyReader.FromMemory B false |} ->
  TCPConn.err (Server.conn w) = None ->
  B <> [] ->
  Server.writeHTTPResp (S (S fuel)) resp w
  = Server.Ret tt
      (wrote
         (setReader
            (wrote w (Server.encodeHTTPResp (withLength resp (blen B))))
            (HTTPRes.body resp) (servedReader B))
         B).
Proof.
  intros Hr He HB. unfold Server.writeHTTPResp.
  unfold Server.bind at 1. unfold Server.deref. rewrite Hr.
  cbn [BodyReader.length].
  replace (blen B <? 0) with false
    by (symmetry; apply Z.ltb_ge; apply blen_nonneg).
  fold (withLength resp (blen B)).
  rewrite (bind_Ret _ _ _ _ _ (soWrite_wrote w _ He)).
  apply writeBody_memory_frame; [exact Hr | exact He | exact HB].
Qed.

Lemma drain_exhausted (w : Server.World) (r : nat) (rd : BodyReader.t)
    (fuel : nat) :
  nth_error (Server.heap w) r = Some rd -> exhausted rd ->
  Server.drain (S fuel) r w = Server.Ret tt w.
Proof.
  intros Hr Hex.
  change (Server.drain (S fuel) r)
    with (Server.bind (Server.read r) (fun d =>
            if blen d >? 0 then Server.drain fuel r else Server.ret tt)).
  rewrite (bind_Ret _ _ _ _ _ (read_exhausted w r rd Hr Hex)).
  reflexivity.
Qed.

Lemma hello_stream (r : nat) :
  Server.encodeHTTPResp
    (withLength
       {| HTTPRes.code := 200;
          HTTPRes.headers := [str "Server: my_first_http_server"];
          HTTPRes.body := r |} (blen helloBody))
  = okHeader 13.
Proof. vm_compute. reflexivity. Qed.

Lemma serverLoop_turn (fuel : nat) (w : Server.World)
    (line0 : Buffer) (hs : list Buffer) (post : Buffer)
    (m : JsString) (u : Buffer) (v : JsString) :
  TCPConn.err (Server.conn w) = None ->
  buf_inv (Server.buf w) ->
  valid (Server.buf w) = httpBlock line0 hs ++ post ->
  HttpParser.parseRequestLine line0 = Ok (m, u, v) ->
  ~ In LF line0 ->
  Forall goodHeader hs ->
  m = str "GET" \/ m = str "HEAD" ->
  u <> str "/echo" ->
  Server.fieldGet hs (str "Content-Length") = None ->
  Server.fieldGet hs (str "Transfer-Encoding") = None ->
  exists w',
    Server.serverLoop HttpParser.cutMessage (S (S (S fuel))) w
    = Server.serverLoop HttpParser.cutMessage (S (S fuel)) w'
    /\ TCPConn.socket_out (Server.conn w')
       = TCPConn.socket_out (Server.conn w) ++ [okHeader 13; helloBody]
    /\ valid (Server.buf w') = post
    /\ buf_inv (Server.buf w')
    /\ TCPConn.err (Server.conn w') = None
    /\ TCPConn.socket_in (Server.conn w') = TCPConn.socket_in (Server.conn w)
    /\ TCPConn.ended (Server.conn w') = TCPConn.ended (Server.conn w).
Proof.
  intros He Hinv Hv Hl H0 Hhs Hm Hu Hcl Hte.
  destruct (cutMessage_at HttpParser.parseHTTPReq (Server.buf w)
              (httpBlock line0 hs) post Hinv Hv)
    as (Hcut & Hvalid & Hinv').
  { rewrite Hv. apply indexOf_httpBlock; [exact H0|].
    eapply Forall_impl; [|exact Hhs]. exact goodHeader_nonempty. }
  { unfold httpBlock, blen. rewrite !length_app. simpl List.length. lia. }
  rewrite (parseHTTPReq_block line0 hs m u v Hl H0 Hhs) in Hcut.
  cbn [jbind] in Hcut. fold HttpParser.cutMessage in Hcut.
  pose proof (parseRequestLine_version_not_1_0 line0 m u v Hl) as Hver.
  set (msg := {| HTTPReq.method := m; HTTPReq.uri := u;
                 HTTPReq.version := v; HTTPReq.headers := hs |}) in *.
  set (b' := BufferUtils.bufPop (Server.buf w) (blen (httpBlock line0 hs)))
    in *.
  destruct w as [c b h]. cbn [Server.buf Server.conn] in *.
  set (w1 := {| Server.conn := c; Server.buf := b'; Server.heap := h |}).
  assert (Hreader : Server.readerFromReq msg w1
                    = Server.Ret (List.length h) (withReader w1 zeroReader)).
  { rewrite readerFromReq_cases. cbv zeta.
    assert (Hb : bodiless msg) by exact Hm.
    apply method_test in Hb. rewrite Hb.
    unfold contentLen, chunked. cbn [HTTPReq.headers msg].
    rewrite Hcl, Hte. reflexivity. }
  set (w2 := withReader w1 zeroReader) in *.
  set (rd := {| BodyReader.length := blen helloBody;
                BodyReader.read := BodyReader.FromMemory helloBody false |}).
  set (resp := {| HTTPRes.code := 200;
                  HTTPRes.headers := [str "Server: my_first_http_server"];
                  HTTPRes.body := S (List.length h) |}).
  assert (Hhandle : Server.handleReq msg (List.length h) w2
                    = Server.Ret resp (withReader w2 rd)).
  { unfold Server.handleReq. cbn [HTTPReq.uri msg].
    unfold Js.toString_latin1.
    destruct (beq u (str "/echo")) eqn:E;
      [apply beq_eq in E; contradiction|].
    unfold Server.bind, Server.readerFromMemory, Server.alloc, Server.ret.
    cbn [Server.heap w2 withReader w1]. rewrite length_app.
    simpl List.length. rewrite Nat.add_1_r. reflexivity. }
  set (w3 := withReader w2 rd) in *.
  assert (Hnth3 : nth_error (Server.heap w3) (HTTPRes.body resp) = Some rd).
  { cbn [Server.heap w3 w2 withReader w1 HTTPRes.body resp].
    replace (S (List.length h)) with (List.length (h ++ [zeroReader]))
      by (rewrite length_app; simpl; lia).
    apply nth_error_snoc. }
  assert (He3 : TCPConn.err (Server.conn w3) = None) by exact He.
  assert (HB : helloBody <> []) by discriminate.
  pose proof (writeHTTPResp_memory_frame w3 resp helloBody fuel Hnth3 He3 HB)
    as Hwrite.
  set (w4 := wrote (setReader (wrote w3 _) _ _) helloBody) in Hwrite.
  assert (Hnth4 : nth_error (Server.heap w4) (List.length h)
                  = Some zeroReader).
  { cbn [Server.heap w4 wrote setReader w3 w2 withReader w1 HTTPRes.body resp].
    rewrite nth_error_update_other by lia.
    rewrite nth_error_app1 by (rewrite length_app; simpl; lia).
    apply nth_error_snoc. }
  exists w4. split.
  - cbn [Server.serverLoop].
    erewrite bind_Ret by reflexivity. cbn [Server.buf].
    erewrite bind_Ret by (rewrite Hcut; reflexivity).
    erewrite bind_Ret by reflexivity.
    cbn [fst snd]. fold w1.
    rewrite (bind_Ret _ _ _ _ _ Hreader).
    rewrite (bind_Ret _ _ _ _ _ Hhandle).
    rewrite (bind_Ret _ _ _ _ _ Hwrite).
    cbn [HTTPReq.version msg]. rewrite Hver.
    rewrite (bind_Ret _ _ _ _ _
               (drain_exhausted w4 _ zeroReader _ Hnth4 eq_refl)).
    reflexivity.
  - cbn [Server.conn Server.buf w4 wrote setReader w3 w2 withReader w1
         TCPConn.socket_out TCPConn.err TCPConn.socket_in TCPConn.ended].
    split.
    { rewrite <- app_assoc. cbn [app]. unfold resp.
      rewrite hello_stream. reflexivity. }
    split; [exact Hvalid|]. split; [exact Hinv'|].
    split; [exact He|]. split; reflexivity.
Qed.

(** X24. One turn of the connection loop.  When the buffer starts with a
    complete GET or HEAD request whose target is not [/echo] and which
    announces no body, the loop writes the greeting (header block with
    [Content-Length: 13], then the 13 bytes), consumes exactly that request
    from the buffer, leaves what follows it in place for the next turn, and
    goes on serving; it reads nothing from the socket. *)
Theorem serverLoop_bodiless_turn (fuel : nat) (w : Server.World)
    (line0 : Buffer) (hs : list Buffer) (post : Buffer)
    (m : JsString) (u : Buffer) (v : JsString) :
  TCPConn.err (Server.conn w) = None ->
  buf_inv (Server.buf w) ->
  valid (Server.buf w) = httpBlock line0 hs ++ post ->
  HttpParser.parseRequestLine line0 = Ok (m, u, v) ->
  ~ In LF line0 ->
  Forall goodHeader hs ->
  m = str "GET" \/ m = str "HEAD" ->
  u <> str "/echo" ->
  Server.fieldGet hs (str "Content-Length") = None ->
  Server.fieldGet hs (str "Transfer-Encoding") = None ->
  exists w',
    Server.serverLoop HttpParser.cutMessage (S (S (S fuel))) w
    = Server.serverLoop HttpParser.cutMessage (S (S fuel)) w'
    /\ TCPConn.socket_out (Server.conn w')
       = TCPConn.socket_out (Server.conn w) ++ [okHeader 13; helloBody]
    /\ valid (Server.buf w') = post
    /\ buf_inv (Server.buf w')
    /\ TCPConn.err (Server.conn w') = None
    /\ TCPConn.socket_in (Server.conn w') = TCPConn.socket_in (Server.conn w)
    /\ TCPConn.ended (Server.conn w') = TCPConn.ended (Server.conn w).
Proof. exact (serverLoop_turn fuel w line0 hs post m u v). Qed.

Lemma serverLoop_bodiless_turn_witness :
  exists w',
    Server.serverLoop HttpParser.cutMessage 3 twoGets
    = Server.serverLoop HttpParser.cutMessage 2 w'
    /\ TCPConn.socket_out (Server.conn w')
       = TCPConn.socket_out (Server.conn twoGets) ++ [okHeader 13; helloBody]
    /\ valid (Server.buf w') = str "GET /x HTTP/1.1"
    /\ buf_inv (Server.buf w')
    /\ TCPConn.err (Server.conn w') = None
    /\ TCPConn.socket_in (Server.conn w')
       = TCPConn.socket_in (Server.conn twoGets)
    /\ TCPConn.ended (Server.conn w') = TCPConn.ended (Server.conn twoGets).
Proof.
  apply (serverLoop_bodiless_turn 0 twoGets (str "GET / HTTP/1.1")
           [str "Host: a"] (str "GET /x HTTP/1.1")
           (str "GET") (str "/") (str "HTTP/1.1")).
  - reflexivity.
  - unfold buf_inv. vm_compute. split; discriminate.
  - vm_compute. reflexivity.
  - vm_compute. reflexivity.
  - apply no_LF_check. reflexivity.
  - constructor; [|constructor].
    split; [reflexivity | apply no_LF_check; reflexivity].
  - left. reflexivity.
  - discriminate.
  - vm_compute. reflexivity.
  - vm_compute. reflexivity.
Defined.

(** ** Further properties: a whole connection *)

Lemma valid_bufpush (b : DynBuf.t) (d : Buffer) :
  valid (BufferUtils.bufpush b d) = DynBuf.data b ++ d.
Proof.
  unfold valid, BufferUtils.bufpush. cbn [DynBuf.data DynBuf.length].
  pose proof (blen_nonneg (DynBuf.data b ++ d)).
  rewrite subarray_prefix by lia.
  apply firstn_all2. unfold blen. lia.
Qed.

(** No complete request buffered and the socket delivers a chunk: the chunk
    is appended and the loop goes round again. *)
Lemma serverLoop_refill (fuel : nat) (w : Server.World) (d : Buffer)
    (rest : list TCPConn.event) :
  TCPConn.err (Server.conn w) = None ->
  TCPConn.ended (Server.conn w) = false ->
  TCPConn.socket_in (Server.conn w) = TCPConn.EvData d :: rest ->
  Js.indexOf (valid (Server.buf w)) (CRLF ++ CRLF) < 0 ->
  DynBuf.length (Server.buf w) <= 8192 ->
  d <> [] ->
  Server.serverLoop HttpParser.cutMessage (S fuel) w
  = Server.serverLoop HttpParser.cutMessage fuel
      {| Server.conn :=
           {| TCPConn.err := None; TCPConn.ended := false;
              TCPConn.socket_in := rest;
              TCPConn.socket_out := TCPConn.socket_out (Server.conn w);
              TCPConn.reads := S (TCPConn.reads (Server.conn w)) |};
         Server.buf := BufferUtils.bufpush (Server.buf w) d;
         Server.heap := Server.heap w |}.
Proof.
  intros He Hen Hin Hidx Hlen Hd.
  pose proof (cutMessage_incomplete (Server.buf w) Hidx Hlen) as Hcut.
  destruct w as [[e en sin sout rds] b h]. cbn in He, Hen, Hin, Hcut.
  subst e en sin.
  cbn [Server.serverLoop]. unfold Server.bind at 1. unfold Server.getBuf.
  cbn [Server.buf]. unfold Server.bind at 1. rewrite Hcut.
  cbn [Server.lift Server.ret]. unfold Server.bind at 1.
  cbn [Server.setBuf snd fst Server.conn Server.buf Server.heap].
  unfold Server.bind at 1.
  cbn [Server.soRead Server.bind Server.getConn Server.setConn Server.ret
       Server.conn Server.buf Server.heap TCPConn.err TCPConn.ended
       TCPConn.socket_in TCPConn.socket_out TCPConn.reads].
  unfold Server.soRead, Server.bind, Server.getConn, Server.setConn,
    Server.getBuf, Server.setBuf, Server.ret.
  cbn [Server.conn Server.buf Server.heap TCPConn.err TCPConn.ended
       TCPConn.socket_in TCPConn.socket_out TCPConn.reads].
  replace (blen d =? 0) with false.
  2:{ symmetry. apply Z.eqb_neq. destruct d; [contradiction Hd; reflexivity|].
      unfold blen. simpl List.length. lia. }
  reflexivity.
Qed.

Lemma serverClient_one_request (fuel : nat) (line0 : Buffer)
    (hs : list Buffer) (m : JsString) (u : Buffer) (v : JsString) :
  HttpParser.parseRequestLine line0 = Ok (m, u, v) ->
  ~ In LF line0 ->
  Forall goodHeader hs ->
  m = str "GET" \/ m = str "HEAD" ->
  u <> str "/echo" ->
  Server.fieldGet hs (str "Content-Length") = None ->
  Server.fieldGet hs (str "Transfer-Encoding") = None ->
  exists w',
    Server.serverClient HttpParser.cutMessage (S (S (S (S fuel))))
      (Server.freshConn [TCPConn.EvData (httpBlock line0 hs); TCPConn.EvEnd])
    = Server.Ret tt w'
    /\ TCPConn.socket_out (Server.conn w') = [okHeader 13; helloBody]
    /\ TCPConn.ended (Server.conn w') = true.
Proof.
  intros Hl H0 Hhs Hm Hu Hcl Hte. unfold Server.serverClient.
  rewrite (serverLoop_refill _ _ (httpBlock line0 hs) [TCPConn.EvEnd]);
    [| reflexivity | reflexivity | reflexivity
     | vm_compute; reflexivity | vm_compute; discriminate
     | unfold httpBlock; destruct line0; discriminate ].
  cbn [Server.conn Server.buf Server.heap Server.freshConn
       TCPConn.socket_out TCPConn.reads].
  match goal with |- context [Server.serverLoop _ _ ?x] => set (w1 := x) end.
  destruct (serverLoop_turn fuel w1 line0 hs [] m u v)
    as (w2 & Hturn & Hout & Hvalid & Hinv & He & Hin & Hen);
    try assumption.
  { reflexivity. }
  { apply buf_inv_bufpush. }
  { unfold w1. cbn [Server.buf]. rewrite valid_bufpush, app_nil_r.
    reflexivity. }
  rewrite Hturn.
  destruct (serverLoop_eof (S fuel) w2) as (w3 & Hret & Hout3 & Hen3).
  - exact He.
  - rewrite Hvalid. vm_compute. reflexivity.
  - rewrite <- (valid_length _ Hinv), Hvalid. vm_compute. discriminate.
  - right. exists []. split; [exact Hen | exact Hin].
  - exists w3. split; [exact Hret|]. split; [|exact Hen3].
    rewrite Hout3, Hout. reflexivity.
Qed.

(** X25. A whole connection.  A client sends, in one chunk, a single
    well-formed GET or HEAD request for a target other than [/echo] that
    announces no body, and then closes.  [serverClient] returns normally,
    and what it wrote to the socket is exactly the greeting: the header
    block with [Content-Length: 13] and the 13 bytes of the body (for HEAD
    as well). *)
Theorem serverClient_single_request (fuel : nat) (line0 : Buffer)
    (hs : list Buffer) (m : JsString) (u : Buffer) (v : JsString) :
  HttpParser.parseRequestLine line0 = Ok (m, u, v) ->
  ~ In LF line0 ->
  Forall goodHeader hs ->
  m = str "GET" \/ m = str "HEAD" ->
  u <> str "/echo" ->
  Server.fieldGet hs (str "Content-Length") = None ->
  Server.fieldGet hs (str "Transfer-Encoding") = None ->
  exists w',
    Server.serverClient HttpParser.cutMessage (S (S (S (S fuel))))
      (Server.freshConn [TCPConn.EvData (httpBlock line0 hs); TCPConn.EvEnd])
    = Server.Ret tt w'
    /\ TCPConn.socket_out (Server.conn w') = [okHeader 13; helloBody]
    /\ TCPConn.ended (Server.conn w') = true.
Proof. exact (serverClient_one_request fuel line0 hs m u v). Qed.

Lemma serverClient_single_request_witness :
  exists w',
    Server.serverClient HttpParser.cutMessage 4
      (Server.freshConn
         [TCPConn.EvData
            (httpBlock (str "HEAD /index.html HTTP/1.1")
               [str "Host: example.org"; str "Accept: */*"]);
          TCPConn.EvEnd])
    = Server.Ret tt w'
    /\ TCPConn.socket_out (Server.conn w') = [okHeader 13; helloBody]
    /\ TCPConn.ended (Server.conn w') = true.
Proof.
  apply (serverClient_single_request 0 (str "HEAD /index.html HTTP/1.1")
           [str "Host: example.org"; str "Accept: */*"]
           (str "HEAD") (str "/index.html") (str "HTTP/1.1")).
  - vm_compute. reflexivity.
  - apply no_LF_check. reflexivity.
  - constructor; [|constructor; [|constructor]];
      (split; [reflexivity | apply no_LF_check; reflexivity]).
  - right. reflexivity.
  - discriminate.
  - vm_compute. reflexivity.
  - vm_compute. reflexivity.
Defined.
